(** * Solver: decode, repair and evaluation of hospital timetables

    A shallow embedding of [src/Solver.cc].  The C++ class [Solver] keeps a
    working copy of the problem ([problem]), a pristine copy
    ([originalProblem]) and the decoded [solution]; its member functions
    mutate these fields.  Here the object is the record [Solver] and a member
    function is a computation in the monad [M], which threads the object and
    stops at the first fault.

    Conventions.
    - C++ [int] is [Z]; signed overflow is undefined in C++ and is outside
      this model (all quantities of an instance are far from the bounds).
    - [std::vector] is [list]; reading or writing [v[i]] outside the vector
      is undefined behaviour and yields the fault [Undefined].
    - The day-indexed [std::map]s are [gmap Z _]; [m[k]] on a map inserts a
      value-initialised entry when [k] is absent, [find]/[count]/[at] do not.
    - A thrown [std::runtime_error] is [DataFault] (failed lookup) or
      [CapacityFault] (no capacity at commit); [std::out_of_range], and the
      length error of a vector built with a negative size, is [RangeFault]. *)

From stdpp Require Import gmap strings list fin_maps sorting.

Open Scope Z_scope.

(** ** Faults and the result type *)

Inductive fault : Type :=
| DataFault
| CapacityFault
| RangeFault
| Undefined.

Inductive res (A : Type) : Type :=
| Ok (a : A)
| Err (f : fault).

Arguments Ok {A} a.
Arguments Err {A} f.

#[global] Instance res_ret : MRet res := λ A a, Ok a.

#[global] Instance res_bind : MBind res :=
  λ A B f m, match m with Ok a => f a | Err e => Err e end.

(** [v[i]] on a [std::vector] with an [int] index. *)
Definition vec_at {A} (v : list A) (i : Z) : res A :=
  if bool_decide (0 ≤ i) then
    match v !! Z.to_nat i with
    | Some x => Ok x
    | None => Err Undefined
    end
  else Err Undefined.

(** [v[i] = x] on a [std::vector] with an [int] index. *)
Definition vec_set {A} (v : list A) (i : Z) (x : A) : res (list A) :=
  if bool_decide (0 ≤ i) then
    if bool_decide (Z.to_nat i < length v)%nat then Ok (<[Z.to_nat i := x]> v)
    else Err Undefined
  else Err Undefined.

(** A loop over a range whose body may fault. *)
Fixpoint res_foldl {A B} (f : A → B → res A) (a : A) (l : list B) : res A :=
  match l with
  | [] => Ok a
  | x :: l' => a' ← f a x; res_foldl f a' l'
  end.

(** [m[k]] used as an rvalue on a day-indexed map of [int]: the value read. *)
Definition map_read (m : gmap Z Z) (k : Z) : Z := default 0 (m !! k).

(** [m[k]] used as an rvalue: its effect on the map (a missing key is
    inserted with value 0). *)
Definition map_touch (m : gmap Z Z) (k : Z) : gmap Z Z :=
  match m !! k with
  | Some _ => m
  | None => <[k := 0]> m
  end.

(** [m[k].push_back(x)] on a day-indexed map of vectors. *)
Definition map_push {A} (m : gmap Z (list A)) (k : Z) (x : A) : gmap Z (list A) :=
  <[k := default [] (m !! k) ++ [x]]> m.

(** ** Data model *)

Module Patient.
(** Modelled from the spec: the declaration of [Patient] (ProblemInstance.h)
    is not among the sources; the fields are those [Solver.cc] reads, as
    listed in section 3 of the specification. *)
Record t : Type := mk {
  id : string;
  gender : string;
  age_group : string;
  mandatory : bool;
  surgeon_id : string;
  surgery_duration : Z;
  surgery_release_day : Z;
  surgery_due_day : Z;
  length_of_stay : Z;
  incompatible_room_ids : list string;
  skill_level_required : list Z;
  workload_produced : list Z
}.
End Patient.

Module Occupant.
(** Modelled from the spec: the declaration of [Occupant] (ProblemInstance.h)
    is not among the sources; the fields are those [Solver.cc] reads. *)
Record t : Type := mk {
  id : string;
  gender : string;
  age_group : string;
  room_id : string;
  length_of_stay : Z;
  skill_level_required : list Z;
  workload_produced : list Z
}.
End Occupant.

Module Surgeon.
(** Modelled from the spec: the declaration of [Surgeon] (ProblemInstance.h)
    is not among the sources; a surgeon has an id and a per-day budget. *)
Record t : Type := mk {
  id : string;
  max_surgery_time : list Z
}.
End Surgeon.

Module Room.
(** Modelled from the spec: the declaration of [Room] (ProblemInstance.h) is
    not among the sources; a room has an id and a fixed capacity. *)
Record t : Type := mk {
  id : string;
  capacity : Z
}.
End Room.

Module OperatingTheater.
(** Modelled from the spec: the declaration of [OperatingTheater]
    (ProblemInstance.h) is not among the sources; a theater has an id and a
    per-day availability. *)
Record t : Type := mk {
  id : string;
  availability : list Z
}.
End OperatingTheater.

Module WorkingShift.
(** Modelled from the spec: the declaration of [Nurse::WorkingShift]
    (ProblemInstance.h) is not among the sources. *)
Record t : Type := mk {
  day : Z;
  shift : string;
  max_load : Z
}.
End WorkingShift.

Module Nurse.
(** Modelled from the spec: the declaration of [Nurse] (ProblemInstance.h) is
    not among the sources. *)
Record t : Type := mk {
  id : string;
  skill_level : Z;
  working_shifts : list WorkingShift.t
}.
End Nurse.

Module Weights.
(** Modelled from the spec: the declaration of the weights (ProblemInstance.h)
    is not among the sources; one weight per soft constraint. *)
Record t : Type := mk {
  room_mixed_age : Z;
  room_nurse_skill : Z;
  continuity_of_care : Z;
  nurse_eccessive_workload : Z;
  open_operating_theater : Z;
  surgeon_transfer : Z;
  patient_delay : Z;
  unscheduled_optional : Z
}.
End Weights.

Module ProblemInstance.
(** Modelled from the spec: the declaration of [ProblemInstance]
    (ProblemInstance.h) is not among the sources. *)
Record t : Type := mk {
  days : Z;
  shift_types : list string;
  age_groups : list string;
  weights : Weights.t;
  rooms : list Room.t;
  theaters : list OperatingTheater.t;
  surgeons : list Surgeon.t;
  nurses : list Nurse.t;
  patients : list Patient.t;
  occupants : list Occupant.t
}.

Definition set_surgeons (sg : list Surgeon.t) (p : t) : t :=
  mk (days p) (shift_types p) (age_groups p) (weights p) (rooms p)
     (theaters p) sg (nurses p) (patients p) (occupants p).
End ProblemInstance.

Module RoomState.
(** Modelled from the spec: the declaration of [RoomState] (Solution.h) is
    not among the sources; per-day remaining capacity, per-day assigned
    patients and per-day pre-existing occupants.  The three members are maps
    keyed by the day: [Solver.cc] fills them with [operator[]] on a fresh
    state and reads them with [find], [count] and [at]. *)
Record t : Type := mk {
  room_info : Room.t;
  capacity_per_day : gmap Z Z;
  patients_per_day : gmap Z (list Patient.t);
  occupants_per_day : gmap Z (list Occupant.t)
}.
End RoomState.

Module OperatingTheaterState.
(** Modelled from the spec: the declaration of [OperatingTheaterState]
    (Solution.h) is not among the sources; per-day remaining availability and
    per-day assigned patients.  Both members are maps keyed by the day:
    [Solver.cc] fills them with [operator[]] on a fresh state and reads the
    patients with [find], [count] and [at]. *)
Record t : Type := mk {
  theater_info : OperatingTheater.t;
  availability_per_day : gmap Z Z;
  patients_per_day : gmap Z (list Patient.t)
}.
End OperatingTheaterState.

Module PatientAssignment.
(** Modelled from the spec: the declaration of [PatientAssignment]
    (Solution.h) is not among the sources; the admission day is a
    [std::optional<int>], absent for an unplaced patient. *)
Record t : Type := mk {
  id : string;
  admission_day : option Z;
  room : string;
  operating_theater : string
}.

(** [{ patient.id }]: aggregate initialisation with the id only. *)
Definition unplaced (i : string) : t := mk i None EmptyString EmptyString.
End PatientAssignment.

Module ShiftAssignment.
(** Modelled from the spec: the declaration of
    [NurseAssignment::ShiftAssignment] (Solution.h) is not among the
    sources. *)
Record t : Type := mk {
  day : Z;
  shift : string;
  rooms : list string
}.
End ShiftAssignment.

Module NurseAssignment.
(** Modelled from the spec: the declaration of [NurseAssignment] (Solution.h)
    is not among the sources. *)
Record t : Type := mk {
  id : string;
  assignments : list ShiftAssignment.t
}.
End NurseAssignment.

Module EncodedPatientSolution.
(** Modelled from the spec: the declaration of [EncodedPatientSolution] is
    not among the sources; a tuple (patient id, admission day, room id). *)
Record t : Type := mk {
  patient_id : string;
  admission_day : Z;
  room_id : string
}.
End EncodedPatientSolution.

Module EncodedSolution.
(** Modelled from the spec: the declaration of [EncodedSolution] is not among
    the sources; the per-patient tuples and the flat list of nurse blocks. *)
Record t : Type := mk {
  encoded_patients : list EncodedPatientSolution.t;
  encoded_nurses : list (list string)
}.
End EncodedSolution.

Module Solution.
(** Modelled from the spec: the declaration of [Solution] (Solution.h) is not
    among the sources. *)
Record t : Type := mk {
  roomStates : list RoomState.t;
  theaterStates : list OperatingTheaterState.t;
  patients : list PatientAssignment.t;
  nurses : list NurseAssignment.t;
  soft_constraints : list Z;
  total_soft_constraints : Z
}.

Definition empty : t := mk [] [] [] [] [] 0.

Definition set_roomStates (x : list RoomState.t) (s : t) : t :=
  mk x (theaterStates s) (patients s) (nurses s) (soft_constraints s)
     (total_soft_constraints s).

Definition set_theaterStates (x : list OperatingTheaterState.t) (s : t) : t :=
  mk (roomStates s) x (patients s) (nurses s) (soft_constraints s)
     (total_soft_constraints s).

Definition set_patients (x : list PatientAssignment.t) (s : t) : t :=
  mk (roomStates s) (theaterStates s) x (nurses s) (soft_constraints s)
     (total_soft_constraints s).

Definition set_nurses (x : list NurseAssignment.t) (s : t) : t :=
  mk (roomStates s) (theaterStates s) (patients s) x (soft_constraints s)
     (total_soft_constraints s).

Definition set_soft (x : list Z) (tot : Z) (s : t) : t :=
  mk (roomStates s) (theaterStates s) (patients s) (nurses s) x tot.
End Solution.

(** The [Solver] object.  The constructor copies the instance into both
    [problem] and [originalProblem]; the random generator [rng] is not used
    by any function modelled here. *)
Record Solver : Type := mkSolver {
  problem : ProblemInstance.t;
  originalProblem : ProblemInstance.t;
  solution : Solution.t
}.

Definition newSolver (problemInstance : ProblemInstance.t) : Solver :=
  mkSolver problemInstance problemInstance Solution.empty.

Definition set_problem (p : ProblemInstance.t) (s : Solver) : Solver :=
  mkSolver p (originalProblem s) (solution s).

Definition set_solution (x : Solution.t) (s : Solver) : Solver :=
  mkSolver (problem s) (originalProblem s) x.

(** ** The monad of member functions *)

Definition M (A : Type) : Type := Solver → res (A * Solver).

#[global] Instance M_ret : MRet M := λ A a s, Ok (a, s).

#[global] Instance M_bind : MBind M :=
  λ A B f m s, match m s with Ok (a, s') => f a s' | Err e => Err e end.

Definition get : M Solver := λ s, Ok (s, s).

Definition throw {A} (e : fault) : M A := λ _, Err e.

Definition lift {A} (r : res A) : M A :=
  λ s, match r with Ok a => Ok (a, s) | Err e => Err e end.

(** A [for] loop over a vector whose body updates the element in place. *)
Fixpoint forM {A} (f : A → M A) (l : list A) : M (list A) :=
  match l with
  | [] => mret []
  | x :: l' => x' ← f x; l'' ← forM f l'; mret (x' :: l'')
  end.

(** ** Dynamic state initialiser *)

(** The inner loop of [initializeDynamicStates] for one occupant of the room:
    [for (day = 0; day < occupant.length_of_stay && day < problem.days; ++day)]. *)
Definition seedOccupant (days : Z) (occupant : Occupant.t)
    (roomState : RoomState.t) : RoomState.t :=
  foldl (λ rs day,
           RoomState.mk (RoomState.room_info rs)
             (<[day := map_read (RoomState.capacity_per_day rs) day - 1]>
                (RoomState.capacity_per_day rs))
             (RoomState.patients_per_day rs)
             (map_push (RoomState.occupants_per_day rs) day occupant))
        roomState (seqZ 0 (Z.min (Occupant.length_of_stay occupant) days)).

Definition initRoomState (days : Z) (occupants : list Occupant.t)
    (room : Room.t) : RoomState.t :=
  let fresh :=
    RoomState.mk room
      (foldl (λ m day, <[day := Room.capacity room]> m) ∅ (seqZ 0 days)) ∅ ∅ in
  foldl (λ rs occupant,
           if bool_decide (Occupant.room_id occupant = Room.id room)
           then seedOccupant days occupant rs else rs)
        fresh occupants.

Definition initTheaterState (days : Z) (theater : OperatingTheater.t)
    : res OperatingTheaterState.t :=
  av ← res_foldl (λ m day,
                    x ← vec_at (OperatingTheater.availability theater) day;
                    Ok (<[day := x]> m))
                 (∅ : gmap Z Z) (seqZ 0 days);
  Ok (OperatingTheaterState.mk theater av ∅).

Definition initializeDynamicStates : M unit := λ s,
  let problem' :=
    ProblemInstance.set_surgeons
      (ProblemInstance.surgeons (originalProblem s)) (problem s) in
  let days := ProblemInstance.days problem' in
  let roomStates :=
    map (initRoomState days (ProblemInstance.occupants problem'))
        (ProblemInstance.rooms problem') in
  theaterStates ← mapM (initTheaterState days) (ProblemInstance.theaters problem');
  Ok (tt, mkSolver problem' (originalProblem s)
            (Solution.mk roomStates theaterStates [] [] [] 0)).

(** ** Feasibility checks *)

Definition findSurgeon (surgeons : list Surgeon.t) (surgeon_id : string)
    : option (nat * Surgeon.t) :=
  list_find (λ s, Surgeon.id s = surgeon_id) surgeons.

Definition findRoomState (roomStates : list RoomState.t) (room_id : string)
    : option (nat * RoomState.t) :=
  list_find (λ rs, Room.id (RoomState.room_info rs) = room_id) roomStates.

Definition findPatient (patients : list Patient.t) (patient_id : string)
    : option (nat * Patient.t) :=
  list_find (λ p, Patient.id p = patient_id) patients.

Definition surgeonAvailable (surgeons : list Surgeon.t) (patient : Patient.t)
    (day : Z) : res bool :=
  match findSurgeon surgeons (Patient.surgeon_id patient) with
  | None => Err DataFault
  | Some (_, surgeon) =>
      budget ← vec_at (Surgeon.max_surgery_time surgeon) day;
      Ok (bool_decide (Patient.surgery_duration patient ≤ budget))
  end.

Definition checkSurgeonAvailability (patient : Patient.t) (day : Z) : M bool :=
  λ s, b ← surgeonAvailable (ProblemInstance.surgeons (problem s)) patient day;
       Ok (b, s).

Definition touchTheater (day : Z) (t : OperatingTheaterState.t)
    : OperatingTheaterState.t :=
  OperatingTheaterState.mk (OperatingTheaterState.theater_info t)
    (map_touch (OperatingTheaterState.availability_per_day t) day)
    (OperatingTheaterState.patients_per_day t).

Definition theaterAvailability (t : OperatingTheaterState.t) (day : Z) : Z :=
  map_read (OperatingTheaterState.availability_per_day t) day.

(** The loop of [checkOperatingTheaterAvailability]: every theater it
    inspects is read with [availability_per_day[day]]. *)
Fixpoint theaterAvailable (theaterStates : list OperatingTheaterState.t)
    (patient : Patient.t) (day : Z) : bool * list OperatingTheaterState.t :=
  match theaterStates with
  | [] => (false, [])
  | t :: rest =>
      if bool_decide (Patient.surgery_duration patient ≤ theaterAvailability t day)
      then (true, touchTheater day t :: rest)
      else let '(b, rest') := theaterAvailable rest patient day in
           (b, touchTheater day t :: rest')
  end.

Definition checkOperatingTheaterAvailability (patient : Patient.t) (day : Z)
    : M bool :=
  λ s, let '(b, ts) :=
         theaterAvailable (Solution.theaterStates (solution s)) patient day in
       Ok (b, set_solution (Solution.set_theaterStates ts (solution s)) s).

(** The body of the day loop of [checkRoomAvailability]. *)
Definition roomDayOk (roomState : RoomState.t) (patient : Patient.t) (day : Z)
    : bool :=
  match RoomState.capacity_per_day roomState !! day with
  | None => false
  | Some c =>
      if bool_decide (c ≤ 0) then false
      else
        forallb (λ assignedPatient,
                   bool_decide (Patient.gender assignedPatient = Patient.gender patient))
                (default [] (RoomState.patients_per_day roomState !! day))
        && forallb (λ occupant,
                      bool_decide (Occupant.gender occupant = Patient.gender patient))
                   (default [] (RoomState.occupants_per_day roomState !! day))
  end.

(** The days of a stay: [for (day = start; day < min(start + los, days); ++day)]. *)
Definition stayDays (days : Z) (admission_day length_of_stay : Z) : list Z :=
  seqZ admission_day (Z.min (admission_day + length_of_stay) days - admission_day).

Definition roomAvailable (days : Z) (roomStates : list RoomState.t)
    (patient : Patient.t) (admission_day : Z) (room_id : string) : res bool :=
  match findRoomState roomStates room_id with
  | None => Err DataFault
  | Some (_, roomState) =>
      Ok (forallb (roomDayOk roomState patient)
                  (stayDays days admission_day (Patient.length_of_stay patient)))
  end.

Definition checkRoomAvailability (patient : Patient.t) (admission_day : Z)
    (room_id : string) : M bool :=
  λ s, b ← roomAvailable (ProblemInstance.days (problem s))
             (Solution.roomStates (solution s)) patient admission_day room_id;
       Ok (b, s).

(** The short-circuit conjunction of the three checks, written inline in
    [solve] (as [!a || !b || !c]) and in both repair routines (as
    [(a && b) && c]): the surgeon first, then the theaters, then the room. *)
Definition checkPlacement (patient : Patient.t) (day : Z) (room_id : string)
    : M bool :=
  a ← checkSurgeonAvailability patient day;
  if a : bool then
    b ← checkOperatingTheaterAvailability patient day;
    if b : bool then checkRoomAvailability patient day room_id else mret false
  else mret false.

(** ** Commits: surgeon, theater, room *)

Definition assignSurgeon (patient : Patient.t) (day : Z) : M unit := λ s,
  let surgeons := ProblemInstance.surgeons (problem s) in
  match findSurgeon surgeons (Patient.surgeon_id patient) with
  | None => Err DataFault
  | Some (i, surgeon) =>
      budget ← vec_at (Surgeon.max_surgery_time surgeon) day;
      times ← vec_set (Surgeon.max_surgery_time surgeon) day
                 (budget - Patient.surgery_duration patient);
      Ok (tt, set_problem
                (ProblemInstance.set_surgeons
                   (<[i := Surgeon.mk (Surgeon.id surgeon) times]> surgeons)
                   (problem s)) s)
  end.

(** A theater is open on [day] when it already hosts a patient that day:
    [patients_per_day.find(day) != end() && !patients_per_day[day].empty()]. *)
Definition theaterIsOpen (t : OperatingTheaterState.t) (day : Z) : bool :=
  match OperatingTheaterState.patients_per_day t !! day with
  | Some (_ :: _) => true
  | _ => false
  end.

Definition theaterFits (patient : Patient.t) (day : Z)
    (t : OperatingTheaterState.t) : bool :=
  bool_decide (Patient.surgery_duration patient ≤ theaterAvailability t day).

(** The vectors [openTheaters] and [closedTheaters] of pointers into
    [solution.theaterStates]: a pointer is the position in the vector together
    with the theater state it points to. *)
Definition openTheaters (patient : Patient.t) (day : Z)
    (theaterStates : list OperatingTheaterState.t)
    : list (nat * OperatingTheaterState.t) :=
  List.filter (λ c, theaterFits patient day c.2 && theaterIsOpen c.2 day)
              (imap pair theaterStates).

Definition closedTheaters (patient : Patient.t) (day : Z)
    (theaterStates : list OperatingTheaterState.t)
    : list (nat * OperatingTheaterState.t) :=
  List.filter (λ c, theaterFits patient day c.2 && negb (theaterIsOpen c.2 day))
              (imap pair theaterStates).

(** Best open theater: the least remaining availability, the first one on
    ties ([remaining < bestRemaining]). *)
Definition pickOpen (patient : Patient.t) (day : Z)
    (first : nat * OperatingTheaterState.t)
    (candidates : list (nat * OperatingTheaterState.t))
    : nat * OperatingTheaterState.t :=
  fst (foldl (λ '(bestTheater, bestRemaining) theater,
                let remaining :=
                  theaterAvailability theater.2 day - Patient.surgery_duration patient in
                if bool_decide (remaining < bestRemaining)
                then (theater, remaining) else (bestTheater, bestRemaining))
             (first, theaterAvailability first.2 day - Patient.surgery_duration patient)
             candidates).

(** Best closed theater: the largest availability, the first one on ties
    ([cap > bestCapacity]). *)
Definition pickClosed (day : Z)
    (first : nat * OperatingTheaterState.t)
    (candidates : list (nat * OperatingTheaterState.t))
    : nat * OperatingTheaterState.t :=
  fst (foldl (λ '(bestTheater, bestCapacity) theater,
                let cap := theaterAvailability theater.2 day in
                if bool_decide (bestCapacity < cap)
                then (theater, cap) else (bestTheater, bestCapacity))
             (first, theaterAvailability first.2 day)
             candidates).

(** The theater chosen by [assignOperatingTheater], if any. *)
Definition selectTheater (patient : Patient.t) (day : Z)
    (theaterStates : list OperatingTheaterState.t)
    : option (nat * OperatingTheaterState.t) :=
  match openTheaters patient day theaterStates with
  | first :: rest => Some (pickOpen patient day first (first :: rest))
  | [] =>
      match closedTheaters patient day theaterStates with
      | first :: rest => Some (pickClosed day first (first :: rest))
      | [] => None
      end
  end.

(** [bestTheater->patients_per_day[day].push_back(patient);
     bestTheater->availability_per_day[day] -= patient.surgery_duration]. *)
Definition bookTheater (patient : Patient.t) (day : Z)
    (t : OperatingTheaterState.t) : OperatingTheaterState.t :=
  OperatingTheaterState.mk (OperatingTheaterState.theater_info t)
    (<[day := theaterAvailability t day - Patient.surgery_duration patient]>
       (OperatingTheaterState.availability_per_day t))
    (map_push (OperatingTheaterState.patients_per_day t) day patient).

Definition assignOperatingTheater (patient : Patient.t) (day : Z) : M string :=
  λ s,
  let theaterStates :=
    touchTheater day <$> Solution.theaterStates (solution s) in
  match selectTheater patient day theaterStates with
  | Some (i, bestTheater) =>
      Ok (OperatingTheater.id (OperatingTheaterState.theater_info bestTheater),
          set_solution
            (Solution.set_theaterStates
               (<[i := bookTheater patient day bestTheater]> theaterStates)
               (solution s)) s)
  | None => Err CapacityFault
  end.

(** The body of the day loop of [assignRoom]. *)
Definition occupyDay (patient : Patient.t) (roomState : RoomState.t)
    (current_day : Z) : res RoomState.t :=
  match RoomState.capacity_per_day roomState !! current_day with
  | None => Err CapacityFault
  | Some c =>
      if bool_decide (c ≤ 0) then Err CapacityFault
      else Ok (RoomState.mk (RoomState.room_info roomState)
                 (<[current_day := c - 1]> (RoomState.capacity_per_day roomState))
                 (map_push (RoomState.patients_per_day roomState) current_day patient)
                 (RoomState.occupants_per_day roomState))
  end.

Definition assignRoom (patient : Patient.t) (day : Z) (room_id : string)
    : M unit := λ s,
  let roomStates := Solution.roomStates (solution s) in
  match findRoomState roomStates room_id with
  | None => Err DataFault
  | Some (i, roomState) =>
      roomState' ← res_foldl (occupyDay patient) roomState
                     (stayDays (ProblemInstance.days (problem s)) day
                               (Patient.length_of_stay patient));
      Ok (tt, set_solution
                (Solution.set_roomStates (<[i := roomState']> roomStates)
                   (solution s)) s)
  end.

(** ** Repair *)

(** The loop over [problem.rooms] for one candidate day.  The encoded entry
    [enc] is a reference parameter: the function returns its final value. *)
Fixpoint tryRooms (patient : Patient.t) (newDay : Z) (rooms : list Room.t)
    (enc : EncodedPatientSolution.t) : M (bool * EncodedPatientSolution.t) :=
  match rooms with
  | [] => mret (false, enc)
  | room :: rest =>
      if bool_decide (Room.id room ∈ Patient.incompatible_room_ids patient)
      then tryRooms patient newDay rest enc
      else
        let oldDay := EncodedPatientSolution.admission_day enc in
        let oldRoom := EncodedPatientSolution.room_id enc in
        let candidate :=
          EncodedPatientSolution.mk (EncodedPatientSolution.patient_id enc)
            newDay (Room.id room) in
        ok ← checkPlacement patient newDay (Room.id room);
        if ok : bool then mret (true, candidate)
        else tryRooms patient newDay rest
               (EncodedPatientSolution.mk
                  (EncodedPatientSolution.patient_id candidate) oldDay oldRoom)
  end.

(** The loop over the candidate days. *)
Fixpoint tryDays (patient : Patient.t) (newDays : list Z) (rooms : list Room.t)
    (enc : EncodedPatientSolution.t) : M (bool * EncodedPatientSolution.t) :=
  match newDays with
  | [] => mret (false, enc)
  | newDay :: rest =>
      r ← tryRooms patient newDay rooms enc;
      if r.1 : bool then mret r else tryDays patient rest rooms r.2
  end.

(** [for (newDay = release; newDay <= due && newDay < problem.days; ++newDay)]. *)
Definition mandatoryDays (days : Z) (patient : Patient.t) : list Z :=
  seqZ (Patient.surgery_release_day patient)
       (Z.min (Patient.surgery_due_day patient + 1) days
        - Patient.surgery_release_day patient).

(** [for (newDay = release; newDay < problem.days; ++newDay)]. *)
Definition optionalDays (days : Z) (patient : Patient.t) : list Z :=
  seqZ (Patient.surgery_release_day patient)
       (days - Patient.surgery_release_day patient).

Definition repairMandatoryPatient (patient : Patient.t)
    (enc : EncodedPatientSolution.t) : M (bool * EncodedPatientSolution.t) :=
  λ s, tryDays patient (mandatoryDays (ProblemInstance.days (problem s)) patient)
         (ProblemInstance.rooms (problem s)) enc s.

Definition MAX_ATTEMPTS : nat := 5.

(** [while (attempt < MAX_ATTEMPTS)] with [remaining] attempts left. *)
Fixpoint repairAttempts (remaining : nat) (patient : Patient.t)
    (enc : EncodedPatientSolution.t) : M (bool * EncodedPatientSolution.t) :=
  match remaining with
  | O => mret (false, enc)
  | S remaining' =>
      r ← (λ s, tryDays patient
                  (optionalDays (ProblemInstance.days (problem s)) patient)
                  (ProblemInstance.rooms (problem s)) enc s);
      if r.1 : bool then mret r else repairAttempts remaining' patient r.2
  end.

Definition repairOptionalPatient (patient : Patient.t)
    (enc : EncodedPatientSolution.t) : M (bool * EncodedPatientSolution.t) :=
  repairAttempts MAX_ATTEMPTS patient enc.

(** ** Constraint evaluator: hard violations *)

(** Number of elements of a range satisfying a test ([violations++] under an
    [if] inside a loop). *)
Definition count {A} (f : A → bool) (l : list A) : Z :=
  Z.of_nat (length (List.filter f l)).

(** [std::accumulate(v.begin(), v.end(), 0)]. *)
Definition accumulate (l : list Z) : Z := foldl Z.add 0 l.

(** The days carrying an entry in either per-day map of a room. *)
Definition occupiedDays (roomState : RoomState.t) : list Z :=
  elements (dom (RoomState.patients_per_day roomState)
            ∪ dom (RoomState.occupants_per_day roomState) : gset Z).

Definition patientsOn (roomState : RoomState.t) (day : Z) : list Patient.t :=
  default [] (RoomState.patients_per_day roomState !! day).

Definition occupantsOn (roomState : RoomState.t) (day : Z) : list Occupant.t :=
  default [] (RoomState.occupants_per_day roomState !! day).

Definition H1 (sol : Solution.t) : Z :=
  accumulate
    ((λ roomState,
        count (λ day,
                 let genders : gset string :=
                   list_to_set ((Patient.gender <$> patientsOn roomState day)
                                ++ (Occupant.gender <$> occupantsOn roomState day)) in
                 bool_decide (1 < size genders)%nat)
              (occupiedDays roomState))
     <$> Solution.roomStates sol).

Definition H2 (orig : ProblemInstance.t) (sol : Solution.t) : Z :=
  count (λ patientAssignment,
           match PatientAssignment.admission_day patientAssignment with
           | None => false
           | Some _ =>
               match findPatient (ProblemInstance.patients orig)
                                 (PatientAssignment.id patientAssignment) with
               | Some (_, patient) =>
                   bool_decide (PatientAssignment.room patientAssignment
                                ∈ Patient.incompatible_room_ids patient)
               | None => false
               end
           end)
        (Solution.patients sol).

(** The vector [surgeryTime] of one surgeon in H3. *)
Definition surgeryTimes (orig : ProblemInstance.t) (sol : Solution.t)
    (surgeon : Surgeon.t) : res (list Z) :=
  if bool_decide (ProblemInstance.days orig < 0) then Err RangeFault
  else
    res_foldl
      (λ surgeryTime patientAssignment,
         match PatientAssignment.admission_day patientAssignment with
         | None => Ok surgeryTime
         | Some admission_day =>
             match findPatient (ProblemInstance.patients orig)
                               (PatientAssignment.id patientAssignment) with
             | Some (_, patient) =>
                 if bool_decide (Patient.surgeon_id patient = Surgeon.id surgeon)
                 then
                   old ← vec_at surgeryTime admission_day;
                   vec_set surgeryTime admission_day
                           (old + Patient.surgery_duration patient)
                 else Ok surgeryTime
             | None => Ok surgeryTime
             end
         end)
      (replicate (Z.to_nat (ProblemInstance.days orig)) 0)
      (Solution.patients sol).

Definition H3 (orig : ProblemInstance.t) (sol : Solution.t) : res Z :=
  res_foldl
    (λ violations surgeon,
       surgeryTime ← surgeryTimes orig sol surgeon;
       res_foldl
         (λ violations day,
            used ← vec_at surgeryTime day;
            budget ← vec_at (Surgeon.max_surgery_time surgeon) day;
            Ok (if bool_decide (budget < used) then violations + 1 else violations))
         violations (seqZ 0 (ProblemInstance.days orig)))
    0 (ProblemInstance.surgeons orig).

Definition findTheater (theaters : list OperatingTheater.t) (theater_id : string)
    : option (nat * OperatingTheater.t) :=
  list_find (λ t, OperatingTheater.id t = theater_id) theaters.

Definition H4 (orig : ProblemInstance.t) (sol : Solution.t) : Z :=
  accumulate
    ((λ theaterState,
        count (λ entry : Z * list Patient.t,
                 let totalSurgeryTime :=
                   foldl (λ sum p, sum + Patient.surgery_duration p) 0 entry.2 in
                 match findTheater (ProblemInstance.theaters orig)
                         (OperatingTheater.id
                            (OperatingTheaterState.theater_info theaterState)) with
                 | Some (_, theater) =>
                     match vec_at (OperatingTheater.availability theater) entry.1 with
                     | Ok availability => bool_decide (availability < totalSurgeryTime)
                     | Err _ => false
                     end
                 | None => false
                 end)
              (map_to_list (OperatingTheaterState.patients_per_day theaterState)))
     <$> Solution.theaterStates sol).

Definition findAssignment (patients : list PatientAssignment.t) (patient_id : string)
    : option (nat * PatientAssignment.t) :=
  list_find (λ pa, PatientAssignment.id pa = patient_id) patients.

(** H5 dereferences the iterator returned by [find_if] without comparing it
    with [end()]. *)
Definition H5 (orig : ProblemInstance.t) (sol : Solution.t) : res Z :=
  res_foldl
    (λ violations patient,
       if Patient.mandatory patient then
         match findAssignment (Solution.patients sol) (Patient.id patient) with
         | None => Err Undefined
         | Some (_, pa) =>
             Ok (match PatientAssignment.admission_day pa with
                 | None => violations + 1
                 | Some _ => violations
                 end)
         end
       else Ok violations)
    0 (ProblemInstance.patients orig).

Definition H6 (orig : ProblemInstance.t) (sol : Solution.t) : Z :=
  count (λ patientAssignment,
           match PatientAssignment.admission_day patientAssignment with
           | None => false
           | Some admission_day =>
               match findPatient (ProblemInstance.patients orig)
                                 (PatientAssignment.id patientAssignment) with
               | Some (_, patient) =>
                   bool_decide (admission_day < Patient.surgery_release_day patient)
                   || (Patient.mandatory patient
                       && bool_decide (Patient.surgery_due_day patient < admission_day))
               | None => false
               end
           end)
        (Solution.patients sol).

Definition H7 (sol : Solution.t) : Z :=
  accumulate
    ((λ roomState,
        count (λ entry : Z * list Patient.t,
                 let totalOccupants :=
                   Z.of_nat (length entry.2)
                   + Z.of_nat (length (occupantsOn roomState entry.1)) in
                 bool_decide (Room.capacity (RoomState.room_info roomState)
                              < totalOccupants))
              (map_to_list (RoomState.patients_per_day roomState)))
     <$> Solution.roomStates sol).

(** [isOccupied] of H8: some patient or some occupant is in the room that day. *)
Definition isOccupied (roomState : RoomState.t) (day : Z) : bool :=
  match patientsOn roomState day, occupantsOn roomState day with
  | [], [] => false
  | _, _ => true
  end.

(** [nurseAssigned] of H8: some nurse has a block for ([day], [shift]) that
    lists the room. *)
Definition nurseAssigned (nurses : list NurseAssignment.t) (room_id : string)
    (day : Z) (shift : string) : bool :=
  existsb (λ nurseAssignment,
             existsb (λ shiftAssignment,
                        bool_decide (ShiftAssignment.day shiftAssignment = day)
                        && bool_decide (ShiftAssignment.shift shiftAssignment = shift)
                        && bool_decide (room_id ∈ ShiftAssignment.rooms shiftAssignment))
                     (NurseAssignment.assignments nurseAssignment))
          nurses.

(** H8, as the three nested loops of the source: rooms, days, shift types. *)
Definition H8 (orig : ProblemInstance.t) (sol : Solution.t) : Z :=
  foldl (λ violations roomState,
           foldl (λ violations day,
                    if isOccupied roomState day then
                      foldl (λ violations shift,
                               if nurseAssigned (Solution.nurses sol)
                                    (Room.id (RoomState.room_info roomState)) day shift
                               then violations else violations + 1)
                            violations (ProblemInstance.shift_types orig)
                    else violations)
                 violations (seqZ 0 (ProblemInstance.days orig)))
        0 (Solution.roomStates sol).

Definition hardViolations (orig : ProblemInstance.t) (sol : Solution.t) : res Z :=
  h3 ← H3 orig sol;
  h5 ← H5 orig sol;
  Ok (H1 sol + H2 orig sol + h3 + H4 orig sol + h5 + H6 orig sol + H7 sol
      + H8 orig sol).

Definition calculateHardConstraintViolations : M Z :=
  λ s, v ← hardViolations (originalProblem s) (solution s); Ok (v, s).

(** ** Constraint evaluator: soft penalties *)

(** [std::distance(v.begin(), std::find(v.begin(), v.end(), x))]: the position
    of the first occurrence, the size of the vector when there is none. *)
Definition indexOf (v : list string) (x : string) : Z :=
  match list_find (λ y, y = x) v with
  | Some (i, _) => Z.of_nat i
  | None => Z.of_nat (length v)
  end.

(** The indices inserted in [ageIndices]: only age groups that are declared. *)
Definition ageIndices (age_groups : list string) (groups : list string) : list Z :=
  omap (λ g, (λ r : nat * string, Z.of_nat r.1)
               <$> list_find (λ y, y = g) age_groups) groups.

Definition maxOf (l : list Z) : Z := foldl Z.max (hd 0 l) l.

Definition minOf (l : list Z) : Z := foldl Z.min (hd 0 l) l.

Definition S1 (prob : ProblemInstance.t) (sol : Solution.t) : Z :=
  accumulate
    ((λ roomState,
        accumulate
          ((λ day,
              let indices :=
                ageIndices (ProblemInstance.age_groups prob)
                  ((Patient.age_group <$> patientsOn roomState day)
                   ++ (Occupant.age_group <$> occupantsOn roomState day)) in
              if bool_decide (1 < size (list_to_set indices : gset Z))%nat
              then Weights.room_mixed_age (ProblemInstance.weights prob)
                   * (maxOf indices - minOf indices)
              else 0)
           <$> occupiedDays roomState))
     <$> Solution.roomStates sol).

(** Lookup in an [unordered_map] filled by [m[key(x)] = &x] over a vector:
    the last element with the key wins. *)
Definition lastWith {A} (P : A → Prop) `{∀ x, Decision (P x)} (l : list A)
    : option A :=
  snd <$> list_find P (reverse l).

(** The penalty of one patient or occupant under one covering nurse:
    [skillIndex < required.size() && required[skillIndex] > nurse.skill_level];
    the comparison with [size()] is unsigned, so a negative index fails it. *)
Definition skillShortfall (required : list Z) (skillIndex nurse_skill weight : Z)
    : Z :=
  match vec_at required skillIndex with
  | Ok r => if bool_decide (nurse_skill < r) then (r - nurse_skill) * weight else 0
  | Err _ => 0
  end.

Definition S2 (prob : ProblemInstance.t) (sol : Solution.t) : res Z :=
  let shifts := ProblemInstance.shift_types prob in
  let nshifts := Z.of_nat (length shifts) in
  let weight := Weights.room_nurse_skill (ProblemInstance.weights prob) in
  res_foldl
    (λ penalty nurseAssignment,
       match lastWith (λ n, Nurse.id n = NurseAssignment.id nurseAssignment)
                      (ProblemInstance.nurses prob) with
       | None => Err DataFault
       | Some nurse =>
           res_foldl
             (λ penalty shiftAssignment,
                let day := ShiftAssignment.day shiftAssignment in
                let shiftIndex := indexOf shifts (ShiftAssignment.shift shiftAssignment) in
                res_foldl
                  (λ penalty roomId,
                     match lastWith (λ rs, Room.id (RoomState.room_info rs) = roomId)
                                    (Solution.roomStates sol) with
                     | None => Err DataFault
                     | Some roomState =>
                         penalty ←
                           res_foldl
                             (λ penalty patient,
                                match lastWith
                                        (λ pa, PatientAssignment.id pa = Patient.id patient)
                                        (Solution.patients sol) with
                                | None => Err DataFault
                                | Some patientAssignment =>
                                    match PatientAssignment.admission_day patientAssignment with
                                    | None => Err DataFault
                                    | Some admission_day =>
                                        let index := day - admission_day in
                                        Ok (penalty
                                            + skillShortfall
                                                (Patient.skill_level_required patient)
                                                (index * nshifts + shiftIndex)
                                                (Nurse.skill_level nurse) weight)
                                    end
                                end)
                             penalty (patientsOn roomState day);
                         Ok (foldl
                               (λ penalty occupant,
                                  penalty
                                  + skillShortfall
                                      (Occupant.skill_level_required occupant)
                                      (day * nshifts + shiftIndex)
                                      (Nurse.skill_level nurse) weight)
                               penalty (occupantsOn roomState day))
                     end)
                  penalty (ShiftAssignment.rooms shiftAssignment))
             penalty (NurseAssignment.assignments nurseAssignment)
       end)
    0 (Solution.nurses sol).

(** The nurse has a block for ([day], [shift]) that lists the room. *)
Definition covers (nurseAssignment : NurseAssignment.t) (room_id : string)
    (day : Z) (shift : string) : bool :=
  existsb (λ assignment,
             bool_decide (ShiftAssignment.day assignment = day)
             && bool_decide (ShiftAssignment.shift assignment = shift)
             && bool_decide (room_id ∈ ShiftAssignment.rooms assignment))
          (NurseAssignment.assignments nurseAssignment).

(** [uniqueNurses.size()] for one stay: the room is looked up inside the loops
    over days and shift types, so a missing room only faults when both
    ranges are non-empty. *)
Definition uniqueNurses (sol : Solution.t) (shift_types : list string)
    (room_id : string) (stay : list Z) : res Z :=
  match stay, shift_types with
  | _ :: _, _ :: _ =>
      match findRoomState (Solution.roomStates sol) room_id with
      | None => Err DataFault
      | Some (_, roomState) =>
          let ids : gset string :=
            list_to_set
              (flat_map
                 (λ day,
                    flat_map
                      (λ shift,
                         NurseAssignment.id
                           <$> List.filter
                                 (λ na, covers na
                                          (Room.id (RoomState.room_info roomState))
                                          day shift)
                                 (Solution.nurses sol))
                      shift_types)
                 stay) in
          Ok (Z.of_nat (size ids))
      end
  | _, _ => Ok 0
  end.

Definition S3 (prob : ProblemInstance.t) (sol : Solution.t) : res Z :=
  let weight := Weights.continuity_of_care (ProblemInstance.weights prob) in
  let days := ProblemInstance.days prob in
  penalty ←
    res_foldl
      (λ penalty occupantAssignment,
         match list_find (λ o, Occupant.id o = Occupant.id occupantAssignment)
                         (ProblemInstance.occupants prob) with
         | None => Err DataFault
         | Some (_, occupant) =>
             n ← uniqueNurses sol (ProblemInstance.shift_types prob)
                   (Occupant.room_id occupantAssignment)
                   (seqZ 0 (Z.min (Occupant.length_of_stay occupant) days));
             Ok (penalty + n * weight)
         end)
      0 (ProblemInstance.occupants prob);
  res_foldl
    (λ penalty patientAssignment,
       match PatientAssignment.admission_day patientAssignment with
       | None => Ok penalty
       | Some admission_day_patient =>
           match findPatient (ProblemInstance.patients prob)
                             (PatientAssignment.id patientAssignment) with
           | None => Err DataFault
           | Some (_, patient) =>
               n ← uniqueNurses sol (ProblemInstance.shift_types prob)
                     (PatientAssignment.room patientAssignment)
                     (stayDays days admission_day_patient
                               (Patient.length_of_stay patient));
               Ok (penalty + n * weight)
           end
       end)
    penalty (Solution.patients sol).

(** [totalWorkload] contributed by one room to one nurse shift in S4. *)
Definition roomWorkload (sol : Solution.t) (day shiftIndex : Z)
    (totalWorkload : Z) (roomId : string) : res Z :=
  match findRoomState (Solution.roomStates sol) roomId with
  | None => Err DataFault
  | Some (_, roomState) =>
      totalWorkload ←
        res_foldl
          (λ totalWorkload patient,
             match findAssignment (Solution.patients sol) (Patient.id patient) with
             | None => Err DataFault
             | Some (_, patientSolution) =>
                 match PatientAssignment.admission_day patientSolution with
                 | None => Err DataFault
                 | Some admission_day =>
                     let index := (day - admission_day) * 3 + shiftIndex in
                     match vec_at (Patient.workload_produced patient) index with
                     | Ok w => Ok (totalWorkload + w)
                     | Err _ => Err RangeFault
                     end
                 end
             end)
          totalWorkload (patientsOn roomState day);
      res_foldl
        (λ totalWorkload occupant,
           w ← vec_at (Occupant.workload_produced occupant) (day * 3 + shiftIndex);
           Ok (totalWorkload + w))
        totalWorkload (occupantsOn roomState day)
  end.

Definition S4 (prob : ProblemInstance.t) (sol : Solution.t) : res Z :=
  let weight := Weights.nurse_eccessive_workload (ProblemInstance.weights prob) in
  res_foldl
    (λ penalty nurseAssignment,
       match list_find (λ n, Nurse.id n = NurseAssignment.id nurseAssignment)
                       (ProblemInstance.nurses prob) with
       | None => Err DataFault
       | Some (_, nurse) =>
           res_foldl
             (λ penalty shiftAssignment,
                let day := ShiftAssignment.day shiftAssignment in
                match list_find
                        (λ ws, WorkingShift.day ws = day
                               ∧ WorkingShift.shift ws = ShiftAssignment.shift shiftAssignment)
                        (Nurse.working_shifts nurse) with
                | None => Err DataFault
                | Some (_, workingShift) =>
                    let shiftIndex :=
                      indexOf (ProblemInstance.shift_types prob)
                              (ShiftAssignment.shift shiftAssignment) in
                    totalWorkload ←
                      res_foldl (roomWorkload sol day shiftIndex) 0
                                (ShiftAssignment.rooms shiftAssignment);
                    Ok (if bool_decide (totalWorkload = 0) then penalty
                        else if bool_decide (WorkingShift.max_load workingShift < totalWorkload)
                             then penalty
                                  + (totalWorkload - WorkingShift.max_load workingShift) * weight
                             else penalty)
                end)
             penalty (NurseAssignment.assignments nurseAssignment)
       end)
    0 (Solution.nurses sol).

Definition S5 (prob : ProblemInstance.t) (sol : Solution.t) : Z :=
  accumulate
    ((λ day, count (λ theaterState, theaterIsOpen theaterState day)
                   (Solution.theaterStates sol))
     <$> seqZ 0 (ProblemInstance.days prob))
  * Weights.open_operating_theater (ProblemInstance.weights prob).

(** The map [surgeonToTheaters] of one day in S6. *)
Definition surgeonToTheaters (sol : Solution.t) (day : Z)
    : gmap string (gset string) :=
  foldl (λ m theaterState,
           foldl (λ m patient,
                    <[Patient.surgeon_id patient :=
                        default ∅ (m !! Patient.surgeon_id patient)
                        ∪ {[OperatingTheater.id
                              (OperatingTheaterState.theater_info theaterState)]}]> m)
                 m (default [] (OperatingTheaterState.patients_per_day theaterState !! day)))
        (∅ : gmap string (gset string)) (Solution.theaterStates sol).

Definition S6 (prob : ProblemInstance.t) (sol : Solution.t) : Z :=
  accumulate
    ((λ day,
        accumulate
          ((λ entry : string * gset string,
              if bool_decide (1 < size entry.2)%nat
              then (Z.of_nat (size entry.2) - 1)
                   * Weights.surgeon_transfer (ProblemInstance.weights prob)
              else 0)
           <$> map_to_list (surgeonToTheaters sol day)))
     <$> seqZ 0 (ProblemInstance.days prob)).

Definition S7 (prob : ProblemInstance.t) (sol : Solution.t) : res Z :=
  penalty ←
    res_foldl
      (λ penalty patientAssignment,
         match PatientAssignment.admission_day patientAssignment with
         | None => Ok penalty
         | Some admission_day =>
             match findPatient (ProblemInstance.patients prob)
                               (PatientAssignment.id patientAssignment) with
             | None => Err DataFault
             | Some (_, patient) =>
                 Ok (if bool_decide (Patient.surgery_release_day patient < admission_day)
                     then penalty + (admission_day - Patient.surgery_release_day patient)
                     else penalty)
             end
         end)
      0 (Solution.patients sol);
  Ok (penalty * Weights.patient_delay (ProblemInstance.weights prob)).

Definition S8 (prob : ProblemInstance.t) (sol : Solution.t) : res Z :=
  penalty ←
    res_foldl
      (λ penalty patient,
         if Patient.mandatory patient then Ok penalty
         else
           match findAssignment (Solution.patients sol) (Patient.id patient) with
           | None => Err DataFault
           | Some (_, pa) =>
               Ok (match PatientAssignment.admission_day pa with
                   | None => penalty + 1
                   | Some _ => penalty
                   end)
           end)
      0 (ProblemInstance.patients prob);
  Ok (penalty * Weights.unscheduled_optional (ProblemInstance.weights prob)).

(** The vector [solution.soft_constraints] built by [calculateSoftConstraints]. *)
Definition softConstraints (prob : ProblemInstance.t) (sol : Solution.t)
    : res (list Z) :=
  s2 ← S2 prob sol;
  s3 ← S3 prob sol;
  s4 ← S4 prob sol;
  s7 ← S7 prob sol;
  s8 ← S8 prob sol;
  Ok [S1 prob sol; s2; s3; s4; S5 prob sol; S6 prob sol; s7; s8].

Definition calculateSoftConstraints : M Z := λ s,
  l ← softConstraints (problem s) (solution s);
  Ok (accumulate l,
      set_solution (Solution.set_soft l (accumulate l) (solution s)) s).

(** ** Nurse applier *)

(** The inner loop over [nurse.working_shifts]: block [index] of the encoding
    is read with [encoded_nurses[index++]]. *)
Fixpoint shiftAssignments (working_shifts : list WorkingShift.t)
    (encoded_nurses : list (list string)) (index : Z)
    : res (list ShiftAssignment.t * Z) :=
  match working_shifts with
  | [] => Ok ([], index)
  | ws :: rest =>
      rooms ← vec_at encoded_nurses index;
      r ← shiftAssignments rest encoded_nurses (index + 1);
      Ok (ShiftAssignment.mk (WorkingShift.day ws) (WorkingShift.shift ws) rooms
            :: r.1, r.2)
  end.

(** The outer loop over [problem.nurses]. *)
Fixpoint nurseAssignments (nurses : list Nurse.t)
    (encoded_nurses : list (list string)) (index : Z)
    : res (list NurseAssignment.t) :=
  match nurses with
  | [] => Ok []
  | nurse :: rest =>
      r ← shiftAssignments (Nurse.working_shifts nurse) encoded_nurses index;
      l ← nurseAssignments rest encoded_nurses r.2;
      Ok (NurseAssignment.mk (Nurse.id nurse) r.1 :: l)
  end.

Definition applyNurses (enc : EncodedSolution.t) : M unit := λ s,
  l ← nurseAssignments (ProblemInstance.nurses (problem s))
        (EncodedSolution.encoded_nurses enc) 0;
  Ok (tt, set_solution (Solution.set_nurses l (solution s)) s).

(** ** solve *)

(** The first loop of [solve]: the encoded entries are copied into the local
    vectors [mandatoryEnc] and [optionalEnc]. *)
Definition splitEncoded (patients : list Patient.t)
    (encoded_patients : list EncodedPatientSolution.t)
    : res (list EncodedPatientSolution.t * list EncodedPatientSolution.t) :=
  res_foldl
    (λ '(mandatoryEnc, optionalEnc) enc,
       match findPatient patients (EncodedPatientSolution.patient_id enc) with
       | None => Err DataFault
       | Some (_, patient) =>
           if Patient.mandatory patient
           then Ok (mandatoryEnc ++ [enc], optionalEnc)
           else Ok (mandatoryEnc, optionalEnc ++ [enc])
       end)
    ([], []) encoded_patients.

Definition pushPatient (pa : PatientAssignment.t) : M unit := λ s,
  Ok (tt, set_solution
            (Solution.set_patients (Solution.patients (solution s) ++ [pa])
               (solution s)) s).

(** The three commits and the record of the placement. *)
Definition commitPlacement (patient : Patient.t) (admissionDay : Z)
    (room_id : string) : M unit :=
  assignSurgeon patient admissionDay;;
  theater_id ← assignOperatingTheater patient admissionDay;
  assignRoom patient admissionDay room_id;;
  pushPatient (PatientAssignment.mk (Patient.id patient) (Some admissionDay)
                 room_id theater_id).

(** The body of the two processing loops of [solve], which differ in the
    repair routine only.  [enc] is an element of the local vector, taken by
    reference; the function returns its final value. *)
Definition placePatient
    (repair : Patient.t → EncodedPatientSolution.t
              → M (bool * EncodedPatientSolution.t))
    (enc : EncodedPatientSolution.t) : M EncodedPatientSolution.t :=
  s ← get;
  match findPatient (ProblemInstance.patients (problem s))
                    (EncodedPatientSolution.patient_id enc) with
  | None => throw DataFault
  | Some (_, patient) =>
      ok ← checkPlacement patient (EncodedPatientSolution.admission_day enc)
             (EncodedPatientSolution.room_id enc);
      if ok : bool then
        commitPlacement patient (EncodedPatientSolution.admission_day enc)
          (EncodedPatientSolution.room_id enc);;
        mret enc
      else
        r ← repair patient enc;
        if r.1 : bool then
          commitPlacement patient (EncodedPatientSolution.admission_day r.2)
            (EncodedPatientSolution.room_id r.2);;
          mret r.2
        else
          pushPatient (PatientAssignment.unplaced (Patient.id patient));;
          mret r.2
  end.

(** [solve] up to the end of the two processing loops; the result is the
    final content of the local vectors [mandatoryEnc] and [optionalEnc]. *)
Definition solvePatients (encodedSolution : EncodedSolution.t)
    : M (list EncodedPatientSolution.t * list EncodedPatientSolution.t) :=
  initializeDynamicStates;;
  s ← get;
  split ← lift (splitEncoded (ProblemInstance.patients (problem s))
                  (EncodedSolution.encoded_patients encodedSolution));
  mandatoryEnc ← forM (placePatient repairMandatoryPatient) split.1;
  optionalEnc ← forM (placePatient repairOptionalPatient) split.2;
  mret (mandatoryEnc, optionalEnc).

(** The nurse loop of [solve]: as [applyNurses], but the assignments are
    appended to [solution.nurses] (empty after initialisation). *)
Definition solveNurses (encodedSolution : EncodedSolution.t) : M unit := λ s,
  l ← nurseAssignments (ProblemInstance.nurses (problem s))
        (EncodedSolution.encoded_nurses encodedSolution) 0;
  Ok (tt, set_solution
            (Solution.set_nurses (Solution.nurses (solution s) ++ l) (solution s)) s).

(** [solve] takes the encoding by reference: the second component of the
    result is the caller's object when the call returns.  No statement of
    [solve] writes to it; repair works on the copies. *)
Definition solve (encodedSolution : EncodedSolution.t)
    : M ((Z * Z) * EncodedSolution.t) :=
  solvePatients encodedSolution;;
  solveNurses encodedSolution;;
  hardViolations ← calculateHardConstraintViolations;
  softPenalty ← calculateSoftConstraints;
  mret ((hardViolations, softPenalty), encodedSolution).

(** ** Nurse-only re-optimiser *)

Definition computeNurseOnlyCosts : M (Z * Z) := λ s,
  s2 ← S2 (problem s) (solution s);
  s3 ← S3 (problem s) (solution s);
  s4 ← S4 (problem s) (solution s);
  sc1 ← vec_set (Solution.soft_constraints (solution s)) 1 s2;
  sc2 ← vec_set sc1 2 s3;
  sc3 ← vec_set sc2 3 s4;
  let sol' := Solution.set_soft sc3 (accumulate sc3) (solution s) in
  hard ← hardViolations (originalProblem s) sol';
  Ok ((hard, accumulate sc3), set_solution sol' s).

(** The acceptance test of [localSearchNurses] (also [isBetterFitness]). *)
Definition isBetterFitness (candidate best : Z * Z) : bool :=
  bool_decide (candidate.1 < best.1)
  || (bool_decide (candidate.1 = best.1) && bool_decide (candidate.2 < best.2)).

(** [blockMeta]: one (day, shift) per block, value-initialised beyond the
    working shifts; writing past the vector is undefined. *)
Definition blockMeta (nurses : list Nurse.t) (totalBlocks : nat)
    : res (list (Z * string)) :=
  let metas :=
    flat_map (λ nurse, (λ ws, (WorkingShift.day ws, WorkingShift.shift ws))
                         <$> Nurse.working_shifts nurse) nurses in
  if bool_decide (length metas ≤ totalBlocks)%nat
  then Ok (metas ++ replicate (totalBlocks - length metas) (0, EmptyString))
  else Err Undefined.

(** The pairs [(i, j)], [i < j], visited by the two nested loops, in order,
    that pass the test on (day, shift). *)
Definition swapCandidates (meta : list (Z * string)) : list (nat * nat) :=
  flat_map
    (λ i, omap (λ j, if bool_decide (meta !! i = meta !! j) then Some (i, j) else None)
               (seq (S i) (length meta - S i)))
    (seq 0 (length meta)).

(** [std::swap(enc.encoded_nurses[i], enc.encoded_nurses[j])]. *)
Definition swapBlocks (i j : nat) (enc : EncodedSolution.t) : EncodedSolution.t :=
  let blocks := EncodedSolution.encoded_nurses enc in
  match blocks !! i, blocks !! j with
  | Some a, Some b =>
      EncodedSolution.mk (EncodedSolution.encoded_patients enc)
        (<[j := a]> (<[i := b]> blocks))
  | _, _ => enc
  end.

(** The two nested loops of [localSearchNurses] over the candidate pairs. *)
Fixpoint searchSwaps (score0 : Z * Z) (pairs : list (nat * nat))
    (enc : EncodedSolution.t) : M ((Z * Z) * EncodedSolution.t) :=
  match pairs with
  | [] => mret (score0, enc)
  | (i, j) :: rest =>
      let swapped := swapBlocks i j enc in
      applyNurses swapped;;
      scoreNew ← computeNurseOnlyCosts;
      if isBetterFitness scoreNew score0 then mret (scoreNew, swapped)
      else searchSwaps score0 rest (swapBlocks i j swapped)
  end.

Definition localSearchNurses (enc : EncodedSolution.t)
    : M ((Z * Z) * EncodedSolution.t) :=
  r ← solve enc;
  s ← get;
  meta ← lift (blockMeta (ProblemInstance.nurses (problem s))
                 (length (EncodedSolution.encoded_nurses r.2)));
  searchSwaps r.1 (swapCandidates meta) r.2.

(* ===================================================================== *)
(** * Vocabulary of the properties *)
(* ===================================================================== *)

(** The room hosts at least one patient or occupant on [day]. *)
Definition occupiedOn (roomState : RoomState.t) (day : Z) : Prop :=
  (0 < length (patientsOn roomState day) + length (occupantsOn roomState day))%nat.

(** Some nurse's assignment for ([day], [shift]) lists the room. *)
Definition coveredBy (nurses : list NurseAssignment.t) (room_id : string)
    (day : Z) (shift : string) : Prop :=
  Exists (λ na,
            Exists (λ sa, ShiftAssignment.day sa = day
                          ∧ ShiftAssignment.shift sa = shift
                          ∧ room_id ∈ ShiftAssignment.rooms sa)
                   (NurseAssignment.assignments na))
         nurses.

#[global] Instance occupiedOn_dec (roomState : RoomState.t) (day : Z) :
  Decision (occupiedOn roomState day).
Proof. unfold occupiedOn. apply _. Defined.

#[global] Instance coveredBy_dec (nurses : list NurseAssignment.t)
    (room_id : string) (day : Z) (shift : string) :
  Decision (coveredBy nurses room_id day shift).
Proof. unfold coveredBy. apply _. Defined.

(** The triples (room, day of the horizon, declared shift type) with the room
    occupied that day and not covered for that shift. *)
Definition uncoveredTriples (orig : ProblemInstance.t) (sol : Solution.t)
    : list (RoomState.t * Z * string) :=
  roomState ← Solution.roomStates sol;
  day ← seqZ 0 (ProblemInstance.days orig);
  shift ← ProblemInstance.shift_types orig;
  if decide (occupiedOn roomState day
             ∧ ¬ coveredBy (Solution.nurses sol)
                   (Room.id (RoomState.room_info roomState)) day shift)
  then [(roomState, day, shift)] else [].

(** What a member function returns, without the final state of the object. *)
Definition outcome {A} (r : res (A * Solver)) : res A :=
  match r with
  | Ok (a, _) => Ok a
  | Err e => Err e
  end.

(** Every theater state has an availability entry for every day of the
    horizon.  [initializeDynamicStates] creates the theater states with these
    entries and nothing removes one: the property holds whenever a repair
    routine runs. *)
Definition theatersReady (s : Solver) : Prop :=
  Forall (λ t, Forall (λ day, is_Some (OperatingTheaterState.availability_per_day t !! day))
                      (seqZ 0 (ProblemInstance.days (problem s))))
         (Solution.theaterStates (solution s)).

(** One pass of the double loop of [repairOptionalPatient]: every day of
    [[release_day, horizon)] crossed with every compatible room. *)
Definition exhaustivePass (patient : Patient.t) (enc : EncodedPatientSolution.t)
    : M (bool * EncodedPatientSolution.t) :=
  λ s, tryDays patient (optionalDays (ProblemInstance.days (problem s)) patient)
         (ProblemInstance.rooms (problem s)) enc s.

(** Two theater states that differ at most by availability entries of value
    0 created by a read. *)
Definition theaterEquiv (t t' : OperatingTheaterState.t) : Prop :=
  OperatingTheaterState.theater_info t = OperatingTheaterState.theater_info t'
  ∧ OperatingTheaterState.patients_per_day t = OperatingTheaterState.patients_per_day t'
  ∧ ∀ d, theaterAvailability t d = theaterAvailability t' d.

(** Two solvers that differ at most in this way. *)
Definition touchEquiv (s s' : Solver) : Prop :=
  ∃ ts', Forall2 theaterEquiv (Solution.theaterStates (solution s)) ts'
         ∧ s' = set_solution (Solution.set_theaterStates ts' (solution s)) s.

Definition resEquiv {A} (r r' : res (A * Solver)) : Prop :=
  match r, r' with
  | Ok (a, s), Ok (a', s') => a = a' ∧ touchEquiv s s'
  | Err e, Err e' => e = e'
  | _, _ => False
  end.

(** The computation [m], when it returns, leaves the view [proj] of the
    solver as it was. *)
Definition keeps {X A} (proj : Solver → X) (m : M A) : Prop :=
  ∀ s a s', m s = Ok (a, s') → proj s' = proj s.

(** The problem definition held by a solver: the pristine copy, and the
    working copy up to the surgeon budgets. *)
Definition problemDefinition (s : Solver) : ProblemInstance.t * ProblemInstance.t :=
  (originalProblem s, ProblemInstance.set_surgeons [] (problem s)).

(** The decoded patients of a solver. *)
Definition decodedPatients (s : Solver) : list PatientAssignment.t :=
  Solution.patients (solution s).

(** The decoded record [pa] is the one pushed for the local entry [enc]: it
    carries the entry's patient id and, when the patient is placed, the
    entry's admission day and room. *)
Definition recorded (enc : EncodedPatientSolution.t) (pa : PatientAssignment.t)
    : Prop :=
  PatientAssignment.id pa = EncodedPatientSolution.patient_id enc
  ∧ match PatientAssignment.admission_day pa with
    | None => True
    | Some d =>
        d = EncodedPatientSolution.admission_day enc
        ∧ PatientAssignment.room pa = EncodedPatientSolution.room_id enc
    end.

(** A repair routine, as far as the decoded patients are concerned. *)
Definition repairRoutine
    (repair : Patient.t → EncodedPatientSolution.t
              → M (bool * EncodedPatientSolution.t)) : Prop :=
  ∀ p e, keeps decodedPatients (repair p e)
         ∧ ∀ r s s', repair p e s = Ok (r, s')
                     → EncodedPatientSolution.patient_id r.2
                       = EncodedPatientSolution.patient_id e.



(** [solve] up to the point where the constraints are evaluated. *)
Definition decode (encodedSolution : EncodedSolution.t) : M unit :=
  solvePatients encodedSolution;; solveNurses encodedSolution.

(** One probe of the local search: apply the nurse blocks, re-score. *)
Definition evaluateSwap (swapped : EncodedSolution.t) : M (Z * Z) :=
  applyNurses swapped;; computeNurseOnlyCosts.

(** The score of the encoding with blocks [i] and [j] swapped, probed from
    the state [s0] that the initial [solve] left. *)
Definition swapScore (s0 : Solver) (enc : EncodedSolution.t) (i j : nat)
    : res (Z * Z) :=
  outcome (evaluateSwap (swapBlocks i j enc) s0).

(** First-improvement search over the candidate pairs: the first pair whose
    score is lexicographically better than [score0] wins; with none, the
    original score and the original encoding. *)
Fixpoint firstImprovement (s0 : Solver) (score0 : Z * Z)
    (pairs : list (nat * nat)) (enc : EncodedSolution.t)
    : res ((Z * Z) * EncodedSolution.t) :=
  match pairs with
  | [] => Ok (score0, enc)
  | (i, j) :: rest =>
      scoreNew ← swapScore s0 enc i j;
      if isBetterFitness scoreNew score0
      then Ok (scoreNew, swapBlocks i j enc)
      else firstImprovement s0 score0 rest enc
  end.







(** The part of the solver a probe depends on: everything but the nurse
    assignments, the entries S2, S3, S4 of the soft vector and its total. *)
Definition probeBase (s : Solver) : Solver :=
  set_solution
    (Solution.set_nurses []
       (Solution.set_soft
          (<[3%nat := 0]> (<[2%nat := 0]> (<[1%nat := 0]>
             (Solution.soft_constraints (solution s))))) 0
          (solution s))) s.

(** The computation [m], when it returns, maintains the invariant [I]. *)
Definition maintains (I : Solver → Prop) {A} (m : M A) : Prop :=
  ∀ s a s', I s → m s = Ok (a, s') → I s'.

(** ** A small instance

    Three days, two rooms, one theater, one surgeon without budget on day 0,
    two nurses sharing the (day 1, early) shift, one mandatory and one
    optional patient.  The mandatory patient is encoded on day 0: it can
    only be placed by repair. *)

Definition demoProblem : ProblemInstance.t :=
  ProblemInstance.mk 3 ["early"; "late"] ["adult"; "elder"]
    (Weights.mk 1 1 1 1 1 1 1 1)
    [Room.mk "r1" 1; Room.mk "r2" 2]
    [OperatingTheater.mk "t1" [100; 100; 100]]
    [Surgeon.mk "s1" [0; 60; 60]]
    [Nurse.mk "n1" 1 [WorkingShift.mk 0 "early" 10; WorkingShift.mk 1 "early" 10];
     Nurse.mk "n2" 0 [WorkingShift.mk 1 "early" 10]]
    [Patient.mk "p1" "A" "adult" true "s1" 30 0 2 1 [] [1; 1] [2; 2; 2];
     Patient.mk "p2" "B" "adult" false "s1" 30 1 2 1 [] [0; 0] [2; 2; 2]]
    [].

Definition demoMandatory : Patient.t :=
  Patient.mk "p1" "A" "adult" true "s1" 30 0 2 1 [] [1; 1] [2; 2; 2].

Definition demoEnc : EncodedSolution.t :=
  EncodedSolution.mk
    [EncodedPatientSolution.mk "p1" 0 "r2"; EncodedPatientSolution.mk "p2" 1 "r1"]
    [["r1"]; ["r2"]; ["r1"]].

Definition demoSolver : Solver := newSolver demoProblem.

(** The solver after [initializeDynamicStates]. *)
Definition demoInitial : Solver :=
  match initializeDynamicStates demoSolver with
  | Ok (_, s) => s
  | Err _ => demoSolver
  end.

(** The solver after the decoding part of [solve]. *)
Definition demoDecoded : Solver :=
  match decode demoEnc demoSolver with
  | Ok (_, s) => s
  | Err _ => demoSolver
  end.

(** The solver after [solve]. *)
Definition demoSolved : Solver :=
  match solve demoEnc demoSolver with
  | Ok (_, s) => s
  | Err _ => demoSolver
  end.

Definition demoOptional : Patient.t :=
  Patient.mk "p2" "B" "adult" false "s1" 30 1 2 1 [] [0; 0] [2; 2; 2].

(** The encoding of the small instance with its last two nurse blocks
    swapped. *)
Definition demoSwappedEnc : EncodedSolution.t :=
  EncodedSolution.mk
    [EncodedPatientSolution.mk "p1" 0 "r2"; EncodedPatientSolution.mk "p2" 1 "r1"]
    [["r1"]; ["r1"]; ["r2"]].

(** The solver after [solve] on that encoding. *)
Definition demoSwapped : Solver :=
  match solve demoSwappedEnc demoSolver with
  | Ok (_, s) => s
  | Err _ => demoSolver
  end.

(** An encoding of the small instance that omits the mandatory patient. *)
Definition demoOmittedEnc : EncodedSolution.t :=
  EncodedSolution.mk [EncodedPatientSolution.mk "p2" 1 "r1"]
    [["r1"]; ["r2"]; ["r1"]].

(** An encoding of the small instance that names an unknown patient. *)
Definition demoUnknownEnc : EncodedSolution.t :=
  EncodedSolution.mk
    [EncodedPatientSolution.mk "p1" 1 "r1"; EncodedPatientSolution.mk "p9" 1 "r2"]
    [["r1"]; ["r2"]; ["r1"]].

(** ** A ward with three nurses on one shift

    Three days, two rooms, two patients; nurse n1 works the early shifts of
    days 0 and 1, nurses n2 and n3 the early shift of day 1: blocks 1, 2
    and 3 carry the same (day, shift). *)






(** ** Vocabulary of the further properties *)

(** The occupants of [room] that are present on [day]: those declared in the
    room whose remaining stay, clipped to the horizon, covers the day. *)
Definition occupantsPresent (days : Z) (occupants : list Occupant.t)
    (room : Room.t) (day : Z) : list Occupant.t :=
  filter (λ o, Occupant.room_id o = Room.id room
               ∧ 0 ≤ day < Z.min (Occupant.length_of_stay o) days)
         occupants.

(** The room state that initialisation builds for [room]. *)
Definition seededRoom (days : Z) (occupants : list Occupant.t) (room : Room.t)
    (rs : RoomState.t) : Prop :=
  RoomState.room_info rs = room
  ∧ RoomState.patients_per_day rs = ∅
  ∧ ∀ day,
      occupantsOn rs day = occupantsPresent days occupants room day
      ∧ RoomState.capacity_per_day rs !! day
        = if decide (0 ≤ day < days)
          then Some (Room.capacity room
                     - Z.of_nat (length (occupantsPresent days occupants room day)))
          else None.

(** The theater state that initialisation builds for [theater]. *)
Definition seededTheater (days : Z) (theater : OperatingTheater.t)
    (t : OperatingTheaterState.t) : Prop :=
  OperatingTheaterState.theater_info t = theater
  ∧ OperatingTheaterState.patients_per_day t = ∅
  ∧ ∀ day,
      OperatingTheaterState.availability_per_day t !! day
      = if decide (0 ≤ day < days)
        then OperatingTheater.availability theater !! Z.to_nat day
        else None.

(** The budget that [checkSurgeonAvailability] reads for a surgeon id and a
    day: the entry of the first surgeon with that id. *)
Definition surgeonBudget (surgeons : list Surgeon.t) (surgeon_id : string)
    (day : Z) : res Z :=
  match findSurgeon surgeons surgeon_id with
  | None => Err DataFault
  | Some (_, surgeon) => vec_at (Surgeon.max_surgery_time surgeon) day
  end.

(** Every day of the stay has a strictly positive capacity entry. *)
Definition hasCapacity (days : Z) (rs : RoomState.t) (patient : Patient.t)
    (admission_day : Z) : Prop :=
  ∀ d, d ∈ stayDays days admission_day (Patient.length_of_stay patient)
       → ∃ c, RoomState.capacity_per_day rs !! d = Some c ∧ 0 < c.

(** The room state [rs'] is [rs] with the patient added on every day of the
    stay: one unit of capacity less and the patient appended on those days,
    nothing changed on the others. *)
Definition occupied (days : Z) (patient : Patient.t) (admission_day : Z)
    (rs rs' : RoomState.t) : Prop :=
  RoomState.room_info rs' = RoomState.room_info rs
  ∧ RoomState.occupants_per_day rs' = RoomState.occupants_per_day rs
  ∧ ∀ d,
      if decide (d ∈ stayDays days admission_day (Patient.length_of_stay patient))
      then RoomState.capacity_per_day rs' !! d
           = (λ c, c - 1) <$> RoomState.capacity_per_day rs !! d
           ∧ RoomState.patients_per_day rs' !! d = Some (patientsOn rs d ++ [patient])
      else RoomState.capacity_per_day rs' !! d = RoomState.capacity_per_day rs !! d
           ∧ RoomState.patients_per_day rs' !! d = RoomState.patients_per_day rs !! d.

(** The result is not the capacity fault. *)
Definition noCapacityFault {A} (r : res A) : Prop :=
  match r with Err CapacityFault => False | _ => True end.

(** The capacity entry of a day that is still positive is the room capacity
    minus the patients and occupants present that day. *)
Definition roomAccounted (rs : RoomState.t) : Prop :=
  ∀ d c, RoomState.capacity_per_day rs !! d = Some c → 0 < c
         → Z.of_nat (length (patientsOn rs d))
           + Z.of_nat (length (occupantsOn rs d)) + c
           = Room.capacity (RoomState.room_info rs).

(** On every day on which the room holds assigned patients, the patients and
    the occupants present fit in the room and all have one gender. *)
Definition roomSafe (rs : RoomState.t) : Prop :=
  ∀ d l, RoomState.patients_per_day rs !! d = Some l
         → Z.of_nat (length l) + Z.of_nat (length (occupantsOn rs d))
           ≤ Room.capacity (RoomState.room_info rs)
           ∧ ∃ g, (∀ p, p ∈ l → Patient.gender p = g)
                  ∧ (∀ o, o ∈ occupantsOn rs d → Occupant.gender o = g).

(** The (day, room) pairs a repair routine tries, in the order of its two
    nested loops: the days outermost, then the rooms of the problem that
    are not incompatible with the patient. *)
Definition repairCandidates (patient : Patient.t) (newDays : list Z)
    (rooms : list Room.t) : list (Z * string) :=
  d ← newDays;
  (λ room, (d, Room.id room))
    <$> filter (λ room, Room.id room ∉ Patient.incompatible_room_ids patient) rooms.

(** The result [r] of a repair is the first fit among [candidates], judged
    by the three checks on the state [s]: on success the entry holds the
    first candidate that passes, every earlier one being rejected; on
    failure every candidate is rejected and the entry is as it was. *)
Definition firstFit (patient : Patient.t) (s : Solver)
    (candidates : list (Z * string)) (enc : EncodedPatientSolution.t)
    (r : bool * EncodedPatientSolution.t) : Prop :=
  let rejected (c : Z * string) :=
    outcome (checkPlacement patient c.1 c.2 s) = Ok false in
  if r.1
  then ∃ before after,
         candidates
         = before ++ (EncodedPatientSolution.admission_day r.2,
                      EncodedPatientSolution.room_id r.2) :: after
         ∧ Forall rejected before
         ∧ outcome (checkPlacement patient (EncodedPatientSolution.admission_day r.2)
                      (EncodedPatientSolution.room_id r.2) s) = Ok true
         ∧ EncodedPatientSolution.patient_id r.2
           = EncodedPatientSolution.patient_id enc
  else r.2 = enc ∧ Forall rejected candidates.

(** The shift assignment built for a working shift and a block of rooms. *)
Definition shiftOf (ws : WorkingShift.t) (rooms : list string) : ShiftAssignment.t :=
  ShiftAssignment.mk (WorkingShift.day ws) (WorkingShift.shift ws) rooms.

(** The working shifts of all nurses, nurse after nurse. *)
Definition allShifts (nurses : list Nurse.t) : list WorkingShift.t :=
  concat (Nurse.working_shifts <$> nurses).

(** The surgery time that one decoded record charges to a surgeon on a day:
    the duration of the recorded patient when the patient is admitted that
    day and operated by that surgeon (the test of H3). *)
Definition surgeryCharge (patients : list Patient.t) (surgeon_id : string)
    (day : Z) (pa : PatientAssignment.t) : Z :=
  match PatientAssignment.admission_day pa with
  | None => 0
  | Some admission_day =>
      match findPatient patients (PatientAssignment.id pa) with
      | Some (_, patient) =>
          if decide (Patient.surgeon_id patient = surgeon_id ∧ admission_day = day)
          then Patient.surgery_duration patient else 0
      | None => 0
      end
  end.

(** The total surgery time the decoded records charge to a surgeon on a day. *)
Definition surgeryLoad (patients : list Patient.t)
    (records : list PatientAssignment.t) (surgeon_id : string) (day : Z) : Z :=
  foldr (λ pa acc, surgeryCharge patients surgeon_id day pa + acc) 0 records.

(** Every budget entry of a surgeon of the pristine problem is the budget
    still readable in the working problem, which is not negative, plus the
    surgery time charged so far. *)
Definition budgetsAccounted (orig : ProblemInstance.t) (s : Solver) : Prop :=
  ∀ sg0 d b0,
    sg0 ∈ ProblemInstance.surgeons orig
    → vec_at (Surgeon.max_surgery_time sg0) d = Ok b0
    → ∃ t, surgeonBudget (ProblemInstance.surgeons (problem s)) (Surgeon.id sg0) d
           = Ok t
           ∧ 0 ≤ t
           ∧ b0 = t + surgeryLoad (ProblemInstance.patients orig)
                        (Solution.patients (solution s)) (Surgeon.id sg0) d.

(** [totalSurgeryTime] of H4: the surgery time of the patients booked in a
    theater on one day. *)
Definition theaterTime (patients : list Patient.t) : Z :=
  foldl (λ sum p, sum + Patient.surgery_duration p) 0 patients.

(** The availability a theater state starts from on a day: the declared
    availability inside the horizon, the value 0 that a read creates
    outside it. *)
Definition theaterBase (days : Z) (theater : OperatingTheater.t) (day : Z) : Z :=
  default 0 (if decide (0 ≤ day < days)
             then OperatingTheater.availability theater !! Z.to_nat day
             else None).

(** The state of [theater] accounts for its bookings: on every day the
    availability left plus the surgery time booked is what the theater
    started from, and the availability left is not negative on a day with a
    booking. *)
Definition theaterBooked (days : Z) (theater : OperatingTheater.t)
    (t : OperatingTheaterState.t) : Prop :=
  OperatingTheaterState.theater_info t = theater
  ∧ ∀ d, theaterAvailability t d
         + theaterTime (default [] (OperatingTheaterState.patients_per_day t !! d))
         = theaterBase days theater d
         ∧ (is_Some (OperatingTheaterState.patients_per_day t !! d)
            → 0 ≤ theaterAvailability t d).

(** The encoded entry names a mandatory patient of [patients]. *)
Definition encodedMandatory (patients : list Patient.t)
    (e : EncodedPatientSolution.t) : bool :=
  match findPatient patients (EncodedPatientSolution.patient_id e) with
  | Some (_, patient) => Patient.mandatory patient
  | None => false
  end.

(* ===================================================================== *)
(** * Properties *)
(* ===================================================================== *)

(** ** The monads *)

Lemma res_bind_Ok {A B} (m : res A) (f : A → res B) (b : B) :
  m ≫= f = Ok b ↔ ∃ a, m = Ok a ∧ f a = Ok b.
Proof.
  destruct m as [a|e]; simpl.
  - split; [eauto | by intros (? & [= ->] & ?)].
  - split; [done | by intros (? & ? & ?)].
Qed.

Lemma M_bind_Ok {A B} (m : M A) (f : A → M B) (s s' : Solver) (b : B) :
  (m ≫= f) s = Ok (b, s') ↔ ∃ a s1, m s = Ok (a, s1) ∧ f a s1 = Ok (b, s').
Proof.
  unfold mbind, M_bind. destruct (m s) as [[a s1]|e].
  - split; [eauto | by intros (? & ? & [= -> ->] & ?)].
  - split; [done | by intros (? & ? & ? & ?)].
Qed.

Lemma M_ret_Ok {A} (a b : A) (s s' : Solver) :
  (mret a : M A) s = Ok (b, s') ↔ a = b ∧ s = s'.
Proof. unfold mret, M_ret. split; [by intros [= -> ->] | by intros [-> ->]]. Qed.

(** ** Room availability *)


Lemma forallb_elem_of {A} (f : A → bool) (l : list A) :
  forallb f l = true ↔ ∀ x, x ∈ l → f x = true.
Proof.
  rewrite forallb_forall. by setoid_rewrite list_elem_of_In.
Qed.

Lemma roomDayOk_spec (roomState : RoomState.t) (patient : Patient.t) (day : Z) :
  roomDayOk roomState patient day = true
  ↔ (∃ c, RoomState.capacity_per_day roomState !! day = Some c ∧ 0 < c)
    ∧ (∀ p, p ∈ patientsOn roomState day
            → Patient.gender p = Patient.gender patient)
    ∧ (∀ o, o ∈ occupantsOn roomState day
            → Occupant.gender o = Patient.gender patient).
Proof.
  unfold roomDayOk, patientsOn, occupantsOn.
  destruct (RoomState.capacity_per_day roomState !! day) as [c|] eqn:Hc.
  - case_bool_decide as Hle.
    + split; [done | intros ((c' & [= <-] & ?) & _); lia].
    + rewrite andb_true_iff, !forallb_elem_of.
      setoid_rewrite bool_decide_eq_true.
      split.
      * intros [Hp Ho]. split_and!; [exists c; split; [done | lia] | done | done].
      * intros (_ & Hp & Ho). done.
  - split; [done | by intros ((c' & [=] & ?) & _)].
Qed.


(** ** Theater selection *)

Lemma map_read_touch (m : gmap Z Z) (k k' : Z) :
  map_read (map_touch m k) k' = map_read m k'.
Proof.
  unfold map_read, map_touch. destruct (m !! k) eqn:Hk; [done|].
  destruct (decide (k = k')) as [->|Hne].
  - by rewrite lookup_insert_eq, Hk.
  - by rewrite lookup_insert_ne.
Qed.

Lemma map_touch_idemp (m : gmap Z Z) (k : Z) :
  map_touch (map_touch m k) k = map_touch m k.
Proof.
  unfold map_touch. destruct (m !! k) eqn:Hk.
  - by rewrite Hk.
  - by rewrite lookup_insert_eq.
Qed.

Lemma theaterAvailability_touch (t : OperatingTheaterState.t) (d d' : Z) :
  theaterAvailability (touchTheater d t) d' = theaterAvailability t d'.
Proof. apply map_read_touch. Qed.

Lemma theaterFits_touch (patient : Patient.t) (t : OperatingTheaterState.t) (d d' : Z) :
  theaterFits patient d' (touchTheater d t) = theaterFits patient d' t.
Proof. unfold theaterFits. by rewrite theaterAvailability_touch. Qed.

Lemma theaterIsOpen_spec (t : OperatingTheaterState.t) (day : Z) :
  theaterIsOpen t day = true
  ↔ ∃ p l, OperatingTheaterState.patients_per_day t !! day = Some (p :: l).
Proof.
  unfold theaterIsOpen.
  destruct (OperatingTheaterState.patients_per_day t !! day) as [[|p l]|].
  - split; [done | by intros (? & ? & [=])].
  - split; [by eauto | done].
  - split; [done | by intros (? & ? & [=])].
Qed.

Lemma elem_of_indexed_filter {A} (f : nat * A → bool) (l : list A) (i : nat) (x : A) :
  (i, x) ∈ List.filter f (imap pair l) ↔ l !! i = Some x ∧ f (i, x) = true.
Proof.
  rewrite list_elem_of_In, filter_In, <- list_elem_of_In, elem_of_lookup_imap.
  split.
  - intros [(j & y & [= -> ->] & Hl) Hf]. done.
  - intros [Hl Hf]. split; [by exists i, x | done].
Qed.

Lemma pickOpen_spec (patient : Patient.t) (day : Z)
    (first : nat * OperatingTheaterState.t)
    (candidates : list (nat * OperatingTheaterState.t)) :
  let remaining (c : nat * OperatingTheaterState.t) :=
    theaterAvailability c.2 day - Patient.surgery_duration patient in
  let best := pickOpen patient day first candidates in
  (best = first ∨ best ∈ candidates)
  ∧ remaining best ≤ remaining first
  ∧ ∀ c, c ∈ candidates → remaining best ≤ remaining c.
Proof.
  intros remaining. unfold pickOpen.
  assert (∀ cands b v, v = remaining b →
            let r := foldl (λ '(bestTheater, bestRemaining) theater,
                              if bool_decide (remaining theater < bestRemaining)
                              then (theater, remaining theater)
                              else (bestTheater, bestRemaining)) (b, v) cands in
            r.2 = remaining r.1 ∧ (r.1 = b ∨ r.1 ∈ cands)
            ∧ remaining r.1 ≤ remaining b
            ∧ ∀ c, c ∈ cands → remaining r.1 ≤ remaining c) as Hgen.
  { induction cands as [|c cands IH]; intros b v Hv; simpl.
    - split_and!; [done | by left | lia | by intros ? ?%elem_of_nil].
    - case_bool_decide as Hlt.
      + destruct (IH c (remaining c) eq_refl) as (H1 & H2 & H3 & H4).
        split_and!; [done | | lia |].
        * right. destruct H2 as [->|?]; [left | by right].
        * intros c' [->|?]%elem_of_cons; [done | by apply H4].
      + destruct (IH b v Hv) as (H1 & H2 & H3 & H4).
        split_and!; [done | | done |].
        * destruct H2 as [?|?]; [by left | right; by right].
        * intros c' [->|?]%elem_of_cons; [lia | by apply H4]. }
  destruct (Hgen candidates first _ eq_refl) as (_ & H2 & H3 & H4).
  exact (conj H2 (conj H3 H4)).
Qed.

Lemma pickClosed_spec (day : Z)
    (first : nat * OperatingTheaterState.t)
    (candidates : list (nat * OperatingTheaterState.t)) :
  let capacity (c : nat * OperatingTheaterState.t) := theaterAvailability c.2 day in
  let best := pickClosed day first candidates in
  (best = first ∨ best ∈ candidates)
  ∧ capacity first ≤ capacity best
  ∧ ∀ c, c ∈ candidates → capacity c ≤ capacity best.
Proof.
  intros capacity. unfold pickClosed.
  assert (∀ cands b v, v = capacity b →
            let r := foldl (λ '(bestTheater, bestCapacity) theater,
                              if bool_decide (bestCapacity < capacity theater)
                              then (theater, capacity theater)
                              else (bestTheater, bestCapacity)) (b, v) cands in
            r.2 = capacity r.1 ∧ (r.1 = b ∨ r.1 ∈ cands)
            ∧ capacity b ≤ capacity r.1
            ∧ ∀ c, c ∈ cands → capacity c ≤ capacity r.1) as Hgen.
  { induction cands as [|c cands IH]; intros b v Hv; simpl.
    - split_and!; [done | by left | lia | by intros ? ?%elem_of_nil].
    - case_bool_decide as Hlt.
      + destruct (IH c (capacity c) eq_refl) as (H1 & H2 & H3 & H4).
        split_and!; [done | | lia |].
        * right. destruct H2 as [->|?]; [left | by right].
        * intros c' [->|?]%elem_of_cons; [done | by apply H4].
      + destruct (IH b v Hv) as (H1 & H2 & H3 & H4).
        split_and!; [done | | done |].
        * destruct H2 as [?|?]; [by left | right; by right].
        * intros c' [->|?]%elem_of_cons; [lia | by apply H4]. }
  destruct (Hgen candidates first _ eq_refl) as (_ & H2 & H3 & H4).
  exact (conj H2 (conj H3 H4)).
Qed.

Lemma elem_of_openTheaters (patient : Patient.t) (day : Z)
    (theaters : list OperatingTheaterState.t) (i : nat)
    (t' : OperatingTheaterState.t) :
  (i, t') ∈ openTheaters patient day (touchTheater day <$> theaters)
  ↔ ∃ t, theaters !! i = Some t ∧ t' = touchTheater day t
         ∧ theaterFits patient day t = true ∧ theaterIsOpen t day = true.
Proof.
  unfold openTheaters. rewrite elem_of_indexed_filter, list_lookup_fmap.
  simpl. rewrite andb_true_iff. split.
  - intros [Hl [Hf Ho]]. destruct (theaters !! i) as [t|]; [|done].
    injection Hl as <-. rewrite theaterFits_touch in Hf. by exists t.
  - intros (t & -> & -> & Hf & Ho). by rewrite theaterFits_touch.
Qed.

Lemma elem_of_closedTheaters (patient : Patient.t) (day : Z)
    (theaters : list OperatingTheaterState.t) (i : nat)
    (t' : OperatingTheaterState.t) :
  (i, t') ∈ closedTheaters patient day (touchTheater day <$> theaters)
  ↔ ∃ t, theaters !! i = Some t ∧ t' = touchTheater day t
         ∧ theaterFits patient day t = true ∧ theaterIsOpen t day = false.
Proof.
  unfold closedTheaters. rewrite elem_of_indexed_filter, list_lookup_fmap.
  simpl. rewrite andb_true_iff, negb_true_iff. split.
  - intros [Hl [Hf Ho]]. destruct (theaters !! i) as [t|]; [|done].
    injection Hl as <-. rewrite theaterFits_touch in Hf. by exists t.
  - intros (t & -> & -> & Hf & Ho). by rewrite theaterFits_touch.
Qed.

(** C3.  [assignOperatingTheater] books, among the theaters whose
    availability on [day] covers the surgery and that already host a patient
    that day, one that leaves the least availability after the surgery; when
    there is none, among the theaters that cover the surgery (all unused that
    day) one with the largest availability; when no theater covers the
    surgery it raises the capacity fault. *)
Theorem assignOperatingTheater_policy (s : Solver) (patient : Patient.t) (day : Z) :
  let theaters := Solution.theaterStates (solution s) in
  let feasible (t : OperatingTheaterState.t) :=
    Patient.surgery_duration patient ≤ theaterAvailability t day in
  let hosting (t : OperatingTheaterState.t) :=
    ∃ p l, OperatingTheaterState.patients_per_day t !! day = Some (p :: l) in
  let remaining (t : OperatingTheaterState.t) :=
    theaterAvailability t day - Patient.surgery_duration patient in
  let books (i : nat) (t : OperatingTheaterState.t) :=
    theaters !! i = Some t
    ∧ assignOperatingTheater patient day s
      = Ok (OperatingTheater.id (OperatingTheaterState.theater_info t),
            set_solution
              (Solution.set_theaterStates
                 (<[i := bookTheater patient day (touchTheater day t)]>
                    (touchTheater day <$> theaters))
                 (solution s)) s) in
  ((∃ t, t ∈ theaters ∧ feasible t ∧ hosting t)
   → ∃ i t, books i t ∧ feasible t ∧ hosting t
            ∧ ∀ t', t' ∈ theaters → feasible t' → hosting t'
                    → remaining t ≤ remaining t')
  ∧ ((¬ ∃ t, t ∈ theaters ∧ feasible t ∧ hosting t)
     → (∃ t, t ∈ theaters ∧ feasible t)
     → ∃ i t, books i t ∧ feasible t ∧ ¬ hosting t
              ∧ ∀ t', t' ∈ theaters → feasible t'
                      → theaterAvailability t' day ≤ theaterAvailability t day)
  ∧ ((¬ ∃ t, t ∈ theaters ∧ feasible t)
     → assignOperatingTheater patient day s = Err CapacityFault).
Proof.
  intros theaters feasible hosting remaining books.
  assert (Hfeas : ∀ t, theaterFits patient day t = true ↔ feasible t).
  { intros t. unfold theaterFits. apply bool_decide_eq_true. }
  assert (Hhost : ∀ t, theaterIsOpen t day = true ↔ hosting t).
  { intros t. apply theaterIsOpen_spec. }
  assert (Hnhost : ∀ t, theaterIsOpen t day = false ↔ ¬ hosting t).
  { intros t. rewrite <- Hhost. by destruct (theaterIsOpen t day). }
  unfold books, assignOperatingTheater, selectTheater. fold theaters.
  destruct (openTheaters patient day (touchTheater day <$> theaters))
    as [|first rest] eqn:Hopen.
  - (* no open theater fits *)
    assert (Hno : ¬ ∃ t, t ∈ theaters ∧ feasible t ∧ hosting t).
    { intros (t & [i Hi]%list_elem_of_lookup & Hf & Hh).
      assert ((i, touchTheater day t)
              ∈ openTheaters patient day (touchTheater day <$> theaters)) as Hin.
      { apply elem_of_openTheaters. exists t. by rewrite Hfeas, Hhost. }
      rewrite Hopen in Hin. by apply elem_of_nil in Hin. }
    destruct (closedTheaters patient day (touchTheater day <$> theaters))
      as [|firstc restc] eqn:Hclosed.
    + assert (Hnone : ¬ ∃ t, t ∈ theaters ∧ feasible t).
      { intros (t & Ht & Hf).
        destruct (theaterIsOpen t day) eqn:Ho.
        - apply Hno. exists t. by rewrite <- Hhost.
        - apply list_elem_of_lookup in Ht as [i Hi].
          assert ((i, touchTheater day t)
                  ∈ closedTheaters patient day (touchTheater day <$> theaters)) as Hin.
          { apply elem_of_closedTheaters. exists t. by rewrite Hfeas. }
          rewrite Hclosed in Hin. by apply elem_of_nil in Hin. }
      split_and!;
        [ intros Hex; by destruct (Hno Hex)
        | intros _ Hex; by destruct (Hnone Hex)
        | done ].
    + pose proof (pickClosed_spec day firstc (firstc :: restc)) as (Hin & _ & Hmax).
      simpl in Hin, Hmax.
      assert (Hin' : pickClosed day firstc (firstc :: restc)
                     ∈ closedTheaters patient day (touchTheater day <$> theaters)).
      { rewrite Hclosed. destruct Hin as [->|?]; [by left | done]. }
      destruct (pickClosed day firstc (firstc :: restc)) as [i t'] eqn:Hbest.
      apply elem_of_closedTheaters in Hin' as (t & Hi & -> & Hf & Hc).
      split_and!;
        [ intros Hex; by destruct (Hno Hex)
        |
        | intros Hn; exfalso; apply Hn; exists t;
          split; [by eapply list_elem_of_lookup_2 | by apply Hfeas] ].
      intros _ _. exists i, t. split_and!; [done | done | by apply Hfeas | by apply Hnhost |].
      intros t2 [j Hj]%list_elem_of_lookup Hf2.
      destruct (theaterIsOpen t2 day) eqn:Ho2.
      { exfalso. apply Hno. exists t2. rewrite <- Hhost.
        eauto using list_elem_of_lookup_2. }
      assert ((j, touchTheater day t2)
              ∈ closedTheaters patient day (touchTheater day <$> theaters)) as Hin2.
      { apply elem_of_closedTheaters. exists t2. by rewrite Hfeas. }
      rewrite Hclosed in Hin2. apply Hmax in Hin2. simpl in Hin2.
      by rewrite !theaterAvailability_touch in Hin2.
  - pose proof (pickOpen_spec patient day first (first :: rest)) as (Hin & _ & Hmin).
    simpl in Hin, Hmin.
    assert (Hin' : pickOpen patient day first (first :: rest)
                   ∈ openTheaters patient day (touchTheater day <$> theaters)).
    { rewrite Hopen. destruct Hin as [->|?]; [by left | done]. }
    destruct (pickOpen patient day first (first :: rest)) as [i t'] eqn:Hbest.
    apply elem_of_openTheaters in Hin' as (t & Hi & -> & Hf & Ho).
    assert (Hex : ∃ t, t ∈ theaters ∧ feasible t ∧ hosting t).
    { exists t. rewrite <- Hfeas, <- Hhost. eauto using list_elem_of_lookup_2. }
    split_and!.
    + intros _. exists i, t. split_and!; [done | done | by apply Hfeas | by apply Hhost |].
      intros t2 [j Hj]%list_elem_of_lookup Hf2 Hh2.
      assert ((j, touchTheater day t2)
              ∈ openTheaters patient day (touchTheater day <$> theaters)) as Hin2.
      { apply elem_of_openTheaters. exists t2. by rewrite Hfeas, Hhost. }
      rewrite Hopen in Hin2. apply Hmin in Hin2. simpl in Hin2.
      unfold remaining. by rewrite !theaterAvailability_touch in Hin2.
    + intros Hn. by destruct (Hn Hex).
    + intros Hn. exfalso. apply Hn. destruct Hex as (t0 & ? & ? & ?). by exists t0.
Qed.

(** ** H8: nurse coverage *)

Lemma foldl_count_bind {A B} (f : Z → A → Z) (k : A → list B) :
  (∀ v x, f v x = v + Z.of_nat (length (k x)))
  → ∀ l v, foldl f v l = v + Z.of_nat (length (l ≫= k)).
Proof.
  intros Hf. induction l as [|x l IH]; intros v.
  - simpl. lia.
  - rewrite bind_cons, length_app. simpl. rewrite IH, Hf. lia.
Qed.

Lemma isOccupied_spec (roomState : RoomState.t) (day : Z) :
  isOccupied roomState day = true ↔ occupiedOn roomState day.
Proof.
  unfold isOccupied, occupiedOn.
  destruct (patientsOn roomState day), (occupantsOn roomState day); simpl;
    split; (done || lia).
Qed.

Lemma existsb_Exists {A} (f : A → bool) (P : A → Prop) (l : list A) :
  (∀ x, f x = true ↔ P x) → existsb f l = true ↔ Exists P l.
Proof.
  intros Hf. induction l as [|x l IH]; simpl.
  - split; [done | by intros ?%Exists_nil].
  - rewrite orb_true_iff, Exists_cons, IH, Hf. done.
Qed.

Lemma nurseAssigned_spec (nurses : list NurseAssignment.t) (room_id : string)
    (day : Z) (shift : string) :
  nurseAssigned nurses room_id day shift = true
  ↔ coveredBy nurses room_id day shift.
Proof.
  unfold nurseAssigned, coveredBy.
  apply existsb_Exists. intros na. apply existsb_Exists. intros sa.
  rewrite !andb_true_iff, !bool_decide_eq_true. tauto.
Qed.

(** C6.  The H8 count is the number of triples (room, day, declared shift
    type) such that the room hosts a patient or an occupant that day and no
    nurse's assignment for that day and shift lists the room.  A shift type
    that no nurse works at all is never covered, so every occupied room-day
    counts once for each declared occurrence of it. *)
Theorem H8_counts_uncovered (orig : ProblemInstance.t) (sol : Solution.t) :
  H8 orig sol = Z.of_nat (length (uncoveredTriples orig sol))
  ∧ (∀ roomState day shift,
       (roomState, day, shift) ∈ uncoveredTriples orig sol
       ↔ roomState ∈ Solution.roomStates sol
         ∧ 0 ≤ day < ProblemInstance.days orig
         ∧ shift ∈ ProblemInstance.shift_types orig
         ∧ occupiedOn roomState day
         ∧ ¬ coveredBy (Solution.nurses sol)
               (Room.id (RoomState.room_info roomState)) day shift)
  ∧ (∀ shift,
       (∀ na sa, na ∈ Solution.nurses sol
                 → sa ∈ NurseAssignment.assignments na
                 → ShiftAssignment.shift sa ≠ shift)
       → ∀ room_id day, ¬ coveredBy (Solution.nurses sol) room_id day shift).
Proof.
  split_and!.
  - unfold H8, uncoveredTriples.
    rewrite (foldl_count_bind _
               (λ roomState,
                  day ← seqZ 0 (ProblemInstance.days orig);
                  shift ← ProblemInstance.shift_types orig;
                  if decide (occupiedOn roomState day
                             ∧ ¬ coveredBy (Solution.nurses sol)
                                   (Room.id (RoomState.room_info roomState)) day shift)
                  then [(roomState, day, shift)] else [])); [lia|].
    intros v roomState.
    apply (foldl_count_bind _
             (λ day,
                shift ← ProblemInstance.shift_types orig;
                if decide (occupiedOn roomState day
                           ∧ ¬ coveredBy (Solution.nurses sol)
                                 (Room.id (RoomState.room_info roomState)) day shift)
                then [(roomState, day, shift)] else [])).
    clear v. intros v day.
    destruct (isOccupied roomState day) eqn:Hocc.
    + apply isOccupied_spec in Hocc.
      apply (foldl_count_bind _
               (λ shift,
                  if decide (occupiedOn roomState day
                             ∧ ¬ coveredBy (Solution.nurses sol)
                                   (Room.id (RoomState.room_info roomState)) day shift)
                  then [(roomState, day, shift)] else [])).
      clear v. intros v shift.
      destruct (nurseAssigned _ _ day shift) eqn:Hcov.
      * apply nurseAssigned_spec in Hcov.
        rewrite decide_False by tauto. simpl. lia.
      * rewrite decide_True; [simpl; lia|].
        split; [done|]. rewrite <- nurseAssigned_spec. by rewrite Hcov.
    + assert (¬ occupiedOn roomState day) as Hn.
      { rewrite <- isOccupied_spec. by rewrite Hocc. }
      assert ((ProblemInstance.shift_types orig ≫= λ shift,
                 if decide (occupiedOn roomState day
                            ∧ ¬ coveredBy (Solution.nurses sol)
                                  (Room.id (RoomState.room_info roomState)) day shift)
                 then [(roomState, day, shift)] else []) = []) as ->; [|simpl; lia].
      induction (ProblemInstance.shift_types orig) as [|x l IH]; [done|].
      rewrite bind_cons, IH. by rewrite decide_False by tauto.
  - intros roomState day shift. unfold uncoveredTriples.
    rewrite list_elem_of_bind. split.
    + intros (rs & (d & (sh & Hin & Hsh)%list_elem_of_bind & Hd%elem_of_seqZ)%list_elem_of_bind & Hrs).
      case_decide as Hdec; [|by apply elem_of_nil in Hin].
      apply list_elem_of_singleton in Hin. injection Hin as -> -> ->.
      split_and!; [done | lia | lia | done | tauto | tauto].
    + intros (Hrs & Hd & Hsh & Hocc & Hcov).
      exists roomState. split; [|done].
      apply list_elem_of_bind. exists day. split; [|apply elem_of_seqZ; lia].
      apply list_elem_of_bind. exists shift. split; [|done].
      rewrite decide_True by done. by apply list_elem_of_singleton.
  - intros shift Hnone room_id day Hcov.
    unfold coveredBy in Hcov.
    apply Exists_exists in Hcov as (na & Hna & Hsa).
    apply Exists_exists in Hsa as (sa & Hsa & _ & Hshift & _).
    by eapply Hnone.
Qed.

(** ** Repair: the checks *)

Lemma touchTheater_idemp (day : Z) (t : OperatingTheaterState.t) :
  touchTheater day (touchTheater day t) = touchTheater day t.
Proof. unfold touchTheater. simpl. by rewrite map_touch_idemp. Qed.

Lemma theaterAvailable_idemp (ts : list OperatingTheaterState.t)
    (patient : Patient.t) (day : Z) :
  theaterAvailable (theaterAvailable ts patient day).2 patient day
  = theaterAvailable ts patient day.
Proof.
  induction ts as [|t ts IH]; simpl; [done|].
  case_bool_decide as Hfit.
  - simpl. rewrite theaterAvailability_touch.
    rewrite bool_decide_true by done. by rewrite touchTheater_idemp.
  - destruct (theaterAvailable ts patient day) as [b ts'] eqn:Hrest. simpl in *.
    rewrite theaterAvailability_touch.
    rewrite bool_decide_false by done. by rewrite IH, touchTheater_idemp.
Qed.

(** [checkPlacement] never touches anything but the theater states, and it
    evaluates the three checks in order. *)
Lemma checkPlacement_unfold (patient : Patient.t) (day : Z) (room_id : string)
    (s : Solver) :
  checkPlacement patient day room_id s
  = match surgeonAvailable (ProblemInstance.surgeons (problem s)) patient day with
    | Err e => Err e
    | Ok false => Ok (false, s)
    | Ok true =>
        let r := theaterAvailable (Solution.theaterStates (solution s)) patient day in
        let s1 := set_solution (Solution.set_theaterStates r.2 (solution s)) s in
        if r.1 then
          match roomAvailable (ProblemInstance.days (problem s))
                  (Solution.roomStates (solution s)) patient day room_id with
          | Ok b => Ok (b, s1)
          | Err e => Err e
          end
        else Ok (false, s1)
    end.
Proof.
  unfold checkPlacement, checkSurgeonAvailability,
    checkOperatingTheaterAvailability, checkRoomAvailability.
  unfold mbind at 1, M_bind.
  destruct (surgeonAvailable _ patient day) as [[|]|e]; simpl; [|done|done].
  unfold mbind, M_bind.
  destruct (theaterAvailable _ patient day) as [[|] ts']; simpl; [|done].
  by destruct (roomAvailable _ _ patient day room_id).
Qed.

Lemma checkPlacement_true (patient : Patient.t) (day : Z) (room_id : string)
    (s s' : Solver) :
  checkPlacement patient day room_id s = Ok (true, s')
  → checkSurgeonAvailability patient day s' = Ok (true, s')
    ∧ checkOperatingTheaterAvailability patient day s' = Ok (true, s')
    ∧ checkRoomAvailability patient day room_id s' = Ok (true, s').
Proof.
  rewrite checkPlacement_unfold.
  destruct (surgeonAvailable _ patient day) as [[|]|e] eqn:Hs; [|done|done].
  simpl.
  destruct (theaterAvailable _ patient day) as [bt ts'] eqn:Ht. simpl.
  destruct bt; [|done].
  destruct (roomAvailable _ _ patient day room_id) as [br|e] eqn:Hr; [|done].
  intros [= -> <-].
  unfold checkSurgeonAvailability, checkOperatingTheaterAvailability,
    checkRoomAvailability. simpl.
  rewrite Hs, Hr. simpl.
  pose proof (theaterAvailable_idemp
                (Solution.theaterStates (solution s)) patient day) as Hid.
  rewrite Ht in Hid. simpl in Hid. rewrite Hid.
  split_and!; [done | | done].
  by destruct s as [? ? []].
Qed.

Lemma tryRooms_true (patient : Patient.t) (newDay : Z) (rooms : list Room.t)
    (enc enc' : EncodedPatientSolution.t) (s s' : Solver) :
  tryRooms patient newDay rooms enc s = Ok ((true, enc'), s')
  → ∃ s0, checkPlacement patient (EncodedPatientSolution.admission_day enc')
            (EncodedPatientSolution.room_id enc') s0 = Ok (true, s').
Proof.
  revert enc s. induction rooms as [|room rooms IH]; intros enc s; simpl.
  - by intros [[=] _]%M_ret_Ok.
  - case_bool_decide; [by apply IH|].
    intros ([|] & s1 & Hc & Hk)%M_bind_Ok.
    + apply M_ret_Ok in Hk as [[= <-] <-]. by exists s.
    + by eapply IH.
Qed.

Lemma tryDays_true (patient : Patient.t) (newDays : list Z) (rooms : list Room.t)
    (enc enc' : EncodedPatientSolution.t) (s s' : Solver) :
  tryDays patient newDays rooms enc s = Ok ((true, enc'), s')
  → ∃ s0, checkPlacement patient (EncodedPatientSolution.admission_day enc')
            (EncodedPatientSolution.room_id enc') s0 = Ok (true, s').
Proof.
  revert enc s. induction newDays as [|d newDays IH]; intros enc s; simpl.
  - by intros [[=] _]%M_ret_Ok.
  - intros ([[|] enc1] & s1 & Hr & Hk)%M_bind_Ok; simpl in Hk.
    + apply M_ret_Ok in Hk as [[= <-] <-]. by eapply tryRooms_true.
    + by eapply IH.
Qed.

(** C2.  When [repairMandatoryPatient] reports success, the three
    feasibility checks, run again on the admission day and room now stored in
    the encoded entry, all return true (and change nothing). *)
Theorem repairMandatoryPatient_sound (patient : Patient.t)
    (enc enc' : EncodedPatientSolution.t) (s s' : Solver) :
  repairMandatoryPatient patient enc s = Ok ((true, enc'), s')
  → checkSurgeonAvailability patient
      (EncodedPatientSolution.admission_day enc') s' = Ok (true, s')
    ∧ checkOperatingTheaterAvailability patient
        (EncodedPatientSolution.admission_day enc') s' = Ok (true, s')
    ∧ checkRoomAvailability patient
        (EncodedPatientSolution.admission_day enc')
        (EncodedPatientSolution.room_id enc') s' = Ok (true, s').
Proof.
  unfold repairMandatoryPatient.
  intros [s0 Hc]%tryDays_true. by eapply checkPlacement_true.
Qed.

(** ** Repair: the committed pools *)

Lemma theatersReady_lookup (s : Solver) (t : OperatingTheaterState.t) (day : Z) :
  theatersReady s → t ∈ Solution.theaterStates (solution s)
  → 0 ≤ day < ProblemInstance.days (problem s)
  → is_Some (OperatingTheaterState.availability_per_day t !! day).
Proof.
  intros Hr Ht Hd. unfold theatersReady in Hr.
  rewrite Forall_forall in Hr. specialize (Hr t Ht).
  rewrite Forall_forall in Hr. apply Hr, elem_of_seqZ. lia.
Qed.

Lemma map_touch_present (m : gmap Z Z) (k : Z) :
  is_Some (m !! k) → map_touch m k = m.
Proof. intros [v Hv]. unfold map_touch. by rewrite Hv. Qed.

Lemma theaterAvailable_present (ts : list OperatingTheaterState.t)
    (patient : Patient.t) (day : Z) :
  (∀ t, t ∈ ts → is_Some (OperatingTheaterState.availability_per_day t !! day))
  → (theaterAvailable ts patient day).2 = ts.
Proof.
  induction ts as [|t ts IH]; intros Hts; simpl; [done|].
  assert (touchTheater day t = t) as Htouch.
  { unfold touchTheater. rewrite map_touch_present by (apply Hts; by left).
    by destruct t. }
  case_bool_decide; simpl; [by rewrite Htouch|].
  destruct (theaterAvailable ts patient day) as [b ts'] eqn:Hrest. simpl in *.
  rewrite Htouch, IH; [done|]. intros t' Ht'. apply Hts. by right.
Qed.

Lemma vec_at_Ok {A} (v : list A) (i : Z) (x : A) :
  vec_at v i = Ok x ↔ 0 ≤ i ∧ v !! Z.to_nat i = Some x.
Proof.
  unfold vec_at. case_bool_decide.
  - destruct (v !! Z.to_nat i); split; try done.
    + by intros [= ->].
    + by intros [_ [= ->]].
    + by intros [_ [=]].
  - split; [done | intros [? _]; lia].
Qed.

Lemma surgeonAvailable_Ok (surgeons : list Surgeon.t) (patient : Patient.t)
    (day : Z) (b : bool) :
  surgeonAvailable surgeons patient day = Ok b → 0 ≤ day.
Proof.
  unfold surgeonAvailable.
  destruct (findSurgeon _ _) as [[i sg]|]; [|done].
  destruct (vec_at _ day) as [x|] eqn:Hx; [|done].
  apply vec_at_Ok in Hx. lia.
Qed.

Lemma set_theaterStates_same (s : Solver) :
  set_solution
    (Solution.set_theaterStates (Solution.theaterStates (solution s)) (solution s)) s
  = s.
Proof. by destruct s as [? ? []]. Qed.

Lemma checkPlacement_ready (patient : Patient.t) (day : Z) (room_id : string)
    (b : bool) (s s' : Solver) :
  theatersReady s → day < ProblemInstance.days (problem s)
  → checkPlacement patient day room_id s = Ok (b, s') → s' = s.
Proof.
  intros Hready Hday. rewrite checkPlacement_unfold.
  destruct (surgeonAvailable _ patient day) as [[|]|e] eqn:Hs; [|by intros [= _ <-]|done].
  apply surgeonAvailable_Ok in Hs. simpl.
  rewrite theaterAvailable_present, set_theaterStates_same.
  - destruct (theaterAvailable _ patient day).1; [|by intros [= _ <-]].
    destruct (roomAvailable _ _ patient day room_id); [by intros [= _ <-] | done].
  - intros t Ht. by eapply theatersReady_lookup.
Qed.

Lemma tryRooms_ready (patient : Patient.t) (newDay : Z) (rooms : list Room.t)
    (enc enc' : EncodedPatientSolution.t) (b : bool) (s s' : Solver) :
  theatersReady s → newDay < ProblemInstance.days (problem s)
  → tryRooms patient newDay rooms enc s = Ok ((b, enc'), s')
  → s' = s
    ∧ EncodedPatientSolution.patient_id enc' = EncodedPatientSolution.patient_id enc
    ∧ (b = false → enc' = enc).
Proof.
  intros Hready Hday. revert enc.
  induction rooms as [|room rooms IH]; intros enc; simpl.
  - by intros [[= <- <-] <-]%M_ret_Ok.
  - case_bool_decide; [by apply IH|].
    intros (ok & s1 & Hc & Hk)%M_bind_Ok.
    apply checkPlacement_ready in Hc as ->; [|done|done].
    destruct ok.
    + by apply M_ret_Ok in Hk as [[= <- <-] <-].
    + apply IH in Hk. simpl in Hk. by destruct enc.
Qed.

Lemma tryDays_ready (patient : Patient.t) (newDays : list Z) (rooms : list Room.t)
    (enc enc' : EncodedPatientSolution.t) (b : bool) (s s' : Solver) :
  theatersReady s
  → (∀ d, d ∈ newDays → d < ProblemInstance.days (problem s))
  → tryDays patient newDays rooms enc s = Ok ((b, enc'), s')
  → s' = s
    ∧ EncodedPatientSolution.patient_id enc' = EncodedPatientSolution.patient_id enc
    ∧ (b = false → enc' = enc).
Proof.
  intros Hready. revert enc.
  induction newDays as [|d newDays IH]; intros enc Hdays; simpl.
  - by intros [[= <- <-] <-]%M_ret_Ok.
  - intros ([b1 enc1] & s1 & Hr & Hk)%M_bind_Ok.
    apply tryRooms_ready in Hr as (-> & Hid & Hrev);
      [|done|apply Hdays; by left].
    simpl in Hk. destruct b1.
    + by apply M_ret_Ok in Hk as [[= <- <-] <-].
    + rewrite Hrev in Hk by done.
      apply IH in Hk; [done|]. intros d' Hd'. apply Hdays. by right.
Qed.

Lemma elem_of_mandatoryDays (days : Z) (patient : Patient.t) (d : Z) :
  d ∈ mandatoryDays days patient
  ↔ Patient.surgery_release_day patient ≤ d ≤ Patient.surgery_due_day patient
    ∧ d < days.
Proof. unfold mandatoryDays. rewrite elem_of_seqZ. lia. Qed.

Lemma elem_of_optionalDays (days : Z) (patient : Patient.t) (d : Z) :
  d ∈ optionalDays days patient
  ↔ Patient.surgery_release_day patient ≤ d < days.
Proof. unfold optionalDays. rewrite elem_of_seqZ. lia. Qed.

Lemma repairAttempts_ready (n : nat) (patient : Patient.t)
    (enc enc' : EncodedPatientSolution.t) (b : bool) (s s' : Solver) :
  theatersReady s
  → repairAttempts n patient enc s = Ok ((b, enc'), s')
  → s' = s
    ∧ EncodedPatientSolution.patient_id enc' = EncodedPatientSolution.patient_id enc
    ∧ (b = false → enc' = enc).
Proof.
  intros Hready. revert enc.
  induction n as [|n IH]; intros enc; simpl.
  - by intros [[= <- <-] <-]%M_ret_Ok.
  - intros ([b1 enc1] & s1 & Hr & Hk)%M_bind_Ok.
    apply tryDays_ready in Hr as (-> & Hid & Hrev);
      [|done|by intros d [_ ?]%elem_of_optionalDays].
    simpl in Hk. destruct b1.
    + by apply M_ret_Ok in Hk as [[= <- <-] <-].
    + rewrite Hrev in Hk by done. by apply IH in Hk.
Qed.

(** C8.  Either repair routine, when it returns, leaves the solver exactly as
    it found it: surgeon budgets, theater availabilities and patient lists,
    room capacities, patient lists and occupant lists.  The encoded entry
    keeps its patient id, and is unchanged altogether on failure. *)
Theorem repair_leaves_pools (patient : Patient.t)
    (enc enc' : EncodedPatientSolution.t) (b : bool) (s s' : Solver) :
  theatersReady s
  → repairMandatoryPatient patient enc s = Ok ((b, enc'), s')
    ∨ repairOptionalPatient patient enc s = Ok ((b, enc'), s')
  → s' = s
    ∧ EncodedPatientSolution.patient_id enc' = EncodedPatientSolution.patient_id enc
    ∧ (b = false → enc' = enc).
Proof.
  intros Hready [Hm|Ho].
  - unfold repairMandatoryPatient in Hm.
    eapply tryDays_ready; [done| |done].
    by intros d [_ ?]%elem_of_mandatoryDays.
  - by eapply repairAttempts_ready.
Qed.

(** ** Repair: the bounded retry *)

Lemma resEquiv_outcome {A} (r r' : res (A * Solver)) :
  resEquiv r r' → outcome r = outcome r'.
Proof.
  destruct r as [[a s]|e], r' as [[a' s']|e']; simpl; try done.
  - by intros [-> _].
  - by intros ->.
Qed.

Lemma theaterEquiv_refl (t : OperatingTheaterState.t) : theaterEquiv t t.
Proof. by repeat split. Qed.

Lemma theaterEquiv_trans (t1 t2 t3 : OperatingTheaterState.t) :
  theaterEquiv t1 t2 → theaterEquiv t2 t3 → theaterEquiv t1 t3.
Proof.
  intros (H1 & H2 & H3) (H1' & H2' & H3').
  split_and!; [congruence | congruence | intros d; by rewrite H3, H3'].
Qed.

Lemma theaterEquiv_touch (day : Z) (t t' : OperatingTheaterState.t) :
  theaterEquiv t t' → theaterEquiv (touchTheater day t) (touchTheater day t').
Proof.
  intros (H1 & H2 & H3).
  split_and!; [done | done | intros d; by rewrite !theaterAvailability_touch].
Qed.

Lemma theaterEquiv_touch_r (day : Z) (t : OperatingTheaterState.t) :
  theaterEquiv t (touchTheater day t).
Proof.
  split_and!; [done | done | intros d; by rewrite theaterAvailability_touch].
Qed.

Lemma touchEquiv_refl (s : Solver) : touchEquiv s s.
Proof.
  exists (Solution.theaterStates (solution s)). split.
  - apply Forall2_same_length_lookup. split; [done|].
    intros i t t' Ht Ht'. rewrite Ht in Ht'. injection Ht' as <-.
    apply theaterEquiv_refl.
  - by rewrite set_theaterStates_same.
Qed.

Lemma touchEquiv_trans (s1 s2 s3 : Solver) :
  touchEquiv s1 s2 → touchEquiv s2 s3 → touchEquiv s1 s3.
Proof.
  intros (ts2 & H12 & ->) (ts3 & H23 & ->). simpl in *.
  exists ts3. split; [|by destruct s1 as [? ? []]].
  eapply Forall2_trans; [|done|done]. apply theaterEquiv_trans.
Qed.

Lemma touchEquiv_problem (s s' : Solver) :
  touchEquiv s s' → problem s' = problem s.
Proof. by intros (ts & _ & ->). Qed.

Lemma theaterAvailable_equiv (ts ts' : list OperatingTheaterState.t)
    (patient : Patient.t) (day : Z) :
  Forall2 theaterEquiv ts ts'
  → (theaterAvailable ts patient day).1 = (theaterAvailable ts' patient day).1
    ∧ Forall2 theaterEquiv (theaterAvailable ts patient day).2
                           (theaterAvailable ts' patient day).2.
Proof.
  induction 1 as [|t t' ts ts' Ht Hts IH]; simpl; [done|].
  destruct Ht as (Hi & Hp & Ha).
  rewrite (Ha day).
  case_bool_decide; simpl.
  - split; [done|]. constructor; [|done]. by apply theaterEquiv_touch.
  - destruct (theaterAvailable ts patient day) as [b r],
             (theaterAvailable ts' patient day) as [b' r']. simpl in *.
    destruct IH as [-> IH]. split; [done|].
    constructor; [|done]. by apply theaterEquiv_touch.
Qed.

Lemma theaterAvailable_touch (ts : list OperatingTheaterState.t)
    (patient : Patient.t) (day : Z) :
  Forall2 theaterEquiv ts (theaterAvailable ts patient day).2.
Proof.
  induction ts as [|t ts IH]; simpl; [constructor|].
  case_bool_decide; simpl.
  - constructor; [apply theaterEquiv_touch_r|].
    apply Forall2_same_length_lookup. split; [done|].
    intros i x y Hx Hy. rewrite Hx in Hy. injection Hy as <-.
    apply theaterEquiv_refl.
  - destruct (theaterAvailable ts patient day) as [b r]. simpl in *.
    constructor; [apply theaterEquiv_touch_r | done].
Qed.

Lemma checkPlacement_touch (patient : Patient.t) (day : Z) (room_id : string)
    (b : bool) (s s' : Solver) :
  checkPlacement patient day room_id s = Ok (b, s') → touchEquiv s s'.
Proof.
  rewrite checkPlacement_unfold.
  destruct (surgeonAvailable _ patient day) as [[|]|e];
    [|intros [= _ <-]; apply touchEquiv_refl|done].
  simpl.
  assert (touchEquiv s
            (set_solution
               (Solution.set_theaterStates
                  (theaterAvailable (Solution.theaterStates (solution s)) patient day).2
                  (solution s)) s)) as Heq.
  { eexists. split; [apply theaterAvailable_touch | done]. }
  destruct (theaterAvailable _ patient day).1; [|by intros [= _ <-]].
  destruct (roomAvailable _ _ patient day room_id); [by intros [= _ <-] | done].
Qed.

Lemma checkPlacement_equiv (patient : Patient.t) (day : Z) (room_id : string)
    (s s' : Solver) :
  touchEquiv s s'
  → resEquiv (checkPlacement patient day room_id s)
             (checkPlacement patient day room_id s').
Proof.
  intros (ts' & Hts & ->). rewrite !checkPlacement_unfold. simpl.
  destruct (surgeonAvailable _ patient day) as [[|]|e]; simpl; [| |done].
  - destruct (theaterAvailable_equiv _ _ patient day Hts) as [Hb Hr].
    rewrite <- Hb.
    assert (touchEquiv
              (set_solution
                 (Solution.set_theaterStates
                    (theaterAvailable (Solution.theaterStates (solution s)) patient day).2
                    (solution s)) s)
              (set_solution
                 (Solution.set_theaterStates
                    (theaterAvailable ts' patient day).2
                    (Solution.set_theaterStates ts' (solution s)))
                 (set_solution (Solution.set_theaterStates ts' (solution s)) s)))
      as Heq.
    { eexists. split; [exact Hr | by destruct s as [? ? []]]. }
    destruct (theaterAvailable _ patient day).1; simpl; [|done].
    by destruct (roomAvailable _ _ patient day room_id).
  - split; [done|]. by exists ts'.
Qed.

Lemma M_bind_equiv {A B} (m : M A) (f : A → M B) (s s' : Solver) :
  resEquiv (m s) (m s')
  → (∀ a s1 s1', touchEquiv s1 s1' → resEquiv (f a s1) (f a s1'))
  → resEquiv ((m ≫= f) s) ((m ≫= f) s').
Proof.
  intros Hm Hf. unfold mbind, M_bind.
  destruct (m s) as [[a s1]|e], (m s') as [[a' s1']|e']; simpl in *; try done.
  destruct Hm as [<- Hs]. by apply Hf.
Qed.

Lemma tryRooms_equiv (patient : Patient.t) (newDay : Z) (rooms : list Room.t)
    (enc : EncodedPatientSolution.t) (s s' : Solver) :
  touchEquiv s s'
  → resEquiv (tryRooms patient newDay rooms enc s)
             (tryRooms patient newDay rooms enc s').
Proof.
  revert enc s s'. induction rooms as [|room rooms IH]; intros enc s s' Hs; simpl.
  - done.
  - case_bool_decide; [by apply IH|].
    apply M_bind_equiv; [by apply checkPlacement_equiv|].
    intros [|] s1 s1' Hs1; [done | by apply IH].
Qed.

Lemma tryDays_equiv (patient : Patient.t) (newDays : list Z) (rooms : list Room.t)
    (enc : EncodedPatientSolution.t) (s s' : Solver) :
  touchEquiv s s'
  → resEquiv (tryDays patient newDays rooms enc s)
             (tryDays patient newDays rooms enc s').
Proof.
  revert enc s s'. induction newDays as [|d newDays IH]; intros enc s s' Hs; simpl.
  - done.
  - apply M_bind_equiv; [by apply tryRooms_equiv|].
    intros [[|] enc1] s1 s1' Hs1; simpl; [done | by apply IH].
Qed.

Lemma tryRooms_touch (patient : Patient.t) (newDay : Z) (rooms : list Room.t)
    (enc enc' : EncodedPatientSolution.t) (b : bool) (s s' : Solver) :
  tryRooms patient newDay rooms enc s = Ok ((b, enc'), s')
  → touchEquiv s s' ∧ (b = false → enc' = enc).
Proof.
  revert enc s. induction rooms as [|room rooms IH]; intros enc s; simpl.
  - intros [[= <- <-] <-]%M_ret_Ok. split; [apply touchEquiv_refl | done].
  - case_bool_decide; [by apply IH|].
    intros (ok & s1 & Hc & Hk)%M_bind_Ok.
    apply checkPlacement_touch in Hc.
    destruct ok.
    + by apply M_ret_Ok in Hk as [[= <- <-] <-].
    + apply IH in Hk as [Hs Hrev]. split; [by eapply touchEquiv_trans|].
      intros Hb. rewrite Hrev by done. by destruct enc.
Qed.

Lemma tryDays_touch (patient : Patient.t) (newDays : list Z) (rooms : list Room.t)
    (enc enc' : EncodedPatientSolution.t) (b : bool) (s s' : Solver) :
  tryDays patient newDays rooms enc s = Ok ((b, enc'), s')
  → touchEquiv s s' ∧ (b = false → enc' = enc).
Proof.
  revert enc s. induction newDays as [|d newDays IH]; intros enc s; simpl.
  - intros [[= <- <-] <-]%M_ret_Ok. split; [apply touchEquiv_refl | done].
  - intros ([b1 enc1] & s1 & Hr & Hk)%M_bind_Ok.
    apply tryRooms_touch in Hr as [Hs Hrev]. simpl in Hk.
    destruct b1.
    + by apply M_ret_Ok in Hk as [[= <- <-] <-].
    + rewrite Hrev in Hk by done. apply IH in Hk as [Hs' Hrev'].
      split; [by eapply touchEquiv_trans | done].
Qed.

Lemma exhaustivePass_equiv (patient : Patient.t) (enc : EncodedPatientSolution.t)
    (s s' : Solver) :
  touchEquiv s s'
  → resEquiv (exhaustivePass patient enc s) (exhaustivePass patient enc s').
Proof.
  intros Hs. unfold exhaustivePass.
  rewrite (touchEquiv_problem _ _ Hs). by apply tryDays_equiv.
Qed.

Lemma repairAttempts_pass (n : nat) (patient : Patient.t)
    (enc : EncodedPatientSolution.t) (s0 s : Solver) :
  touchEquiv s0 s
  → resEquiv (exhaustivePass patient enc s0)
             (repairAttempts (S n) patient enc s).
Proof.
  revert s. induction n as [|n IH]; intros s Hs.
  - change (repairAttempts 1 patient enc)
      with (exhaustivePass patient enc
              ≫= λ r, if r.1 : bool then mret r else mret (false, r.2)).
    pose proof (exhaustivePass_equiv patient enc _ _ Hs) as Hp.
    unfold mbind, M_bind.
    destruct (exhaustivePass patient enc s0) as [[[b0 e0] s1]|err] eqn:H0,
             (exhaustivePass patient enc s) as [[[b e] s2]|err'] eqn:H1;
      simpl in *; try done.
    destruct Hp as [[= -> ->] Hs12]. by destruct b.
  - change (repairAttempts (S (S n)) patient enc)
      with (exhaustivePass patient enc
              ≫= λ r, if r.1 : bool then mret r
                      else repairAttempts (S n) patient r.2).
    pose proof (exhaustivePass_equiv patient enc _ _ Hs) as Hp.
    unfold mbind at 1, M_bind at 1.
    destruct (exhaustivePass patient enc s0) as [[[b0 e0] s1]|err] eqn:H0,
             (exhaustivePass patient enc s) as [[[b e] s2]|err'] eqn:H1;
      simpl in Hp |- *; try done.
    destruct Hp as [[= -> ->] Hs12]. destruct b; [done|]. simpl.
    apply tryDays_touch in H1 as [Hs2 Hrev]. specialize (Hrev eq_refl) as ->.
    exact (IH s2 (touchEquiv_trans _ _ _ Hs Hs2)).
Qed.


(** ** What a member function leaves alone *)

Section Keeps.
Context {X : Type} (proj : Solver → X).

Lemma keeps_ret {A} (a : A) : keeps proj (mret a).
Proof. by intros s a' s' [_ <-]%M_ret_Ok. Qed.

Lemma keeps_bind {A B} (m : M A) (f : A → M B) :
  keeps proj m → (∀ a, keeps proj (f a)) → keeps proj (m ≫= f).
Proof.
  intros Hm Hf s b s' (a & s1 & H1 & H2)%M_bind_Ok.
  rewrite (Hf _ _ _ _ H2). by eapply Hm.
Qed.

Lemma keeps_get : keeps proj get.
Proof. by intros s a s' [= _ <-]. Qed.

Lemma keeps_throw {A} (e : fault) : keeps proj (@throw A e).
Proof. by intros s a s'. Qed.

Lemma keeps_lift {A} (r : res A) : keeps proj (lift r).
Proof. intros s a s'. unfold lift. destruct r; [by intros [= _ <-] | done]. Qed.

Lemma keeps_forM {A} (f : A → M A) (l : list A) :
  (∀ x, keeps proj (f x)) → keeps proj (forM f l).
Proof.
  intros Hf. induction l as [|x l IH]; simpl.
  - apply keeps_ret.
  - apply keeps_bind; [done|]. intros x'.
    apply keeps_bind; [done|]. intros l'. apply keeps_ret.
Qed.

Hypothesis proj_theaterStates :
  ∀ ts s, proj (set_solution (Solution.set_theaterStates ts (solution s)) s) = proj s.

Lemma keeps_touchEquiv (s s' : Solver) : touchEquiv s s' → proj s' = proj s.
Proof. intros (ts & _ & ->). apply proj_theaterStates. Qed.

Lemma keeps_checkPlacement (patient : Patient.t) (day : Z) (room_id : string) :
  keeps proj (checkPlacement patient day room_id).
Proof. intros s b s' H. eapply keeps_touchEquiv, checkPlacement_touch, H. Qed.

Lemma keeps_tryDays (patient : Patient.t) (newDays : list Z)
    (rooms : list Room.t) (enc : EncodedPatientSolution.t) :
  keeps proj (tryDays patient newDays rooms enc).
Proof.
  intros s [b enc'] s' H. eapply keeps_touchEquiv.
  by eapply tryDays_touch.
Qed.

Lemma keeps_repairMandatoryPatient (patient : Patient.t)
    (enc : EncodedPatientSolution.t) :
  keeps proj (repairMandatoryPatient patient enc).
Proof. intros s r s' H. by eapply keeps_tryDays. Qed.

Lemma keeps_repairOptionalPatient (patient : Patient.t)
    (enc : EncodedPatientSolution.t) :
  keeps proj (repairOptionalPatient patient enc).
Proof.
  unfold repairOptionalPatient. generalize MAX_ATTEMPTS. intros n. revert enc.
  induction n as [|n IH]; intros enc; simpl.
  - apply keeps_ret.
  - apply keeps_bind.
    + intros s r s' H. by eapply keeps_tryDays.
    + intros [[|] e]; simpl; [apply keeps_ret | apply IH].
Qed.

Lemma keeps_assignOperatingTheater (patient : Patient.t) (day : Z) :
  keeps proj (assignOperatingTheater patient day).
Proof.
  intros s a s'. unfold assignOperatingTheater.
  destruct (selectTheater _ _ _) as [[i t]|]; [|done].
  intros [= _ <-]. apply proj_theaterStates.
Qed.

Hypothesis proj_surgeons :
  ∀ sg s, proj (set_problem (ProblemInstance.set_surgeons sg (problem s)) s) = proj s.

Hypothesis proj_roomStates :
  ∀ rs s, proj (set_solution (Solution.set_roomStates rs (solution s)) s) = proj s.

Lemma keeps_assignSurgeon (patient : Patient.t) (day : Z) :
  keeps proj (assignSurgeon patient day).
Proof.
  intros s a s'. unfold assignSurgeon.
  destruct (findSurgeon _ _) as [[i sg]|]; [|done].
  destruct (vec_at _ day) as [budget|]; [|done]. simpl.
  destruct (vec_set _ day _) as [times|]; [|done]. simpl.
  intros [= _ <-]. apply proj_surgeons.
Qed.

Lemma keeps_assignRoom (patient : Patient.t) (day : Z) (room_id : string) :
  keeps proj (assignRoom patient day room_id).
Proof.
  intros s a s'. unfold assignRoom.
  destruct (findRoomState _ _) as [[i rs]|]; [|done].
  destruct (res_foldl _ _ _) as [rs'|]; [|done]. simpl.
  intros [= _ <-]. apply proj_roomStates.
Qed.

End Keeps.

(** ** Determinism of solve *)

Lemma keeps_definition_solution (sol : Solution.t) (s : Solver) :
  problemDefinition (set_solution sol s) = problemDefinition s.
Proof. done. Qed.

Lemma keeps_definition_surgeons (sg : list Surgeon.t) (s : Solver) :
  problemDefinition (set_problem (ProblemInstance.set_surgeons sg (problem s)) s)
  = problemDefinition s.
Proof. done. Qed.

Lemma keeps_pushPatient (pa : PatientAssignment.t) :
  keeps problemDefinition (pushPatient pa).
Proof. by intros s a s' [= _ <-]. Qed.

Lemma keeps_commitPlacement (patient : Patient.t) (day : Z) (room_id : string) :
  keeps problemDefinition (commitPlacement patient day room_id).
Proof.
  unfold commitPlacement.
  apply keeps_bind; [by apply keeps_assignSurgeon|]. intros _.
  apply keeps_bind; [by apply keeps_assignOperatingTheater|]. intros theater_id.
  apply keeps_bind; [by apply keeps_assignRoom|]. intros _.
  apply keeps_pushPatient.
Qed.

Lemma keeps_placePatient
    (repair : Patient.t → EncodedPatientSolution.t
              → M (bool * EncodedPatientSolution.t))
    (enc : EncodedPatientSolution.t) :
  (∀ p e, keeps problemDefinition (repair p e))
  → keeps problemDefinition (placePatient repair enc).
Proof.
  intros Hrepair. unfold placePatient.
  apply keeps_bind; [apply keeps_get|]. intros s0.
  destruct (findPatient _ _) as [[i patient]|]; [|apply keeps_throw].
  apply keeps_bind; [by apply keeps_checkPlacement|]. intros [|].
  - apply keeps_bind; [apply keeps_commitPlacement|]. intros _. apply keeps_ret.
  - apply keeps_bind; [apply Hrepair|]. intros [[|] e]; simpl.
    + apply keeps_bind; [apply keeps_commitPlacement|]. intros _. apply keeps_ret.
    + apply keeps_bind; [apply keeps_pushPatient|]. intros _. apply keeps_ret.
Qed.

Lemma keeps_initializeDynamicStates : keeps problemDefinition initializeDynamicStates.
Proof.
  intros s a s'. unfold initializeDynamicStates.
  destruct (mapM _ _) as [ts|]; [|done]. simpl. by intros [= _ <-].
Qed.

Lemma keeps_solvePatients (encodedSolution : EncodedSolution.t) :
  keeps problemDefinition (solvePatients encodedSolution).
Proof.
  unfold solvePatients.
  apply keeps_bind; [apply keeps_initializeDynamicStates|]. intros _.
  apply keeps_bind; [apply keeps_get|]. intros s0.
  apply keeps_bind; [apply keeps_lift|]. intros split.
  apply keeps_bind.
  { apply keeps_forM. intros enc. apply keeps_placePatient.
    intros p e. by apply keeps_repairMandatoryPatient. }
  intros mandatoryEnc.
  apply keeps_bind.
  { apply keeps_forM. intros enc. apply keeps_placePatient.
    intros p e. by apply keeps_repairOptionalPatient. }
  intros optionalEnc. apply keeps_ret.
Qed.

Lemma keeps_solveNurses (encodedSolution : EncodedSolution.t) :
  keeps problemDefinition (solveNurses encodedSolution).
Proof.
  intros s a s'. unfold solveNurses.
  destruct (nurseAssignments _ _ _) as [l|]; [|done]. simpl. by intros [= _ <-].
Qed.

Lemma keeps_calculateHardConstraintViolations :
  keeps problemDefinition calculateHardConstraintViolations.
Proof.
  intros s a s'. unfold calculateHardConstraintViolations.
  destruct (hardViolations _ _) as [v|]; [|done]. simpl. by intros [= _ <-].
Qed.

Lemma keeps_calculateSoftConstraints :
  keeps problemDefinition calculateSoftConstraints.
Proof.
  intros s a s'. unfold calculateSoftConstraints.
  destruct (softConstraints _ _) as [l|]; [|done]. simpl. by intros [= _ <-].
Qed.

Lemma keeps_solve (encodedSolution : EncodedSolution.t) :
  keeps problemDefinition (solve encodedSolution).
Proof.
  unfold solve.
  apply keeps_bind; [apply keeps_solvePatients|]. intros _.
  apply keeps_bind; [apply keeps_solveNurses|]. intros _.
  apply keeps_bind; [apply keeps_calculateHardConstraintViolations|]. intros h.
  apply keeps_bind; [apply keeps_calculateSoftConstraints|]. intros f.
  apply keeps_ret.
Qed.

(** Initialisation reads nothing but the problem definition. *)
Lemma initializeDynamicStates_definition (s s' : Solver) :
  problemDefinition s = problemDefinition s'
  → initializeDynamicStates s = initializeDynamicStates s'.
Proof.
  destruct s as [p o sol], s' as [p' o' sol'], p, p'.
  unfold problemDefinition, initializeDynamicStates. simpl.
  by intros [= -> -> -> -> -> -> -> -> -> ->].
Qed.

Lemma solve_definition (encodedSolution : EncodedSolution.t) (s s' : Solver) :
  problemDefinition s = problemDefinition s'
  → solve encodedSolution s = solve encodedSolution s'.
Proof.
  intros Hdef. unfold solve, solvePatients. unfold mbind, M_bind.
  by rewrite (initializeDynamicStates_definition _ _ Hdef).
Qed.

(** C1.  A second call of [solve] with the same encoding, on the solver as
    the first call left it, returns the same pair of hard violations and soft
    penalty (and ends in the same state): the surgeon budgets and the dynamic
    room and theater states consumed by the first call do not reach the
    second. *)
Theorem solve_deterministic (encodedSolution enc' : EncodedSolution.t)
    (score : Z * Z) (s s' : Solver) :
  solve encodedSolution s = Ok ((score, enc'), s')
  → solve encodedSolution s' = Ok ((score, enc'), s').
Proof.
  intros H. rewrite <- H. apply solve_definition.
  eapply keeps_solve, H.
Qed.

(** ** The decoded patient list *)

Lemma tryRooms_patient_id (patient : Patient.t) (newDay : Z) (rooms : list Room.t)
    (enc : EncodedPatientSolution.t) (r : bool * EncodedPatientSolution.t)
    (s s' : Solver) :
  tryRooms patient newDay rooms enc s = Ok (r, s')
  → EncodedPatientSolution.patient_id r.2 = EncodedPatientSolution.patient_id enc.
Proof.
  revert enc s. induction rooms as [|room rooms IH]; intros enc s; simpl.
  - by intros [<- _]%M_ret_Ok.
  - case_bool_decide; [by apply IH|].
    intros ([|] & s1 & Hc & Hk)%M_bind_Ok.
    + by apply M_ret_Ok in Hk as [<- _].
    + by apply IH in Hk.
Qed.

Lemma tryDays_patient_id (patient : Patient.t) (newDays : list Z)
    (rooms : list Room.t) (enc : EncodedPatientSolution.t)
    (r : bool * EncodedPatientSolution.t) (s s' : Solver) :
  tryDays patient newDays rooms enc s = Ok (r, s')
  → EncodedPatientSolution.patient_id r.2 = EncodedPatientSolution.patient_id enc.
Proof.
  revert enc s. induction newDays as [|d newDays IH]; intros enc s; simpl.
  - by intros [<- _]%M_ret_Ok.
  - intros (r1 & s1 & Hr & Hk)%M_bind_Ok.
    apply tryRooms_patient_id in Hr. destruct (r1.1).
    + apply M_ret_Ok in Hk as [<- _]. done.
    + apply IH in Hk. congruence.
Qed.

Lemma repairAttempts_patient_id (n : nat) (patient : Patient.t)
    (enc : EncodedPatientSolution.t) (r : bool * EncodedPatientSolution.t)
    (s s' : Solver) :
  repairAttempts n patient enc s = Ok (r, s')
  → EncodedPatientSolution.patient_id r.2 = EncodedPatientSolution.patient_id enc.
Proof.
  revert enc s. induction n as [|n IH]; intros enc s; simpl.
  - by intros [<- _]%M_ret_Ok.
  - intros (r1 & s1 & Hr & Hk)%M_bind_Ok.
    apply tryDays_patient_id in Hr. destruct (r1.1).
    + apply M_ret_Ok in Hk as [<- _]. done.
    + apply IH in Hk. congruence.
Qed.

Lemma repairRoutine_mandatory : repairRoutine repairMandatoryPatient.
Proof.
  intros p e. split.
  - by apply keeps_repairMandatoryPatient.
  - intros r s s' H. by eapply tryDays_patient_id.
Qed.

Lemma repairRoutine_optional : repairRoutine repairOptionalPatient.
Proof.
  intros p e. split.
  - by apply keeps_repairOptionalPatient.
  - intros r s s' H. by eapply repairAttempts_patient_id.
Qed.

Lemma commitPlacement_records (patient : Patient.t) (day : Z) (room_id : string)
    (s s' : Solver) :
  commitPlacement patient day room_id s = Ok (tt, s')
  → ∃ theater_id,
      decodedPatients s'
      = decodedPatients s
        ++ [PatientAssignment.mk (Patient.id patient) (Some day) room_id theater_id].
Proof.
  unfold commitPlacement.
  intros (u1 & s1 & H1 & (theater_id & s2 & H2 & (u3 & s3 & H3 & H4)%M_bind_Ok)%M_bind_Ok)%M_bind_Ok.
  exists theater_id.
  apply (keeps_assignSurgeon decodedPatients) in H1; [|done..].
  apply (keeps_assignOperatingTheater decodedPatients) in H2; [|done].
  apply (keeps_assignRoom decodedPatients) in H3; [|done..].
  injection H4 as <-. unfold decodedPatients in *. simpl. congruence.
Qed.

Lemma placePatient_records
    (repair : Patient.t → EncodedPatientSolution.t
              → M (bool * EncodedPatientSolution.t))
    (enc enc' : EncodedPatientSolution.t) (s s' : Solver) :
  repairRoutine repair
  → placePatient repair enc s = Ok (enc', s')
  → EncodedPatientSolution.patient_id enc' = EncodedPatientSolution.patient_id enc
    ∧ ∃ pa, decodedPatients s' = decodedPatients s ++ [pa] ∧ recorded enc' pa.
Proof.
  intros Hrepair. unfold placePatient.
  intros (s0 & ? & [= <- <-] & H)%M_bind_Ok.
  destruct (findPatient _ _) as [[i patient]|] eqn:Hfind; [|done].
  apply list_find_Some in Hfind as (_ & Hid & _).
  apply M_bind_Ok in H as (ok & s1 & Hc & H).
  apply (keeps_checkPlacement decodedPatients) in Hc; [|done].
  destruct ok.
  - apply M_bind_Ok in H as ([] & s2 & Hcommit & [<- <-]%M_ret_Ok).
    apply commitPlacement_records in Hcommit as [theater_id Hp].
    split; [done|]. eexists. split; [by rewrite Hp, Hc|]. by split.
  - apply M_bind_Ok in H as (r & s2 & Hr & H).
    destruct (Hrepair patient enc) as [Hkeep Hpid].
    apply Hkeep in Hr as Hr'. apply Hpid in Hr.
    destruct (r.1).
    + apply M_bind_Ok in H as ([] & s3 & Hcommit & [<- <-]%M_ret_Ok).
      apply commitPlacement_records in Hcommit as [theater_id Hp].
      split; [done|]. eexists. split; [by rewrite Hp, Hr', Hc|].
      split; simpl; [congruence | done].
    + apply M_bind_Ok in H as ([] & s3 & Hpush & [<- <-]%M_ret_Ok).
      injection Hpush as <-.
      split; [done|]. eexists. split.
      * unfold decodedPatients in *. simpl. by rewrite Hr', Hc.
      * split; simpl; [congruence | done].
Qed.

(** When the encoded placement fails the checks and repair succeeds, the
    local entry becomes the one repair produced and the decoded record
    carries its day and room. *)
Lemma placePatient_relocated
    (repair : Patient.t → EncodedPatientSolution.t
              → M (bool * EncodedPatientSolution.t))
    (patient : Patient.t) (i : nat)
    (enc repaired enc' : EncodedPatientSolution.t) (s s1 s2 s' : Solver) :
  findPatient (ProblemInstance.patients (problem s))
    (EncodedPatientSolution.patient_id enc) = Some (i, patient)
  → checkPlacement patient (EncodedPatientSolution.admission_day enc)
      (EncodedPatientSolution.room_id enc) s = Ok (false, s1)
  → repair patient enc s1 = Ok ((true, repaired), s2)
  → placePatient repair enc s = Ok (enc', s')
  → enc' = repaired
    ∧ ∃ theater_id,
        decodedPatients s'
        = decodedPatients s2
          ++ [PatientAssignment.mk (Patient.id patient)
                (Some (EncodedPatientSolution.admission_day repaired))
                (EncodedPatientSolution.room_id repaired) theater_id].
Proof.
  intros Hfind Hcheck Hrepair. unfold placePatient.
  unfold mbind at 1, M_bind at 1. simpl. rewrite Hfind.
  unfold mbind at 1, M_bind at 1. rewrite Hcheck.
  unfold mbind at 1, M_bind at 1. rewrite Hrepair. simpl.
  intros ([] & s3 & Hcommit & [<- <-]%M_ret_Ok)%M_bind_Ok.
  split; [done|]. by apply commitPlacement_records in Hcommit.
Qed.

Lemma forM_placePatient_records
    (repair : Patient.t → EncodedPatientSolution.t
              → M (bool * EncodedPatientSolution.t))
    (l l' : list EncodedPatientSolution.t) (s s' : Solver) :
  repairRoutine repair
  → forM (placePatient repair) l s = Ok (l', s')
  → EncodedPatientSolution.patient_id <$> l' = EncodedPatientSolution.patient_id <$> l
    ∧ ∃ pas, decodedPatients s' = decodedPatients s ++ pas ∧ Forall2 recorded l' pas.
Proof.
  intros Hrepair. revert l' s.
  induction l as [|e l IH]; intros l' s; simpl.
  - intros [<- <-]%M_ret_Ok. split; [done|]. exists []. by rewrite app_nil_r.
  - intros (e' & s1 & He & (l1 & s2 & Hl & [<- <-]%M_ret_Ok)%M_bind_Ok)%M_bind_Ok.
    apply placePatient_records in He as (Hid & pa & Hpa & Hrec); [|done].
    apply IH in Hl as (Hids & pas & Hpas & Hrecs).
    split; [by rewrite !fmap_cons, Hid, Hids|].
    exists (pa :: pas). split; [|by constructor].
    rewrite Hpas, Hpa. by rewrite <- app_assoc.
Qed.

Lemma initializeDynamicStates_Ok (u : unit) (s s1 : Solver) :
  initializeDynamicStates s = Ok (u, s1)
  → decodedPatients s1 = []
    ∧ ProblemInstance.patients (problem s1) = ProblemInstance.patients (problem s)
    ∧ originalProblem s1 = originalProblem s.
Proof.
  unfold initializeDynamicStates.
  destruct (mapM _ _) as [ts|]; [|done]. simpl. by intros [= _ <-].
Qed.

Lemma solvePatients_records (encodedSolution : EncodedSolution.t)
    (mandatoryEnc optionalEnc : list EncodedPatientSolution.t) (s s' : Solver) :
  solvePatients encodedSolution s = Ok ((mandatoryEnc, optionalEnc), s')
  → ∃ split,
      splitEncoded (ProblemInstance.patients (problem s))
        (EncodedSolution.encoded_patients encodedSolution) = Ok split
      ∧ EncodedPatientSolution.patient_id <$> mandatoryEnc
        = EncodedPatientSolution.patient_id <$> split.1
      ∧ EncodedPatientSolution.patient_id <$> optionalEnc
        = EncodedPatientSolution.patient_id <$> split.2
      ∧ Forall2 recorded (mandatoryEnc ++ optionalEnc) (decodedPatients s').
Proof.
  unfold solvePatients.
  intros (u & s1 & Hinit & (s0 & ? & [= <- <-] & H)%M_bind_Ok)%M_bind_Ok.
  apply initializeDynamicStates_Ok in Hinit as (Hnil & Hpat & _).
  apply M_bind_Ok in H as (split & ? & Hsplit & H).
  unfold lift in Hsplit. rewrite Hpat in Hsplit.
  destruct (splitEncoded _ _) as [sp|] eqn:Hsp; [|done].
  injection Hsplit as <- <-.
  apply M_bind_Ok in H as (m' & s2 & Hm & (o' & s3 & Ho & [[= <- <-] <-]%M_ret_Ok)%M_bind_Ok).
  apply forM_placePatient_records in Hm as (Hidm & pasm & Hpm & Hrm);
    [|apply repairRoutine_mandatory].
  apply forM_placePatient_records in Ho as (Hido & paso & Hpo & Hro);
    [|apply repairRoutine_optional].
  exists sp. split_and!; [done..|].
  rewrite Hpo, Hpm, Hnil. simpl. by apply Forall2_app.
Qed.

Lemma solve_Ok (encodedSolution enc' : EncodedSolution.t) (score : Z * Z)
    (s s' : Solver) :
  solve encodedSolution s = Ok ((score, enc'), s')
  → enc' = encodedSolution
    ∧ ∃ locals s1 s2,
        solvePatients encodedSolution s = Ok (locals, s1)
        ∧ solveNurses encodedSolution s1 = Ok (tt, s2)
        ∧ hardViolations (originalProblem s2) (solution s2) = Ok score.1
        ∧ decodedPatients s' = decodedPatients s1.
Proof.
  unfold solve.
  intros (locals & s1 & Hp & ([] & s2 & Hn & (h & s3 & Hh & (f & s4 & Hf & Hr)%M_bind_Ok)%M_bind_Ok)%M_bind_Ok)%M_bind_Ok.
  apply M_ret_Ok in Hr as [[= <- <-] <-].
  split; [done|]. exists locals, s1, s2. split_and!; [done | done | |].
  - unfold calculateHardConstraintViolations in Hh.
    by destruct (hardViolations _ _); [injection Hh as <- <-|].
  - unfold calculateHardConstraintViolations in Hh.
    destruct (hardViolations _ _); [injection Hh as <- <-|done].
    unfold calculateSoftConstraints in Hf.
    destruct (softConstraints _ _); [injection Hf as <- <-|done].
    unfold solveNurses in Hn.
    destruct (nurseAssignments _ _ _); [injection Hn as <-|done].
    done.
Qed.

(** C7 (as amended).  [solve] returns the caller's encoded solution exactly
    as it received it.  What repair changes is the entry of the local copy
    ([mandatoryEnc], [optionalEnc]): when [solve] returns, every decoded
    patient record carries the patient id of its local entry and, for a
    placed patient, the admission day and the room of that (possibly
    relocated) local entry. *)
Theorem solve_records_relocation (encodedSolution enc' : EncodedSolution.t)
    (score : Z * Z) (s s' : Solver) :
  solve encodedSolution s = Ok ((score, enc'), s')
  → enc' = encodedSolution
    ∧ ∃ mandatoryEnc optionalEnc s1,
        solvePatients encodedSolution s = Ok ((mandatoryEnc, optionalEnc), s1)
        ∧ Forall2 recorded (mandatoryEnc ++ optionalEnc) (decodedPatients s').
Proof.
  intros (-> & [m o] & s1 & s2 & Hp & _ & _ & Hdec)%solve_Ok.
  split; [done|]. exists m, o, s1. split; [done|].
  rewrite Hdec. by apply solvePatients_records in Hp as (? & _ & _ & _ & ?).
Qed.

(** ** Every patient has a decoded record *)





Lemma recorded_ids (l : list EncodedPatientSolution.t)
    (pas : list PatientAssignment.t) :
  Forall2 recorded l pas
  → PatientAssignment.id <$> pas = EncodedPatientSolution.patient_id <$> l.
Proof.
  induction 1 as [|e pa l pas [Hid _] _ IH]; [done|].
  by rewrite !fmap_cons, Hid, IH.
Qed.


Lemma solve_decode (encodedSolution : EncodedSolution.t) (s : Solver) :
  solve encodedSolution s
  = (decode encodedSolution;;
     hardViolations ← calculateHardConstraintViolations;
     softPenalty ← calculateSoftConstraints;
     mret ((hardViolations, softPenalty), encodedSolution)) s.
Proof.
  unfold solve, decode. unfold mbind, M_bind.
  destruct (solvePatients encodedSolution s) as [[? ?]|]; [|done].
  done.
Qed.


(** ** Nurse local search *)

Lemma rescore_chain {B} (sc : list Z) (a b c : Z) (k : list Z → res B) :
  (sc1 ← vec_set sc 1 a; sc2 ← vec_set sc1 2 b; sc3 ← vec_set sc2 3 c; k sc3)
  = if bool_decide (3 < length sc)%nat
    then k (<[3%nat := c]> (<[2%nat := b]> (<[1%nat := a]> sc)))
    else Err Undefined.
Proof.
  by destruct sc as [|x0 [|x1 [|x2 [|x3 sc]]]].
Qed.

Lemma rescore_overwrite (sc : list Z) (a b c x y z : Z) :
  <[3%nat := c]> (<[2%nat := b]> (<[1%nat := a]>
     (<[3%nat := z]> (<[2%nat := y]> (<[1%nat := x]> sc)))))
  = <[3%nat := c]> (<[2%nat := b]> (<[1%nat := a]> sc)).
Proof. by destruct sc as [|x0 [|x1 [|x2 [|x3 sc]]]]. Qed.

Lemma computeNurseOnlyCosts_unfold (s : Solver) :
  computeNurseOnlyCosts s
  = (s2 ← S2 (problem s) (solution s);
     s3 ← S3 (problem s) (solution s);
     s4 ← S4 (problem s) (solution s);
     if bool_decide (3 < length (Solution.soft_constraints (solution s)))%nat
     then
       let sc := <[3%nat := s4]> (<[2%nat := s3]> (<[1%nat := s2]>
                   (Solution.soft_constraints (solution s)))) in
       hard ← hardViolations (originalProblem s)
                (Solution.set_soft sc (accumulate sc) (solution s));
       Ok ((hard, accumulate sc),
           set_solution (Solution.set_soft sc (accumulate sc) (solution s)) s)
     else Err Undefined).
Proof.
  unfold computeNurseOnlyCosts.
  destruct (S2 _ _) as [s2|]; [|done]. simpl.
  destruct (S3 _ _) as [s3|]; [|done]. simpl.
  destruct (S4 _ _) as [s4|]; [|done]. simpl.
  apply (rescore_chain _ s2 s3 s4
           (λ sc3, hard ← hardViolations (originalProblem s)
                              (Solution.set_soft sc3 (accumulate sc3) (solution s));
                   Ok ((hard, accumulate sc3),
                       set_solution
                         (Solution.set_soft sc3 (accumulate sc3) (solution s)) s))).
Qed.

Lemma evaluateSwap_unfold (e : EncodedSolution.t) (s : Solver) :
  evaluateSwap e s
  = match nurseAssignments (ProblemInstance.nurses (problem s))
            (EncodedSolution.encoded_nurses e) 0 with
    | Ok l =>
        computeNurseOnlyCosts
          (set_solution (Solution.set_nurses l (solution s)) s)
    | Err err => Err err
    end.
Proof.
  unfold evaluateSwap, applyNurses. unfold mbind at 1, M_bind.
  by destruct (nurseAssignments _ _ _).
Qed.

Lemma evaluateSwap_base (e : EncodedSolution.t) (s : Solver) :
  evaluateSwap e s = evaluateSwap e (probeBase s).
Proof.
  rewrite !evaluateSwap_unfold.
  destruct s as [p o [r t pa n sc tot]]. unfold probeBase. simpl.
  destruct (nurseAssignments _ _ _) as [l|]; [|done].
  rewrite !computeNurseOnlyCosts_unfold. simpl.
  change (S2 p (Solution.mk r t pa l _ 0)) with (S2 p (Solution.mk r t pa l sc tot)).
  destruct (S2 p _) as [s2|]; [|done]. simpl.
  change (S3 p (Solution.mk r t pa l _ 0)) with (S3 p (Solution.mk r t pa l sc tot)).
  destruct (S3 p _) as [s3|]; [|done]. simpl.
  change (S4 p (Solution.mk r t pa l _ 0)) with (S4 p (Solution.mk r t pa l sc tot)).
  destruct (S4 p _) as [s4|]; [|done]. simpl.
  rewrite !length_insert, rescore_overwrite.
  case_bool_decide; [|done]. unfold Solution.set_soft. simpl.
  done.
Qed.

Lemma evaluateSwap_base_out (e : EncodedSolution.t) (r : Z * Z) (s s1 : Solver) :
  evaluateSwap e s = Ok (r, s1) → probeBase s1 = probeBase s.
Proof.
  rewrite evaluateSwap_unfold.
  destruct s as [p o [rs t pa n sc tot]]. simpl.
  destruct (nurseAssignments _ _ _) as [l|]; [|done].
  rewrite computeNurseOnlyCosts_unfold. simpl.
  destruct (S2 p _) as [s2|]; [|done]. simpl.
  destruct (S3 p _) as [s3|]; [|done]. simpl.
  destruct (S4 p _) as [s4|]; [|done]. simpl.
  case_bool_decide; [|done].
  destruct (hardViolations _ _) as [h|]; [|done]. simpl.
  intros [= _ <-]. unfold probeBase. simpl. by rewrite rescore_overwrite.
Qed.

Lemma swapBlocks_involutive (i j : nat) (enc : EncodedSolution.t) :
  swapBlocks i j (swapBlocks i j enc) = enc.
Proof.
  destruct enc as [ps blocks]. unfold swapBlocks. simpl.
  destruct (blocks !! i) as [a|] eqn:Hi; simpl; [|by rewrite Hi].
  destruct (blocks !! j) as [b|] eqn:Hj; simpl; [|by rewrite Hi, Hj].
  pose proof (lookup_lt_Some _ _ _ Hi) as Hli.
  pose proof (lookup_lt_Some _ _ _ Hj) as Hlj.
  assert (<[j:=a]> (<[i:=b]> blocks) !! i = Some b) as ->.
  { destruct (decide (i = j)) as [->|Hne].
    - rewrite list_lookup_insert_eq by (by rewrite length_insert). congruence.
    - rewrite list_lookup_insert_ne by done. by rewrite list_lookup_insert_eq. }
  assert (<[j:=a]> (<[i:=b]> blocks) !! j = Some a) as ->.
  { by rewrite list_lookup_insert_eq by (by rewrite length_insert). }
  f_equal. apply list_eq. intros k.
  destruct (decide (j = k)) as [<-|Hjk].
  { rewrite list_lookup_insert_eq by (by rewrite !length_insert). done. }
  rewrite list_lookup_insert_ne by done.
  destruct (decide (i = k)) as [<-|Hik].
  { rewrite list_lookup_insert_eq by (by rewrite !length_insert). done. }
  by rewrite !list_lookup_insert_ne by done.
Qed.

Lemma searchSwaps_cons (score0 : Z * Z) (i j : nat) (rest : list (nat * nat))
    (enc : EncodedSolution.t) (s : Solver) :
  searchSwaps score0 ((i, j) :: rest) enc s
  = match evaluateSwap (swapBlocks i j enc) s with
    | Ok (scoreNew, s1) =>
        if isBetterFitness scoreNew score0
        then Ok ((scoreNew, swapBlocks i j enc), s1)
        else searchSwaps score0 rest enc s1
    | Err e => Err e
    end.
Proof.
  simpl. unfold evaluateSwap. unfold mbind, M_bind.
  destruct (applyNurses _ s) as [[u s1]|]; [|done].
  destruct (computeNurseOnlyCosts s1) as [[scoreNew s2]|]; [|done].
  rewrite swapBlocks_involutive.
  by destruct (isBetterFitness scoreNew score0).
Qed.

Lemma searchSwaps_firstImprovement (s0 : Solver) (score0 : Z * Z)
    (pairs : list (nat * nat)) (enc : EncodedSolution.t) (s : Solver) :
  probeBase s = probeBase s0
  → outcome (searchSwaps score0 pairs enc s)
    = firstImprovement s0 score0 pairs enc.
Proof.
  revert s. induction pairs as [|[i j] rest IH]; intros s Hbase; [done|].
  rewrite searchSwaps_cons. simpl. unfold swapScore.
  rewrite (evaluateSwap_base _ s), Hbase, <- evaluateSwap_base.
  destruct (evaluateSwap _ s0) as [[scoreNew s1]|] eqn:Heval; [|done]. simpl.
  destruct (isBetterFitness scoreNew score0); [done|].
  apply IH. by apply evaluateSwap_base_out in Heval.
Qed.


Lemma isBetterFitness_spec (candidate best : Z * Z) :
  isBetterFitness candidate best = true
  ↔ candidate.1 < best.1 ∨ (candidate.1 = best.1 ∧ candidate.2 < best.2).
Proof.
  unfold isBetterFitness.
  rewrite orb_true_iff, andb_true_iff, !bool_decide_eq_true. done.
Qed.

Lemma firstImprovement_spec (s0 : Solver) (score0 score : Z * Z)
    (pairs : list (nat * nat)) (enc enc' : EncodedSolution.t) :
  firstImprovement s0 score0 pairs enc = Ok (score, enc')
  → (score = score0 ∧ enc' = enc
     ∧ ∀ p, p ∈ pairs
            → ∃ sc, swapScore s0 enc p.1 p.2 = Ok sc
                    ∧ isBetterFitness sc score0 = false)
    ∨ (∃ before i j after,
         pairs = before ++ (i, j) :: after
         ∧ swapScore s0 enc i j = Ok score
         ∧ enc' = swapBlocks i j enc
         ∧ isBetterFitness score score0 = true
         ∧ ∀ p, p ∈ before
                → ∃ sc, swapScore s0 enc p.1 p.2 = Ok sc
                        ∧ isBetterFitness sc score0 = false).
Proof.
  induction pairs as [|[i j] rest IH]; simpl.
  - intros [= <- <-]. left. split_and!; [done..|]. by intros p ?%elem_of_nil.
  - destruct (swapScore s0 enc i j) as [sc|] eqn:Hsc; [|done]. simpl.
    destruct (isBetterFitness sc score0) eqn:Hbetter.
    + intros [= <- <-]. right. exists [], i, j, rest.
      split_and!; [done..|]. by intros p ?%elem_of_nil.
    + intros [(-> & -> & Hall)|(before & i' & j' & after & -> & Hs & -> & Hb & Hall)]%IH.
      * left. split_and!; [done..|].
        intros p [->|Hp]%elem_of_cons; [by exists sc | by apply Hall].
      * right. exists ((i, j) :: before), i', j', after.
        split_and!; [done..|].
        intros p [->|Hp]%elem_of_cons; [by exists sc | by apply Hall].
Qed.


(** ** The theater states are ready whenever a repair routine runs *)

Lemma maintains_ret (I : Solver → Prop) {A} (a : A) : maintains I (mret a).
Proof. by intros s a' s' HI [_ <-]%M_ret_Ok. Qed.

Lemma maintains_bind (I : Solver → Prop) {A B} (m : M A) (f : A → M B) :
  maintains I m → (∀ a, maintains I (f a)) → maintains I (m ≫= f).
Proof.
  intros Hm Hf s b s' HI (a & s1 & H1 & H2)%M_bind_Ok.
  eapply Hf; [|done]. by eapply Hm.
Qed.

Lemma maintains_forM (I : Solver → Prop) {A} (f : A → M A) (l : list A) :
  (∀ x, maintains I (f x)) → maintains I (forM f l).
Proof.
  intros Hf. induction l as [|x l IH]; simpl.
  - apply maintains_ret.
  - apply maintains_bind; [done|]. intros x'.
    apply maintains_bind; [done|]. intros l'. apply maintains_ret.
Qed.

Lemma hasDays_touch (days : list Z) (day : Z) (t : OperatingTheaterState.t) :
  Forall (λ d, is_Some (OperatingTheaterState.availability_per_day t !! d)) days
  → Forall (λ d, is_Some (OperatingTheaterState.availability_per_day
                            (touchTheater day t) !! d)) days.
Proof.
  intros H. eapply Forall_impl; [exact H|]. clear H.
  intros d [v Hv]. simpl. unfold map_touch.
  destruct (OperatingTheaterState.availability_per_day t !! day) eqn:Hday; [by eexists|].
  destruct (decide (day = d)) as [->|Hne]; [congruence|].
  rewrite lookup_insert_ne by done. by eexists.
Qed.

Lemma hasDays_book (days : list Z) (patient : Patient.t) (day : Z)
    (t : OperatingTheaterState.t) :
  Forall (λ d, is_Some (OperatingTheaterState.availability_per_day t !! d)) days
  → Forall (λ d, is_Some (OperatingTheaterState.availability_per_day
                            (bookTheater patient day t) !! d)) days.
Proof.
  intros H. eapply Forall_impl; [exact H|]. clear H.
  intros d Hd. simpl.
  destruct (decide (day = d)) as [->|Hne].
  - rewrite lookup_insert_eq. by eexists.
  - by rewrite lookup_insert_ne.
Qed.

Lemma theaterAvailable_hasDays (days : list Z)
    (ts : list OperatingTheaterState.t) (patient : Patient.t) (day : Z) :
  Forall (λ t, Forall (λ d, is_Some (OperatingTheaterState.availability_per_day t !! d))
                      days) ts
  → Forall (λ t, Forall (λ d, is_Some (OperatingTheaterState.availability_per_day t !! d))
                        days) (theaterAvailable ts patient day).2.
Proof.
  induction 1 as [|t ts Ht Hts IH]; simpl; [done|].
  case_bool_decide; simpl.
  - constructor; [by apply hasDays_touch | done].
  - destruct (theaterAvailable ts patient day) as [b r]. simpl in *.
    constructor; [by apply hasDays_touch | done].
Qed.

Lemma maintains_checkPlacement (patient : Patient.t) (day : Z) (room_id : string) :
  maintains theatersReady (checkPlacement patient day room_id).
Proof.
  intros s b s' Hready. rewrite checkPlacement_unfold.
  destruct (surgeonAvailable _ patient day) as [[|]|e]; [|by intros [= _ <-]|done].
  simpl.
  assert (theatersReady
            (set_solution
               (Solution.set_theaterStates
                  (theaterAvailable (Solution.theaterStates (solution s)) patient day).2
                  (solution s)) s)) as Hready'.
  { unfold theatersReady. simpl. by apply theaterAvailable_hasDays. }
  destruct (theaterAvailable _ patient day).1; [|by intros [= _ <-]].
  destruct (roomAvailable _ _ patient day room_id); [by intros [= _ <-] | done].
Qed.

Lemma maintains_tryDays (patient : Patient.t) (newDays : list Z)
    (rooms : list Room.t) (enc : EncodedPatientSolution.t) :
  maintains theatersReady (tryDays patient newDays rooms enc).
Proof.
  revert enc. induction newDays as [|d newDays IH]; intros enc; simpl.
  - apply maintains_ret.
  - apply maintains_bind.
    + clear IH. revert enc. induction rooms as [|room rooms IH]; intros enc; simpl.
      * apply maintains_ret.
      * case_bool_decide; [apply IH|].
        apply maintains_bind; [apply maintains_checkPlacement|].
        intros [|]; [apply maintains_ret | apply IH].
    + intros [[|] e]; simpl; [apply maintains_ret | apply IH].
Qed.

Lemma maintains_repairMandatoryPatient (patient : Patient.t)
    (enc : EncodedPatientSolution.t) :
  maintains theatersReady (repairMandatoryPatient patient enc).
Proof. intros s r s' Hready H. by eapply maintains_tryDays. Qed.

Lemma maintains_repairOptionalPatient (patient : Patient.t)
    (enc : EncodedPatientSolution.t) :
  maintains theatersReady (repairOptionalPatient patient enc).
Proof.
  unfold repairOptionalPatient. generalize MAX_ATTEMPTS. intros n. revert enc.
  induction n as [|n IH]; intros enc; simpl.
  - apply maintains_ret.
  - apply maintains_bind.
    + intros s r s' Hready H. by eapply maintains_tryDays.
    + intros [[|] e]; simpl; [apply maintains_ret | apply IH].
Qed.

Lemma selectTheater_Some (patient : Patient.t) (day : Z)
    (ts : list OperatingTheaterState.t) (i : nat) (t : OperatingTheaterState.t) :
  selectTheater patient day ts = Some (i, t) → ts !! i = Some t.
Proof.
  unfold selectTheater.
  destruct (openTheaters patient day ts) as [|first rest] eqn:Hopen.
  - destruct (closedTheaters patient day ts) as [|firstc restc] eqn:Hclosed; [done|].
    intros [= Hbest].
    pose proof (pickClosed_spec day firstc (firstc :: restc)) as (Hin & _).
    simpl in Hin. rewrite Hbest in Hin.
    assert ((i, t) ∈ closedTheaters patient day ts) as Hin'.
    { rewrite Hclosed. destruct Hin as [->|?]; [by left | done]. }
    unfold closedTheaters in Hin'. by apply elem_of_indexed_filter in Hin' as [? _].
  - intros [= Hbest].
    pose proof (pickOpen_spec patient day first (first :: rest)) as (Hin & _).
    simpl in Hin. rewrite Hbest in Hin.
    assert ((i, t) ∈ openTheaters patient day ts) as Hin'.
    { rewrite Hopen. destruct Hin as [->|?]; [by left | done]. }
    unfold openTheaters in Hin'. by apply elem_of_indexed_filter in Hin' as [? _].
Qed.

Lemma maintains_commitPlacement (patient : Patient.t) (day : Z) (room_id : string) :
  maintains theatersReady (commitPlacement patient day room_id).
Proof.
  unfold commitPlacement.
  apply maintains_bind.
  { intros s a s' Hready. unfold assignSurgeon.
    destruct (findSurgeon _ _) as [[i sg]|]; [|done].
    destruct (vec_at _ day) as [budget|]; [|done]. simpl.
    destruct (vec_set _ day _) as [times|]; [|done]. simpl.
    by intros [= _ <-]. }
  intros _. apply maintains_bind.
  { intros s a s' Hready. unfold assignOperatingTheater.
    destruct (selectTheater _ _ _) as [[i t]|] eqn:Hsel; [|done].
    intros [= _ <-]. unfold theatersReady in *. simpl.
    apply selectTheater_Some in Hsel.
    assert (Forall (λ t, Forall (λ d, is_Some
                       (OperatingTheaterState.availability_per_day t !! d))
                       (seqZ 0 (ProblemInstance.days (problem s))))
                   (touchTheater day <$> Solution.theaterStates (solution s)))
      as Htouched.
    { apply Forall_fmap. eapply Forall_impl; [exact Hready|].
      intros t0. apply hasDays_touch. }
    apply Forall_insert; [done|].
    apply hasDays_book.
    rewrite Forall_lookup in Htouched. by eapply Htouched. }
  intros theater_id. apply maintains_bind.
  { intros s a s' Hready. unfold assignRoom.
    destruct (findRoomState _ _) as [[i rs]|]; [|done].
    destruct (res_foldl _ _ _) as [rs'|]; [|done]. simpl.
    by intros [= _ <-]. }
  intros _. by intros s a s' Hready [= _ <-].
Qed.

Lemma maintains_placePatient
    (repair : Patient.t → EncodedPatientSolution.t
              → M (bool * EncodedPatientSolution.t))
    (enc : EncodedPatientSolution.t) :
  (∀ p e, maintains theatersReady (repair p e))
  → maintains theatersReady (placePatient repair enc).
Proof.
  intros Hrepair. unfold placePatient.
  apply maintains_bind; [by intros s a s' Hready [= _ <-]|]. intros s0.
  destruct (findPatient _ _) as [[i patient]|]; [|by intros s a s' _].
  apply maintains_bind; [apply maintains_checkPlacement|]. intros [|].
  - apply maintains_bind; [apply maintains_commitPlacement|].
    intros _. apply maintains_ret.
  - apply maintains_bind; [apply Hrepair|]. intros [[|] e]; simpl.
    + apply maintains_bind; [apply maintains_commitPlacement|].
      intros _. apply maintains_ret.
    + apply maintains_bind; [by intros s a s' Hready [= _ <-]|].
      intros _. apply maintains_ret.
Qed.

Lemma initTheaterState_hasDays (days : Z) (theater : OperatingTheater.t)
    (t : OperatingTheaterState.t) :
  initTheaterState days theater = Ok t
  → Forall (λ d, is_Some (OperatingTheaterState.availability_per_day t !! d))
           (seqZ 0 days).
Proof.
  unfold initTheaterState.
  intros (av & Hav & [= <-])%res_bind_Ok. simpl.
  revert Hav. generalize (seqZ 0 days). intros l.
  assert (∀ m0 : gmap Z Z,
            res_foldl (λ m day,
                         x ← vec_at (OperatingTheater.availability theater) day;
                         Ok (<[day := x]> m)) m0 l = Ok av
            → ∀ d, d ∈ l ∨ is_Some (m0 !! d) → is_Some (av !! d)) as Hgen.
  { induction l as [|day l IH]; intros m0; simpl.
    - intros [= <-] d [?%elem_of_nil|?]; done.
    - intros (m1 & (x & _ & [= <-])%res_bind_Ok & Hrest)%res_bind_Ok d Hd.
      apply (IH _ Hrest).
      destruct Hd as [[->|?]%elem_of_cons|?].
      + right. rewrite lookup_insert_eq. by eexists.
      + by left.
      + right. destruct (decide (day = d)) as [->|Hne].
        * rewrite lookup_insert_eq. by eexists.
        * by rewrite lookup_insert_ne. }
  intros Hav. apply Forall_forall. intros d Hd. eapply Hgen; [done | by left].
Qed.

Lemma mapM_res_Forall {A B} (f : A → res B) (Q : B → Prop) (l : list A) (k : list B) :
  (∀ x y, f x = Ok y → Q y) → mapM f l = Ok k → Forall Q k.
Proof.
  intros Hf. revert k. induction l as [|x l IH]; intros k; simpl.
  - by intros [= <-].
  - intros (y & Hy & (k' & Hk' & [= <-])%res_bind_Ok)%res_bind_Ok.
    constructor; [by eapply Hf | by apply IH].
Qed.

Lemma initializeDynamicStates_ready (u : unit) (s s1 : Solver) :
  initializeDynamicStates s = Ok (u, s1) → theatersReady s1.
Proof.
  unfold initializeDynamicStates.
  destruct (mapM _ _) as [ts|] eqn:Hts; [|done]. simpl.
  intros [= _ <-]. unfold theatersReady. simpl.
  eapply mapM_res_Forall; [|exact Hts].
  intros theater t. apply initTheaterState_hasDays.
Qed.

(** Throughout the two processing loops of [solve] the theater states are
    ready: this is the situation in which the repair routines are called. *)
Lemma solvePatients_ready (encodedSolution : EncodedSolution.t)
    (locals : list EncodedPatientSolution.t * list EncodedPatientSolution.t)
    (s s' : Solver) :
  solvePatients encodedSolution s = Ok (locals, s') → theatersReady s'.
Proof.
  unfold solvePatients.
  intros (u & s1 & Hinit & H)%M_bind_Ok.
  apply initializeDynamicStates_ready in Hinit.
  revert H. generalize Hinit. generalize s1 locals s'. clear.
  change (maintains theatersReady
            (s ← get;
             split ← lift (splitEncoded (ProblemInstance.patients (problem s))
                             (EncodedSolution.encoded_patients encodedSolution));
             mandatoryEnc ← forM (placePatient repairMandatoryPatient) split.1;
             optionalEnc ← forM (placePatient repairOptionalPatient) split.2;
             mret (mandatoryEnc, optionalEnc))).
  apply maintains_bind; [by intros s a s' Hready [= _ <-]|]. intros s0.
  apply maintains_bind.
  { intros s a s' Hready. unfold lift.
    destruct (splitEncoded _ _); [by intros [= _ <-] | done]. }
  intros split. apply maintains_bind.
  { apply maintains_forM. intros enc. apply maintains_placePatient.
    apply maintains_repairMandatoryPatient. }
  intros m. apply maintains_bind.
  { apply maintains_forM. intros enc. apply maintains_placePatient.
    apply maintains_repairOptionalPatient. }
  intros o. apply maintains_ret.
Qed.

(** ** The properties on the small instance *)

(** C1 on the small instance. *)
Lemma solve_deterministic_witness :
  solve demoEnc demoSolver = Ok (((2, 5), demoEnc), demoSolved)
  ∧ solve demoEnc demoSolved = Ok (((2, 5), demoEnc), demoSolved).
Proof.
  assert (solve demoEnc demoSolver = Ok (((2, 5), demoEnc), demoSolved)) as H
    by (vm_compute; reflexivity).
  split; [exact H | exact (solve_deterministic _ _ _ _ _ H)].
Defined.

(** C2 on the small instance: the mandatory patient, encoded on day 0 in
    room r2, is repaired to day 1 in room r1. *)
Lemma repairMandatoryPatient_sound_witness :
  repairMandatoryPatient demoMandatory (EncodedPatientSolution.mk "p1" 0 "r2")
    demoInitial
  = Ok ((true, EncodedPatientSolution.mk "p1" 1 "r1"), demoInitial)
  ∧ checkSurgeonAvailability demoMandatory 1 demoInitial = Ok (true, demoInitial)
  ∧ checkOperatingTheaterAvailability demoMandatory 1 demoInitial
    = Ok (true, demoInitial)
  ∧ checkRoomAvailability demoMandatory 1 "r1" demoInitial = Ok (true, demoInitial).
Proof.
  assert (repairMandatoryPatient demoMandatory
            (EncodedPatientSolution.mk "p1" 0 "r2") demoInitial
          = Ok ((true, EncodedPatientSolution.mk "p1" 1 "r1"), demoInitial)) as H
    by (vm_compute; reflexivity).
  split; [exact H | exact (repairMandatoryPatient_sound _ _ _ _ _ H)].
Defined.

(** C8 on the small instance: the same repair leaves the initialised solver
    as it was. *)
Lemma repair_leaves_pools_witness :
  theatersReady demoInitial
  ∧ repairMandatoryPatient demoMandatory (EncodedPatientSolution.mk "p1" 0 "r2")
      demoInitial
    = Ok ((true, EncodedPatientSolution.mk "p1" 1 "r1"), demoInitial)
  ∧ demoInitial = demoInitial
  ∧ EncodedPatientSolution.patient_id (EncodedPatientSolution.mk "p1" 1 "r1")
    = EncodedPatientSolution.patient_id (EncodedPatientSolution.mk "p1" 0 "r2")
  ∧ (true = false
     → EncodedPatientSolution.mk "p1" 1 "r1" = EncodedPatientSolution.mk "p1" 0 "r2").
Proof.
  assert (theatersReady demoInitial) as Hready.
  { unfold theatersReady. apply (bool_decide_unpack _). vm_compute. exact I. }
  assert (repairMandatoryPatient demoMandatory
            (EncodedPatientSolution.mk "p1" 0 "r2") demoInitial
          = Ok ((true, EncodedPatientSolution.mk "p1" 1 "r1"), demoInitial)) as H
    by (vm_compute; reflexivity).
  split; [exact Hready|]. split; [exact H|].
  exact (repair_leaves_pools _ _ _ _ _ _ Hready (or_introl H)).
Defined.

(** C7 (as amended) on the small instance. *)
Lemma solve_records_relocation_witness :
  solve demoEnc demoSolver = Ok (((2, 5), demoEnc), demoSolved)
  ∧ demoEnc = demoEnc
  ∧ ∃ mandatoryEnc optionalEnc s1,
      solvePatients demoEnc demoSolver = Ok ((mandatoryEnc, optionalEnc), s1)
      ∧ Forall2 recorded (mandatoryEnc ++ optionalEnc) (decodedPatients demoSolved).
Proof.
  assert (solve demoEnc demoSolver = Ok (((2, 5), demoEnc), demoSolved)) as H
    by (vm_compute; reflexivity).
  split; [exact H | exact (solve_records_relocation _ _ _ _ _ H)].
Defined.

(** C7 as stated fails on the small instance: the placement encoded for the
    mandatory patient, (day 0, room r2), fails the checks; repair relocates
    the patient to (day 1, room r1), which is what the decoded solution
    records; the encoded solution that [solve] hands back still says
    (day 0, room r2). *)
Lemma solve_encoding_not_mutated :
  outcome (checkPlacement demoMandatory 0 "r2" demoInitial) = Ok false
  ∧ outcome (repairMandatoryPatient demoMandatory
               (EncodedPatientSolution.mk "p1" 0 "r2") demoInitial)
    = Ok (true, EncodedPatientSolution.mk "p1" 1 "r1")
  ∧ ∃ enc' s',
      solve demoEnc demoSolver = Ok (((2, 5), enc'), s')
      ∧ decodedPatients s' !! 0%nat
        = Some (PatientAssignment.mk "p1" (Some 1) "r1" "t1")
      ∧ EncodedSolution.encoded_patients enc' !! 0%nat
        = Some (EncodedPatientSolution.mk "p1" 0 "r2").
Proof.
  split; [by vm_compute|]. split; [by vm_compute|].
  exists demoEnc, demoSolved. split_and!; by vm_compute.
Qed.


(** C3 on the small instance: after decoding, theater t1 hosts both patients
    on day 1 and still offers 40; a further surgery of 30 that day is booked
    there. *)
Lemma assignOperatingTheater_policy_witness :
  (∃ t, t ∈ Solution.theaterStates (solution demoDecoded)
        ∧ Patient.surgery_duration demoMandatory ≤ theaterAvailability t 1
        ∧ ∃ p l, OperatingTheaterState.patients_per_day t !! 1 = Some (p :: l))
  ∧ ∃ i t,
      Solution.theaterStates (solution demoDecoded) !! i = Some t
      ∧ outcome (assignOperatingTheater demoMandatory 1 demoDecoded)
        = Ok (OperatingTheater.id (OperatingTheaterState.theater_info t))
      ∧ ∀ t', t' ∈ Solution.theaterStates (solution demoDecoded)
              → Patient.surgery_duration demoMandatory ≤ theaterAvailability t' 1
              → (∃ p l, OperatingTheaterState.patients_per_day t' !! 1 = Some (p :: l))
              → theaterAvailability t 1 - Patient.surgery_duration demoMandatory
                ≤ theaterAvailability t' 1 - Patient.surgery_duration demoMandatory.
Proof.
  assert (∃ t, t ∈ Solution.theaterStates (solution demoDecoded)
               ∧ Patient.surgery_duration demoMandatory ≤ theaterAvailability t 1
               ∧ ∃ p l, OperatingTheaterState.patients_per_day t !! 1 = Some (p :: l))
    as Hex.
  { eexists. split; [vm_compute; left|]. split; [by vm_compute|].
    eexists _, _. vm_compute. reflexivity. }
  split; [exact Hex|].
  destruct (proj1 (assignOperatingTheater_policy demoDecoded demoMandatory 1) Hex)
    as (i & t & (Hi & Hassign) & _ & _ & Hmin).
  exists i, t. split; [exact Hi|]. split; [|exact Hmin].
  rewrite Hassign. reflexivity.
Defined.

(** C6 on the small instance: rooms r1 and r2 are occupied on day 1 and no
    nurse works a late shift, so H8 counts two violations. *)
Lemma H8_counts_uncovered_witness :
  H8 (originalProblem demoSolved) (solution demoSolved) = 2
  ∧ length (uncoveredTriples (originalProblem demoSolved) (solution demoSolved))
    = 2%nat
  ∧ ∀ room_id day,
      ¬ coveredBy (Solution.nurses (solution demoSolved)) room_id day "late".
Proof.
  destruct (H8_counts_uncovered (originalProblem demoSolved) (solution demoSolved))
    as (Hcount & _ & Hnone).
  split; [by vm_compute|]. split.
  - apply Nat2Z.inj. rewrite <- Hcount. by vm_compute.
  - apply Hnone.
    assert (Forall (λ na, Forall (λ sa, ShiftAssignment.shift sa ≠ "late")
                                 (NurseAssignment.assignments na))
                   (Solution.nurses (solution demoSolved))) as Hall.
    { apply (bool_decide_unpack _). vm_compute. exact I. }
    intros na sa Hna Hsa.
    rewrite Forall_forall in Hall. specialize (Hall na Hna).
    rewrite Forall_forall in Hall. by apply Hall.
Defined.

(* ===================================================================== *)
(** * Further properties of the solver *)
(* ===================================================================== *)

(** ** Initialisation resets what a decode consumed *)

(** X1.  Whatever a completed [solve] did to the surgeon budgets and to the
    dynamic state, initialising again gives exactly what initialising gave
    before the call; in particular initialising twice in a row changes
    nothing. *)
Theorem initializeDynamicStates_resets (encodedSolution : EncodedSolution.t)
    (r : (Z * Z) * EncodedSolution.t) (u : unit) (s s1 s' : Solver) :
  initializeDynamicStates s = Ok (u, s1)
  → solve encodedSolution s = Ok (r, s')
  → initializeDynamicStates s1 = Ok (u, s1)
    ∧ initializeDynamicStates s' = Ok (u, s1).
Proof.
  intros Hinit Hsolve. split.
  - rewrite <- Hinit. apply initializeDynamicStates_definition.
    eapply keeps_initializeDynamicStates, Hinit.
  - rewrite <- Hinit. apply initializeDynamicStates_definition.
    eapply keeps_solve, Hsolve.
Qed.

(** ** The acceptance order of the local search *)

(** X2.  [isBetterFitness] is a strict total order on score pairs: nothing is
    better than itself, the relation is transitive, and of two different
    scores exactly one is better than the other. *)
Theorem isBetterFitness_strict_order (a b c : Z * Z) :
  isBetterFitness a a = false
  ∧ (isBetterFitness a b = true → isBetterFitness b c = true
     → isBetterFitness a c = true)
  ∧ (isBetterFitness a b = true → isBetterFitness b a = false)
  ∧ (a ≠ b → isBetterFitness a b = true ∨ isBetterFitness b a = true).
Proof.
  destruct a as [a1 a2], b as [b1 b2], c as [c1 c2].
  rewrite !isBetterFitness_spec.
  split_and!.
  - apply not_true_is_false. rewrite isBetterFitness_spec. simpl. lia.
  - simpl. lia.
  - intros H. apply not_true_is_false. rewrite isBetterFitness_spec.
    simpl in *. lia.
  - intros Hne. simpl.
    destruct (decide (a1 = b1)) as [->|?]; [|lia].
    destruct (decide (a2 = b2)) as [->|?]; [done | lia].
Qed.

(** ** Theater check and theater booking *)

Lemma theaterAvailable_spec (ts : list OperatingTheaterState.t)
    (patient : Patient.t) (day : Z) :
  (theaterAvailable ts patient day).1 = true
  ↔ ∃ t, t ∈ ts ∧ Patient.surgery_duration patient ≤ theaterAvailability t day.
Proof.
  induction ts as [|t ts IH]; simpl.
  - split; [done | by intros (t & ?%elem_of_nil & _)].
  - case_bool_decide as Hfit; simpl.
    + split; [|done]. intros _. exists t. split; [by left | done].
    + destruct (theaterAvailable ts patient day) as [b r]. simpl in *.
      rewrite IH. split.
      * intros (t' & Hin & Hle). exists t'. split; [by right | done].
      * intros (t' & [->|Hin]%elem_of_cons & Hle); [done | by exists t'].
Qed.

(** X3.  [checkOperatingTheaterAvailability] always returns; it returns true
    exactly when some theater's availability on [day] covers the surgery,
    and the state it leaves differs from the one it found at most by
    zero-valued availability entries created by the reads. *)
Theorem checkOperatingTheaterAvailability_spec (patient : Patient.t) (day : Z)
    (s : Solver) :
  ∃ (b : bool) (s' : Solver),
    checkOperatingTheaterAvailability patient day s = Ok (b, s')
    ∧ touchEquiv s s'
    ∧ (b = true
       ↔ ∃ t, t ∈ Solution.theaterStates (solution s)
              ∧ Patient.surgery_duration patient ≤ theaterAvailability t day).
Proof.
  unfold checkOperatingTheaterAvailability.
  pose proof (theaterAvailable_spec (Solution.theaterStates (solution s))
                patient day) as Hspec.
  pose proof (theaterAvailable_touch (Solution.theaterStates (solution s))
                patient day) as Htouch.
  destruct (theaterAvailable _ patient day) as [b ts']. simpl in *.
  eexists b, _. split; [done|]. split; [|done].
  by exists ts'.
Qed.

Lemma selectTheater_is_Some (patient : Patient.t) (day : Z)
    (ts : list OperatingTheaterState.t) :
  is_Some (selectTheater patient day (touchTheater day <$> ts))
  ↔ ∃ t, t ∈ ts ∧ Patient.surgery_duration patient ≤ theaterAvailability t day.
Proof.
  unfold selectTheater. split.
  - destruct (openTheaters patient day (touchTheater day <$> ts))
      as [|[i t'] rest] eqn:Hopen.
    + destruct (closedTheaters patient day (touchTheater day <$> ts))
        as [|[i t'] rest] eqn:Hclosed; [by intros [? [=]]|].
      intros _.
      assert ((i, t') ∈ closedTheaters patient day (touchTheater day <$> ts)) as Hin.
      { rewrite Hclosed. by left. }
      apply elem_of_closedTheaters in Hin as (t & Hi & _ & Hf & _).
      exists t. split; [by eapply list_elem_of_lookup_2|].
      unfold theaterFits in Hf. by apply bool_decide_eq_true in Hf.
    + intros _.
      assert ((i, t') ∈ openTheaters patient day (touchTheater day <$> ts)) as Hin.
      { rewrite Hopen. by left. }
      apply elem_of_openTheaters in Hin as (t & Hi & _ & Hf & _).
      exists t. split; [by eapply list_elem_of_lookup_2|].
      unfold theaterFits in Hf. by apply bool_decide_eq_true in Hf.
  - intros (t & [i Hi]%list_elem_of_lookup & Hle).
    assert (theaterFits patient day t = true) as Hf.
    { unfold theaterFits. by apply bool_decide_eq_true. }
    destruct (openTheaters patient day (touchTheater day <$> ts))
      as [|first rest] eqn:Hopen; [|by eexists].
    destruct (closedTheaters patient day (touchTheater day <$> ts))
      as [|firstc restc] eqn:Hclosed; [|by eexists].
    exfalso. destruct (theaterIsOpen t day) eqn:Ho.
    + assert ((i, touchTheater day t)
              ∈ openTheaters patient day (touchTheater day <$> ts)) as Hin.
      { apply elem_of_openTheaters. by exists t. }
      rewrite Hopen in Hin. by apply elem_of_nil in Hin.
    + assert ((i, touchTheater day t)
              ∈ closedTheaters patient day (touchTheater day <$> ts)) as Hin.
      { apply elem_of_closedTheaters. by exists t. }
      rewrite Hclosed in Hin. by apply elem_of_nil in Hin.
Qed.

(** The check and the commit read the same availabilities. *)
Lemma assignOperatingTheater_agrees (patient : Patient.t) (day : Z)
    (s : Solver) :
  (outcome (checkOperatingTheaterAvailability patient day s) = Ok true
   ↔ ∃ theater_id s',
       assignOperatingTheater patient day s = Ok (theater_id, s'))
  ∧ (outcome (checkOperatingTheaterAvailability patient day s) = Ok false
     ↔ assignOperatingTheater patient day s = Err CapacityFault).
Proof.
  pose proof (theaterAvailable_spec (Solution.theaterStates (solution s))
                patient day) as Hcheck.
  pose proof (selectTheater_is_Some patient day
                (Solution.theaterStates (solution s))) as Hsel.
  unfold checkOperatingTheaterAvailability, assignOperatingTheater.
  destruct (theaterAvailable _ patient day) as [b ts']. simpl in *.
  destruct (selectTheater _ _ _) as [[i t]|].
  - assert (b = true) as -> by (apply Hcheck, Hsel; by eexists).
    split; split; try done. intros _. by eexists _, _.
  - assert (b = false) as ->.
    { destruct b; [|done]. destruct Hsel as [_ Hsel].
      destruct Hsel as [? [=]]. by apply Hcheck. }
    split; split; try done. by intros (? & ? & [=]).
Qed.

(** X4.  Check and commit agree on theaters: [assignOperatingTheater] books a
    theater exactly when [checkOperatingTheaterAvailability] returns true on
    the same state, and raises the capacity fault exactly when the check
    returns false. *)
Theorem assignOperatingTheater_iff_check (patient : Patient.t) (day : Z)
    (s : Solver) :
  (outcome (checkOperatingTheaterAvailability patient day s) = Ok true
   ↔ ∃ theater_id s',
       assignOperatingTheater patient day s = Ok (theater_id, s'))
  ∧ (outcome (checkOperatingTheaterAvailability patient day s) = Ok false
     ↔ assignOperatingTheater patient day s = Err CapacityFault).
Proof. exact (assignOperatingTheater_agrees patient day s). Qed.

(** ** What initialisation builds *)

Lemma seedOccupant_spec (days : Z) (occupant : Occupant.t) (rs : RoomState.t) :
  let rs' := seedOccupant days occupant rs in
  let stay d := 0 ≤ d < Z.min (Occupant.length_of_stay occupant) days in
  RoomState.room_info rs' = RoomState.room_info rs
  ∧ RoomState.patients_per_day rs' = RoomState.patients_per_day rs
  ∧ ∀ d,
      RoomState.capacity_per_day rs' !! d
      = (if decide (stay d)
         then Some (map_read (RoomState.capacity_per_day rs) d - 1)
         else RoomState.capacity_per_day rs !! d)
      ∧ RoomState.occupants_per_day rs' !! d
        = (if decide (stay d)
           then Some (occupantsOn rs d ++ [occupant])
           else RoomState.occupants_per_day rs !! d).
Proof.
  unfold seedOccupant.
  set (n := Z.min (Occupant.length_of_stay occupant) days).
  set (step := λ (rs : RoomState.t) (day : Z),
         RoomState.mk (RoomState.room_info rs)
           (<[day := map_read (RoomState.capacity_per_day rs) day - 1]>
              (RoomState.capacity_per_day rs))
           (RoomState.patients_per_day rs)
           (map_push (RoomState.occupants_per_day rs) day occupant)).
  assert (∀ l rs0, NoDup l →
            RoomState.room_info (foldl step rs0 l) = RoomState.room_info rs0
            ∧ RoomState.patients_per_day (foldl step rs0 l)
              = RoomState.patients_per_day rs0
            ∧ ∀ d,
                RoomState.capacity_per_day (foldl step rs0 l) !! d
                = (if decide (d ∈ l)
                   then Some (map_read (RoomState.capacity_per_day rs0) d - 1)
                   else RoomState.capacity_per_day rs0 !! d)
                ∧ RoomState.occupants_per_day (foldl step rs0 l) !! d
                  = (if decide (d ∈ l)
                     then Some (occupantsOn rs0 d ++ [occupant])
                     else RoomState.occupants_per_day rs0 !! d)) as Hgen.
  { induction l as [|x l IH]; intros rs0 Hnd; simpl.
    - split_and!; [done..|]. by intros d.
    - apply NoDup_cons in Hnd as [Hx Hnd].
      destruct (IH (step rs0 x) Hnd) as (Hinfo & Hpat & Hmaps).
      split_and!; [done..|]. intros d. destruct (Hmaps d) as [Hc Ho].
      rewrite Hc, Ho. clear Hc Ho. unfold step. simpl.
      unfold occupantsOn, map_read, map_push. simpl.
      destruct (decide (d ∈ l)) as [Hin|Hnin].
      + rewrite !decide_True by (by right).
        assert (x ≠ d) by (by intros ->).
        by rewrite !lookup_insert_ne by done.
      + destruct (decide (x = d)) as [->|Hne].
        * rewrite !decide_True by (by left). by rewrite !lookup_insert_eq.
        * rewrite !decide_False by (by intros [->|?]%elem_of_cons).
          by rewrite !lookup_insert_ne by done. }
  destruct (Hgen (seqZ 0 n) rs (NoDup_seqZ _ _)) as (Hinfo & Hpat & Hmaps).
  split_and!; [done..|]. intros d. destruct (Hmaps d) as [Hc Ho].
  rewrite Hc, Ho.
  destruct (decide (d ∈ seqZ 0 n)) as [Hin|Hnin].
  - apply elem_of_seqZ in Hin. by rewrite !decide_True by lia.
  - rewrite elem_of_seqZ in Hnin. by rewrite !decide_False by lia.
Qed.

Lemma initRoomState_seeded (days : Z) (occupants : list Occupant.t)
    (room : Room.t) :
  seededRoom days occupants room (initRoomState days occupants room).
Proof.
  unfold initRoomState.
  set (fresh := RoomState.mk room
                  (foldl (λ m day, <[day := Room.capacity room]> m) ∅ (seqZ 0 days))
                  ∅ ∅).
  set (f := λ (rs : RoomState.t) (occupant : Occupant.t),
         if bool_decide (Occupant.room_id occupant = Room.id room)
         then seedOccupant days occupant rs else rs).
  assert (∀ occs pre rs,
            seededRoom days pre room rs
            → seededRoom days (pre ++ occs) room (foldl f rs occs)) as Hgen.
  { induction occs as [|o occs IH]; intros pre rs Hrs; simpl.
    - by rewrite app_nil_r.
    - replace (pre ++ o :: occs) with ((pre ++ [o]) ++ occs)
        by (by rewrite <- app_assoc).
      apply IH. clear IH. destruct Hrs as (Hinfo & Hpat & Hday).
      unfold f. case_bool_decide as Hroom.
      + destruct (seedOccupant_spec days o rs) as (Hinfo' & Hpat' & Hmaps).
        split_and!; [congruence | congruence |]. intros d.
        destruct (Hmaps d) as [Hc Ho]. destruct (Hday d) as [Hocc Hcap].
        unfold occupantsPresent in *. rewrite filter_app.
        unfold occupantsOn at 1. rewrite Ho, Hc.
        destruct (decide (0 ≤ d < Z.min (Occupant.length_of_stay o) days))
          as [Hin|Hout].
        * rewrite filter_cons_True by done. rewrite filter_nil. simpl.
          rewrite Hocc.
          split; [done|]. unfold map_read. rewrite Hcap.
          rewrite !decide_True by lia. simpl. rewrite length_app. simpl.
          f_equal. lia.
        * rewrite filter_cons_False by tauto. rewrite filter_nil, app_nil_r.
          split; [exact Hocc | exact Hcap].
      + split_and!; [done..|]. intros d. destruct (Hday d) as [Hocc Hcap].
        unfold occupantsPresent in *. rewrite filter_app.
        rewrite filter_cons_False by tauto. rewrite filter_nil, app_nil_r.
        done. }
  apply (Hgen occupants [] fresh).
  split_and!; [done..|]. intros d. unfold occupantsPresent. rewrite filter_nil.
  split; [done|]. simpl. rewrite Z.sub_0_r.
  assert (∀ l (m0 : gmap Z Z),
            foldl (λ m day, <[day := Room.capacity room]> m) m0 l !! d
            = if decide (d ∈ l) then Some (Room.capacity room) else m0 !! d) as Hcap.
  { induction l as [|x l IH]; intros m0; simpl.
    - done.
    - rewrite IH. destruct (decide (d ∈ l)) as [Hin|Hnin].
      + by rewrite decide_True by (by right).
      + destruct (decide (x = d)) as [->|Hne].
        * rewrite decide_True by (by left). by rewrite lookup_insert_eq.
        * rewrite decide_False by (by intros [->|?]%elem_of_cons).
          by rewrite lookup_insert_ne. }
  rewrite Hcap, lookup_empty.
  destruct (decide (d ∈ seqZ 0 days)) as [Hin|Hnin].
  - rewrite decide_True; [done|]. apply elem_of_seqZ in Hin. lia.
  - rewrite decide_False; [done|]. rewrite elem_of_seqZ in Hnin. lia.
Qed.

(** The room states after initialisation, room by room. *)
Lemma initializeDynamicStates_seeds (u : unit) (s s1 : Solver) :
  initializeDynamicStates s = Ok (u, s1)
  → Forall2 (seededRoom (ProblemInstance.days (problem s))
               (ProblemInstance.occupants (problem s)))
            (ProblemInstance.rooms (problem s))
            (Solution.roomStates (solution s1)).
Proof.
  unfold initializeDynamicStates.
  destruct (mapM _ _) as [ts|]; [|done]. simpl. intros [= _ <-]. simpl.
  apply Forall2_fmap_r, Forall_Forall2_diag, Forall_forall.
  intros room _. apply initRoomState_seeded.
Qed.

(** X5.  After initialisation there is one room state per room, in order,
    with no assigned patient; on each day it lists the occupants declared in
    that room whose remaining stay (clipped to the horizon) covers the day,
    in declaration order, and its remaining capacity on each day of the
    horizon is the room capacity minus the number of those occupants; no
    capacity entry exists outside the horizon. *)
Theorem initializeDynamicStates_rooms (u : unit) (s s1 : Solver) :
  initializeDynamicStates s = Ok (u, s1)
  → Forall2 (seededRoom (ProblemInstance.days (problem s))
               (ProblemInstance.occupants (problem s)))
            (ProblemInstance.rooms (problem s))
            (Solution.roomStates (solution s1)).
Proof. exact (initializeDynamicStates_seeds u s s1). Qed.

Lemma vec_at_range {A} (v : list A) (i : Z) :
  (0 ≤ i < Z.of_nat (length v) → ∃ x, vec_at v i = Ok x ∧ v !! Z.to_nat i = Some x)
  ∧ (¬ 0 ≤ i < Z.of_nat (length v) → vec_at v i = Err Undefined).
Proof.
  unfold vec_at. split.
  - intros Hi. rewrite bool_decide_true by lia.
    destruct (v !! Z.to_nat i) as [x|] eqn:Hx; [by exists x|].
    apply lookup_ge_None in Hx. lia.
  - intros Hi. case_bool_decide; [|done].
    destruct (v !! Z.to_nat i) as [x|] eqn:Hx; [|done].
    apply lookup_lt_Some in Hx. lia.
Qed.

Lemma initTheaterState_spec (days : Z) (theater : OperatingTheater.t) :
  (days ≤ Z.of_nat (length (OperatingTheater.availability theater))
   → ∃ t, initTheaterState days theater = Ok t ∧ seededTheater days theater t)
  ∧ (Z.of_nat (length (OperatingTheater.availability theater)) < days
     → initTheaterState days theater = Err Undefined).
Proof.
  unfold initTheaterState.
  set (av := OperatingTheater.availability theater).
  set (f := λ (m : gmap Z Z) (day : Z), x ← vec_at av day; Ok (<[day := x]> m)).
  assert (∀ l (m0 : gmap Z Z),
            (∀ d, d ∈ l → 0 ≤ d < Z.of_nat (length av))
            → ∃ m, res_foldl f m0 l = Ok m
                   ∧ ∀ d, m !! d = if decide (d ∈ l) then av !! Z.to_nat d
                                   else m0 !! d) as Hok.
  { induction l as [|x l IH]; intros m0 Hl; simpl.
    - exists m0. split; [done|]. by intros d.
    - destruct (proj1 (vec_at_range av x)) as (v & Hv & Hlook); [apply Hl; by left|].
      assert (f m0 x = Ok (<[x := v]> m0)) as -> by (unfold f; by rewrite Hv).
      simpl.
      destruct (IH (<[x := v]> m0)) as (m & Hm & Hm'); [intros; apply Hl; by right|].
      exists m. split; [done|]. intros d. rewrite Hm'.
      destruct (decide (d ∈ l)) as [Hin|Hnin].
      + by rewrite decide_True by (by right).
      + destruct (decide (x = d)) as [->|Hne].
        * rewrite decide_True by (by left). by rewrite lookup_insert_eq.
        * rewrite decide_False by (by intros [->|?]%elem_of_cons).
          by rewrite lookup_insert_ne. }
  assert (∀ l (m0 : gmap Z Z),
            (∃ d, d ∈ l ∧ ¬ 0 ≤ d < Z.of_nat (length av))
            → res_foldl f m0 l = Err Undefined) as Herr.
  { induction l as [|x l IH]; intros m0 (d & Hd & Hout); simpl.
    - by apply elem_of_nil in Hd.
    - destruct (decide (0 ≤ x < Z.of_nat (length av))) as [Hx|Hx].
      + destruct (proj1 (vec_at_range av x) Hx) as (v & Hv & _).
        assert (f m0 x = Ok (<[x := v]> m0)) as -> by (unfold f; by rewrite Hv).
        simpl. apply IH.
        apply elem_of_cons in Hd as [->|Hd]; [done | by exists d].
      + assert (f m0 x = Err Undefined) as ->; [|done].
        unfold f. by rewrite (proj2 (vec_at_range av x) Hx). }
  split.
  - intros Hlen.
    destruct (Hok (seqZ 0 days) ∅) as (m & Hm & Hm').
    { intros d Hd%elem_of_seqZ. lia. }
    rewrite Hm. simpl. eexists. split; [done|].
    split_and!; [done..|]. intros d. simpl. rewrite Hm', lookup_empty.
    destruct (decide (d ∈ seqZ 0 days)) as [Hin|Hnin].
    + apply elem_of_seqZ in Hin. by rewrite decide_True by lia.
    + rewrite elem_of_seqZ in Hnin. by rewrite decide_False by lia.
  - intros Hlen. rewrite Herr; [done|].
    exists (Z.of_nat (length av)). rewrite elem_of_seqZ. lia.
Qed.

Lemma mapM_res_all {A B} (f : A → res B) (R : A → B → Prop) (l : list A) :
  (∀ x, x ∈ l → ∃ y, f x = Ok y ∧ R x y)
  → ∃ k, mapM f l = Ok k ∧ Forall2 R l k.
Proof.
  induction l as [|x l IH]; intros Hl; simpl.
  - by exists [].
  - destruct (Hl x) as (y & Hy & HR); [by left|].
    destruct IH as (k & Hk & HF); [intros; apply Hl; by right|].
    exists (y :: k). rewrite Hy. simpl. rewrite Hk. simpl.
    split; [done | by constructor].
Qed.

Lemma mapM_res_fault {A B} (f : A → res B) (e : fault) (l : list A) :
  (∀ x, x ∈ l → (∃ y, f x = Ok y) ∨ f x = Err e)
  → (∃ x, x ∈ l ∧ f x = Err e)
  → mapM f l = Err e.
Proof.
  induction l as [|x l IH]; intros Hl (x0 & Hin & Herr); simpl.
  - by apply elem_of_nil in Hin.
  - destruct (Hl x) as [[y Hy]|Hx]; [by left| |by rewrite Hx].
    rewrite Hy. simpl. rewrite IH; [done | intros; apply Hl; by right |].
    apply elem_of_cons in Hin as [->|Hin]; [congruence | by exists x0].
Qed.

(** X6.  Initialisation succeeds exactly when every theater declares an
    availability for each day of the horizon, and otherwise reads past a
    theater's availability vector.  On success there is one theater state
    per theater, in order, with no patient and the declared availability on
    each day of the horizon (and no entry outside it); the surgeon budgets
    are those of the pristine problem and the decoded patients, nurses and
    soft costs are empty. *)
Theorem initializeDynamicStates_theaters (s : Solver) :
  let days := ProblemInstance.days (problem s) in
  let covered :=
    ∀ theater, theater ∈ ProblemInstance.theaters (problem s)
               → days ≤ Z.of_nat (length (OperatingTheater.availability theater)) in
  (covered
   → ∃ s1, initializeDynamicStates s = Ok (tt, s1)
           ∧ Forall2 (seededTheater days) (ProblemInstance.theaters (problem s))
                     (Solution.theaterStates (solution s1))
           ∧ ProblemInstance.surgeons (problem s1)
             = ProblemInstance.surgeons (originalProblem s)
           ∧ Solution.patients (solution s1) = []
           ∧ Solution.nurses (solution s1) = []
           ∧ Solution.soft_constraints (solution s1) = [])
  ∧ (¬ covered → initializeDynamicStates s = Err Undefined).
Proof.
  intros days covered. unfold initializeDynamicStates. simpl. split.
  - intros Hcov.
    destruct (mapM_res_all (initTheaterState days) (seededTheater days)
                (ProblemInstance.theaters (problem s))) as (ts & Hts & HF).
    { intros theater Hin. by apply initTheaterState_spec, Hcov. }
    fold days. rewrite Hts. simpl. by eexists.
  - intros Hncov. fold days.
    rewrite (mapM_res_fault _ Undefined); [done| |].
    + intros theater Hin.
      destruct (decide (days ≤ Z.of_nat (length (OperatingTheater.availability theater))))
        as [Hle|Hgt].
      * left. destruct (proj1 (initTheaterState_spec days theater) Hle) as (t & Ht & _).
        by exists t.
      * right. apply initTheaterState_spec. lia.
    + assert (¬ Forall (λ theater,
                          days ≤ Z.of_nat (length (OperatingTheater.availability theater)))
                       (ProblemInstance.theaters (problem s))) as Hnall.
      { rewrite Forall_forall. exact Hncov. }
      apply not_Forall_Exists in Hnall; [|apply _].
      apply Exists_exists in Hnall as (theater & Hin & Hshort). simpl in Hshort.
      exists theater. split; [done|]. apply initTheaterState_spec. lia.
Qed.

(** ** Room commit *)

Lemma res_foldl_cons {A B} (f : A → B → res A) (a : A) (x : B) (l : list B) :
  res_foldl f a (x :: l) = f a x ≫= λ a', res_foldl f a' l.
Proof. done. Qed.

Lemma occupyDays_ok (patient : Patient.t) (l : list Z) (rs : RoomState.t) :
  NoDup l
  → (∀ d, d ∈ l → ∃ c, RoomState.capacity_per_day rs !! d = Some c ∧ 0 < c)
  → ∃ rs', res_foldl (occupyDay patient) rs l = Ok rs'
           ∧ RoomState.room_info rs' = RoomState.room_info rs
           ∧ RoomState.occupants_per_day rs' = RoomState.occupants_per_day rs
           ∧ ∀ d,
               if decide (d ∈ l)
               then RoomState.capacity_per_day rs' !! d
                    = (λ c, c - 1) <$> RoomState.capacity_per_day rs !! d
                    ∧ RoomState.patients_per_day rs' !! d
                      = Some (patientsOn rs d ++ [patient])
               else RoomState.capacity_per_day rs' !! d
                    = RoomState.capacity_per_day rs !! d
                    ∧ RoomState.patients_per_day rs' !! d
                      = RoomState.patients_per_day rs !! d.
Proof.
  revert rs. induction l as [|x l IH]; intros rs Hnd Hcap.
  - exists rs. split_and!; [done..|]. intros d.
    by rewrite decide_False by apply not_elem_of_nil.
  - apply NoDup_cons in Hnd as [Hx Hnd].
    destruct (Hcap x) as (c & Hc & Hpos); [by left|].
    set (rs1 := RoomState.mk (RoomState.room_info rs)
                  (<[x := c - 1]> (RoomState.capacity_per_day rs))
                  (map_push (RoomState.patients_per_day rs) x patient)
                  (RoomState.occupants_per_day rs)).
    assert (occupyDay patient rs x = Ok rs1) as Hstep.
    { unfold occupyDay. rewrite Hc. by rewrite bool_decide_false by lia. }
    rewrite res_foldl_cons, Hstep. simpl.
    destruct (IH rs1 Hnd) as (rs' & Hfold & Hinfo & Hocc & Hmaps).
    { intros d Hd. destruct (Hcap d) as (c' & Hc' & Hpos'); [by right|].
      exists c'. split; [|done]. simpl.
      rewrite lookup_insert_ne; [done|]. by intros ->. }
    exists rs'. subst rs1. simpl in *.
    split_and!; [done..|]. intros d. specialize (Hmaps d).
    destruct (decide (d ∈ l)) as [Hin|Hnin].
    + rewrite decide_True by (by right). destruct Hmaps as [Hc1 Hp1].
      assert (x ≠ d) by (by intros ->).
      rewrite Hc1, Hp1. unfold patientsOn, map_push. simpl.
      by rewrite !lookup_insert_ne by done.
    + destruct Hmaps as [Hc1 Hp1]. rewrite Hc1, Hp1. simpl.
      destruct (decide (x = d)) as [->|Hne].
      * rewrite decide_True by (by left). unfold map_push, patientsOn.
        by rewrite !lookup_insert_eq, Hc.
      * rewrite decide_False by (by intros [->|?]%elem_of_cons).
        unfold map_push. by rewrite !lookup_insert_ne by done.
Qed.

Lemma occupyDays_fault (patient : Patient.t) (l : list Z) (rs : RoomState.t) :
  NoDup l
  → (∃ d, d ∈ l ∧ ¬ ∃ c, RoomState.capacity_per_day rs !! d = Some c ∧ 0 < c)
  → res_foldl (occupyDay patient) rs l = Err CapacityFault.
Proof.
  revert rs. induction l as [|x l IH]; intros rs Hnd (d & Hd & Hno).
  - by apply elem_of_nil in Hd.
  - apply NoDup_cons in Hnd as [Hx Hnd].
    rewrite res_foldl_cons.
    destruct (RoomState.capacity_per_day rs !! x) as [c|] eqn:Hc.
    2:{ assert (occupyDay patient rs x = Err CapacityFault) as ->; [|done].
        unfold occupyDay. by rewrite Hc. }
    destruct (decide (c ≤ 0)) as [Hle|Hle].
    { assert (occupyDay patient rs x = Err CapacityFault) as ->; [|done].
      unfold occupyDay. rewrite Hc. by rewrite bool_decide_true by done. }
    assert (occupyDay patient rs x
            = Ok (RoomState.mk (RoomState.room_info rs)
                    (<[x := c - 1]> (RoomState.capacity_per_day rs))
                    (map_push (RoomState.patients_per_day rs) x patient)
                    (RoomState.occupants_per_day rs))) as ->.
    { unfold occupyDay. rewrite Hc. by rewrite bool_decide_false by done. }
    simpl. apply IH; [done|].
    apply elem_of_cons in Hd as [->|Hd].
    + destruct Hno. exists c. split; [done | lia].
    + exists d. split; [done|]. simpl.
      rewrite lookup_insert_ne; [done|]. by intros ->.
Qed.

(** The three ways [assignRoom] can end. *)
Lemma assignRoom_cases (patient : Patient.t) (day : Z) (room_id : string)
    (s : Solver) :
  let days := ProblemInstance.days (problem s) in
  match findRoomState (Solution.roomStates (solution s)) room_id with
  | None => assignRoom patient day room_id s = Err DataFault
  | Some (i, rs) =>
      (hasCapacity days rs patient day
       → ∃ rs', assignRoom patient day room_id s
                = Ok (tt, set_solution
                            (Solution.set_roomStates
                               (<[i := rs']> (Solution.roomStates (solution s)))
                               (solution s)) s)
                ∧ occupied days patient day rs rs')
      ∧ (¬ hasCapacity days rs patient day
         → assignRoom patient day room_id s = Err CapacityFault)
  end.
Proof.
  intros days. unfold assignRoom.
  destruct (findRoomState _ room_id) as [[i rs]|]; [|done].
  fold days. split.
  - intros Hcap.
    destruct (occupyDays_ok patient
                (stayDays days day (Patient.length_of_stay patient)) rs)
      as (rs' & Hfold & Hinfo & Hocc & Hmaps); [apply NoDup_seqZ | exact Hcap |].
    exists rs'. rewrite Hfold. simpl. split; [done|]. by split_and!.
  - intros Hncap. rewrite occupyDays_fault; [done | apply NoDup_seqZ |].
    unfold hasCapacity in Hncap.
    assert (¬ Forall (λ d, ∃ c, RoomState.capacity_per_day rs !! d = Some c ∧ 0 < c)
                     (stayDays days day (Patient.length_of_stay patient))) as Hnall.
    { rewrite Forall_forall. exact Hncap. }
    apply not_Forall_Exists in Hnall.
    + apply Exists_exists in Hnall as (d & Hd & Hno). by exists d.
    + intros d. destruct (RoomState.capacity_per_day rs !! d) as [c|].
      * destruct (decide (0 < c)); [left; by exists c|].
        right. intros (c' & [= <-] & ?). done.
      * right. by intros (c' & [=] & ?).
Qed.

(** X7.  [assignRoom] looks the room up and raises the data fault when it is
    unknown.  Otherwise it succeeds exactly when every day of the stay
    (clipped to the horizon's end) has a strictly positive capacity entry,
    and raises the capacity fault if not; gender is not examined.  On
    success only that room state changes: on each day of the stay its
    capacity drops by one and the patient is appended to the day's list; the
    other days, the occupants and every other room are as before. *)
Theorem assignRoom_effect (patient : Patient.t) (day : Z) (room_id : string)
    (s : Solver) :
  let days := ProblemInstance.days (problem s) in
  match findRoomState (Solution.roomStates (solution s)) room_id with
  | None => assignRoom patient day room_id s = Err DataFault
  | Some (i, rs) =>
      (hasCapacity days rs patient day
       → ∃ rs', assignRoom patient day room_id s
                = Ok (tt, set_solution
                            (Solution.set_roomStates
                               (<[i := rs']> (Solution.roomStates (solution s)))
                               (solution s)) s)
                ∧ occupied days patient day rs rs')
      ∧ (¬ hasCapacity days rs patient day
         → assignRoom patient day room_id s = Err CapacityFault)
  end.
Proof. exact (assignRoom_cases patient day room_id s). Qed.

(** ** Surgeon commit *)

Lemma list_find_insert_same {A} (P : A → Prop) `{∀ x, Decision (P x)}
    (l : list A) (i : nat) (x y : A) :
  l !! i = Some x → (P x ↔ P y)
  → list_find P (<[i := y]> l)
    = (λ r : nat * A, (r.1, if decide (r.1 = i) then y else r.2))
        <$> list_find P l.
Proof.
  revert i. induction l as [|a l IH]; intros i Hi Hxy; [done|].
  destruct i as [|i]; simpl in *.
  - injection Hi as ->.
    destruct (decide (P y)) as [Hy|Hy].
    + rewrite decide_True by tauto. done.
    + rewrite decide_False by tauto.
      destruct (list_find P l) as [[j z]|]; simpl; [|done]. done.
  - destruct (decide (P a)); [done|].
    rewrite (IH i Hi Hxy).
    destruct (list_find P l) as [[j z]|]; simpl; [|done].
    destruct (decide (j = i)) as [->|Hne].
    + by rewrite decide_True.
    + by rewrite decide_False by lia.
Qed.

(** The two ways [assignSurgeon] can end, in terms of budget reads. *)
Lemma assignSurgeon_cases (patient : Patient.t) (day : Z) (s : Solver) :
  match surgeonBudget (ProblemInstance.surgeons (problem s))
          (Patient.surgeon_id patient) day with
  | Err e => assignSurgeon patient day s = Err e
  | Ok budget =>
      ∃ surgeons',
        assignSurgeon patient day s
        = Ok (tt, set_problem
                    (ProblemInstance.set_surgeons surgeons' (problem s)) s)
        ∧ ∀ surgeon_id d,
            surgeonBudget surgeons' surgeon_id d
            = if decide (surgeon_id = Patient.surgeon_id patient ∧ d = day)
              then Ok (budget - Patient.surgery_duration patient)
              else surgeonBudget (ProblemInstance.surgeons (problem s))
                     surgeon_id d
  end.
Proof.
  unfold surgeonBudget, assignSurgeon.
  set (surgeons := ProblemInstance.surgeons (problem s)).
  destruct (findSurgeon surgeons (Patient.surgeon_id patient))
    as [[i sg]|] eqn:Hfind; [|done].
  destruct (vec_at (Surgeon.max_surgery_time sg) day) as [budget|e] eqn:Hb; [|done].
  apply vec_at_Ok in Hb as Hb'. destruct Hb' as [Hday Hlook].
  pose proof (lookup_lt_Some _ _ _ Hlook) as Hlen.
  simpl. unfold vec_set. rewrite bool_decide_true by done.
  rewrite bool_decide_true by done. simpl.
  eexists. split; [done|].
  intros surgeon_id d. unfold findSurgeon in *.
  apply list_find_Some in Hfind as Hfind'. destruct Hfind' as (Hi & Hid & _).
  rewrite (list_find_insert_same _ surgeons i sg) by done.
  destruct (decide (surgeon_id = Patient.surgeon_id patient ∧ d = day))
    as [[-> ->]|Hne].
  - rewrite Hfind. simpl. rewrite decide_True by done. simpl.
    unfold vec_at. rewrite bool_decide_true by done.
    by rewrite list_lookup_insert_eq.
  - destruct (list_find (λ s0, Surgeon.id s0 = surgeon_id) surgeons)
      as [[j sg']|] eqn:Hfind2; simpl; [|done].
    destruct (decide (j = i)) as [->|Hji]; [|done]. simpl.
    apply list_find_Some in Hfind2 as (Hj & Hid2 & _).
    rewrite Hi in Hj. injection Hj as <-.
    assert (d ≠ day) as Hd by (intros ->; apply Hne; by rewrite <- Hid, <- Hid2).
    unfold vec_at. case_bool_decide as Hnonneg; [|done].
    rewrite list_lookup_insert_ne; [done|]. lia.
Qed.

(** X8.  [assignSurgeon] succeeds exactly when the budget entry that
    [checkSurgeonAvailability] reads exists (known surgeon, day inside the
    budget vector); it does not compare the budget with the duration.  On
    success it lowers that one entry by the surgery duration: afterwards the
    budget read for the patient's surgeon on that day is the old one minus
    the duration, every other budget read is as before, and nothing but the
    surgeon budgets of the working problem has changed. *)
Theorem assignSurgeon_budget (patient : Patient.t) (day : Z) (s : Solver) :
  match surgeonBudget (ProblemInstance.surgeons (problem s))
          (Patient.surgeon_id patient) day with
  | Err e => assignSurgeon patient day s = Err e
  | Ok budget =>
      ∃ surgeons',
        assignSurgeon patient day s
        = Ok (tt, set_problem
                    (ProblemInstance.set_surgeons surgeons' (problem s)) s)
        ∧ ∀ surgeon_id d,
            surgeonBudget surgeons' surgeon_id d
            = if decide (surgeon_id = Patient.surgeon_id patient ∧ d = day)
              then Ok (budget - Patient.surgery_duration patient)
              else surgeonBudget (ProblemInstance.surgeons (problem s))
                     surgeon_id d
  end.
Proof. exact (assignSurgeon_cases patient day s). Qed.

(** ** A passed check is always followed by a completed commit *)

Lemma roomAvailable_hasCapacity (days : Z) (rss : list RoomState.t)
    (patient : Patient.t) (day : Z) (room_id : string) (i : nat)
    (rs : RoomState.t) :
  findRoomState rss room_id = Some (i, rs)
  → roomAvailable days rss patient day room_id = Ok true
  → hasCapacity days rs patient day.
Proof.
  unfold roomAvailable. intros -> [= Hall] d Hd.
  rewrite forallb_elem_of in Hall. specialize (Hall d Hd).
  by apply roomDayOk_spec in Hall as (Hc & _).
Qed.

Lemma commitPlacement_after_check (patient : Patient.t) (day : Z)
    (room_id : string) (s0 s1 : Solver) :
  checkPlacement patient day room_id s0 = Ok (true, s1)
  → ∃ s2, commitPlacement patient day room_id s1 = Ok (tt, s2).
Proof.
  intros Hcheck.
  apply checkPlacement_true in Hcheck as (Hs & Ht & Hr).
  unfold commitPlacement.
  (* surgeon *)
  pose proof (assignSurgeon_cases patient day s1) as Hsurgeon.
  unfold checkSurgeonAvailability, surgeonAvailable in Hs.
  unfold surgeonBudget in Hsurgeon.
  destruct (findSurgeon _ _) as [[i sg]|]; [|done].
  destruct (vec_at _ day) as [budget|]; [|done].
  destruct Hsurgeon as (surgeons' & Hassign & _).
  unfold mbind at 1, M_bind at 1. rewrite Hassign.
  (* theater *)
  set (s2 := set_problem (ProblemInstance.set_surgeons surgeons' (problem s1)) s1).
  assert (outcome (checkOperatingTheaterAvailability patient day s2) = Ok true) as Ht2.
  { unfold checkOperatingTheaterAvailability in *. simpl.
    destruct (theaterAvailable _ patient day) as [b ts']. by injection Ht as ->. }
  apply assignOperatingTheater_agrees in Ht2 as (theater_id & s3 & Hot).
  unfold mbind at 1, M_bind at 1. rewrite Hot.
  (* room *)
  assert (Solution.roomStates (solution s3) = Solution.roomStates (solution s1)
          ∧ ProblemInstance.days (problem s3) = ProblemInstance.days (problem s1))
    as [Hrooms Hdays].
  { unfold assignOperatingTheater in Hot.
    destruct (selectTheater _ _ _) as [[j t]|]; [|done].
    by injection Hot as _ <-. }
  pose proof (assignRoom_cases patient day room_id s3) as Hroom.
  unfold checkRoomAvailability in Hr.
  destruct (roomAvailable _ _ patient day room_id) as [[|]|] eqn:Hra; [|done|done].
  rewrite Hrooms, Hdays in Hroom. simpl in Hroom.
  destruct (findRoomState _ room_id) as [[j rs]|] eqn:Hfind.
  2:{ unfold roomAvailable in Hra. by rewrite Hfind in Hra. }
  destruct Hroom as [Hroom _].
  destruct Hroom as (rs' & Hassign' & _).
  { by eapply roomAvailable_hasCapacity. }
  unfold mbind at 1, M_bind at 1. rewrite Hassign'.
  by eexists.
Qed.

(** X9.  Whenever the three feasibility checks pass for (patient, day, room),
    in [solve] or inside a repair routine, the three commits that follow all
    complete: the surgeon is charged, a theater is booked, the room is
    occupied and the placement is recorded, without any fault. *)
Theorem commit_after_check (patient : Patient.t) (day : Z) (room_id : string)
    (s0 s1 : Solver) :
  checkPlacement patient day room_id s0 = Ok (true, s1)
  → ∃ theater_id s2,
      commitPlacement patient day room_id s1 = Ok (tt, s2)
      ∧ decodedPatients s2
        = decodedPatients s1
          ++ [PatientAssignment.mk (Patient.id patient) (Some day) room_id
                theater_id].
Proof.
  intros [s2 Hcommit]%commitPlacement_after_check.
  destruct (commitPlacement_records _ _ _ _ _ Hcommit) as [theater_id Hrec].
  by exists theater_id, s2.
Qed.

(** ** solve never raises the capacity fault *)

Lemma res_bind_nocf {A B} (m : res A) (f : A → res B) :
  noCapacityFault m → (∀ a, m = Ok a → noCapacityFault (f a))
  → noCapacityFault (m ≫= f).
Proof.
  destruct m as [a|e]; simpl; [intros _ Hf; by apply Hf | by intros H _].
Qed.

Lemma res_foldl_nocf {A B} (f : A → B → res A) (a : A) (l : list B) :
  (∀ a x, noCapacityFault (f a x)) → noCapacityFault (res_foldl f a l).
Proof.
  intros Hf. revert a. induction l as [|x l IH]; intros a; [done|].
  rewrite res_foldl_cons. apply res_bind_nocf; [apply Hf | intros; apply IH].
Qed.

Lemma vec_at_nocf {A} (v : list A) (i : Z) : noCapacityFault (vec_at v i).
Proof. unfold vec_at. case_bool_decide; [by destruct (v !! Z.to_nat i) | done]. Qed.

Lemma vec_set_nocf {A} (v : list A) (i : Z) (x : A) : noCapacityFault (vec_set v i x).
Proof. unfold vec_set. repeat case_bool_decide; done. Qed.

Lemma M_bind_nocf {A B} (m : M A) (f : A → M B) (s : Solver) :
  noCapacityFault (m s)
  → (∀ a s1, m s = Ok (a, s1) → noCapacityFault (f a s1))
  → noCapacityFault ((m ≫= f) s).
Proof.
  unfold mbind, M_bind. destruct (m s) as [[a s1]|e]; [|by intros H _].
  intros _ Hf. by apply Hf.
Qed.

Lemma checkPlacement_nocf (patient : Patient.t) (day : Z) (room_id : string)
    (s : Solver) :
  noCapacityFault (checkPlacement patient day room_id s).
Proof.
  rewrite checkPlacement_unfold. unfold surgeonAvailable, roomAvailable.
  destruct (findSurgeon _ _) as [[i sg]|]; [|done].
  pose proof (vec_at_nocf (Surgeon.max_surgery_time sg) day) as Hv.
  destruct (vec_at _ day) as [budget|e]; simpl; [|done].
  case_bool_decide; [|done]. simpl.
  destruct (theaterAvailable _ patient day).1; [|done].
  by destruct (findRoomState _ room_id) as [[j rs]|].
Qed.

Lemma tryDays_nocf (patient : Patient.t) (newDays : list Z) (rooms : list Room.t)
    (enc : EncodedPatientSolution.t) (s : Solver) :
  noCapacityFault (tryDays patient newDays rooms enc s).
Proof.
  revert enc s. induction newDays as [|d newDays IH]; intros enc s; simpl; [done|].
  apply M_bind_nocf.
  - clear IH. revert enc s.
    induction rooms as [|room rooms IH]; intros enc s; simpl; [done|].
    case_bool_decide; [apply IH|].
    apply M_bind_nocf; [apply checkPlacement_nocf|].
    intros [|] s1 _; [done | apply IH].
  - intros [[|] e] s1 _; simpl; [done | apply IH].
Qed.

Lemma repairMandatoryPatient_nocf (patient : Patient.t)
    (enc : EncodedPatientSolution.t) (s : Solver) :
  noCapacityFault (repairMandatoryPatient patient enc s).
Proof. apply tryDays_nocf. Qed.

Lemma repairAttempts_true (n : nat) (patient : Patient.t)
    (enc enc' : EncodedPatientSolution.t) (s s' : Solver) :
  repairAttempts n patient enc s = Ok ((true, enc'), s')
  → ∃ s0, checkPlacement patient (EncodedPatientSolution.admission_day enc')
            (EncodedPatientSolution.room_id enc') s0 = Ok (true, s').
Proof.
  revert enc s. induction n as [|n IH]; intros enc s; simpl.
  - by intros [[=] _]%M_ret_Ok.
  - intros ([[|] enc1] & s1 & Hr & Hk)%M_bind_Ok; simpl in Hk.
    + apply M_ret_Ok in Hk as [[= <-] <-]. by eapply tryDays_true.
    + by eapply IH.
Qed.

Lemma repairOptionalPatient_nocf (patient : Patient.t)
    (enc : EncodedPatientSolution.t) (s : Solver) :
  noCapacityFault (repairOptionalPatient patient enc s).
Proof.
  unfold repairOptionalPatient. generalize MAX_ATTEMPTS. intros n. revert enc s.
  induction n as [|n IH]; intros enc s; simpl; [done|].
  apply M_bind_nocf; [apply tryDays_nocf|].
  intros [[|] e] s1 _; simpl; [done | apply IH].
Qed.

Lemma placePatient_nocf
    (repair : Patient.t → EncodedPatientSolution.t
              → M (bool * EncodedPatientSolution.t))
    (enc : EncodedPatientSolution.t) (s : Solver) :
  (∀ p e s0, noCapacityFault (repair p e s0))
  → (∀ p e e' s0 s', repair p e s0 = Ok ((true, e'), s')
       → ∃ s1, checkPlacement p (EncodedPatientSolution.admission_day e')
                 (EncodedPatientSolution.room_id e') s1 = Ok (true, s'))
  → noCapacityFault (placePatient repair enc s).
Proof.
  intros Hnocf Htrue. unfold placePatient.
  unfold mbind at 1, M_bind at 1. simpl.
  destruct (findPatient _ _) as [[i patient]|]; [|done].
  apply M_bind_nocf; [apply checkPlacement_nocf|].
  intros [|] s1 Hcheck.
  - destruct (commitPlacement_after_check _ _ _ _ _ Hcheck) as [s2 Hcommit].
    unfold mbind, M_bind. by rewrite Hcommit.
  - apply M_bind_nocf; [apply Hnocf|].
    intros [[|] e'] s2 Hrepair; simpl.
    + destruct (Htrue _ _ _ _ _ Hrepair) as [s0 Hcheck'].
      destruct (commitPlacement_after_check _ _ _ _ _ Hcheck') as [s3 Hcommit].
      unfold mbind, M_bind. by rewrite Hcommit.
    + done.
Qed.

Lemma forM_nocf {A} (f : A → M A) (l : list A) (s : Solver) :
  (∀ x s0, noCapacityFault (f x s0)) → noCapacityFault (forM f l s).
Proof.
  intros Hf. revert s. induction l as [|x l IH]; intros s; simpl; [done|].
  apply M_bind_nocf; [apply Hf|]. intros x' s1 _.
  apply M_bind_nocf; [apply IH|]. by intros l' s2 _.
Qed.

Lemma mapM_nocf {A B} (f : A → res B) (l : list A) :
  (∀ x, noCapacityFault (f x)) → noCapacityFault (mapM f l).
Proof.
  intros Hf. induction l as [|x l IH]; simpl; [done|].
  apply res_bind_nocf; [apply Hf|]. intros y _.
  apply res_bind_nocf; [apply IH|]. by intros k _.
Qed.

Lemma lift_nocf {A} (r : res A) (s : Solver) :
  noCapacityFault r → noCapacityFault (lift r s).
Proof. unfold lift. by destruct r. Qed.

Lemma solvePatients_nocf (encodedSolution : EncodedSolution.t) (s : Solver) :
  noCapacityFault (solvePatients encodedSolution s).
Proof.
  unfold solvePatients. apply M_bind_nocf.
  { unfold initializeDynamicStates. apply res_bind_nocf; [|by intros].
    apply mapM_nocf. intros theater. unfold initTheaterState.
    apply res_bind_nocf; [|by intros].
    apply res_foldl_nocf. intros m d.
    apply res_bind_nocf; [apply vec_at_nocf | by intros]. }
  intros u s1 _. unfold mbind at 1, M_bind at 1. simpl.
  apply M_bind_nocf.
  { apply lift_nocf. unfold splitEncoded. apply res_foldl_nocf.
    intros [m o] enc. destruct (findPatient _ _) as [[i p]|]; [|done].
    by destruct (Patient.mandatory p). }
  intros split s2 _. apply M_bind_nocf.
  { apply forM_nocf. intros enc s0. apply placePatient_nocf.
    - apply repairMandatoryPatient_nocf.
    - intros p e e' s3 s' H. by eapply tryDays_true. }
  intros m s3 _. apply M_bind_nocf; [|by intros].
  apply forM_nocf. intros enc s0. apply placePatient_nocf.
  - apply repairOptionalPatient_nocf.
  - intros p e e' s4 s' H. by eapply repairAttempts_true.
Qed.

Ltac nocf_step :=
  first
    [ apply vec_at_nocf
    | apply vec_set_nocf
    | apply res_bind_nocf; [|intros ? _]
    | apply res_foldl_nocf; intros ? ?
    | progress case_bool_decide
    | match goal with
      | |- noCapacityFault (match ?x with _ => _ end) => destruct x eqn:?
      | |- noCapacityFault (if ?x then _ else _) => destruct x eqn:?
      | |- noCapacityFault (let '(_, _) := ?x in _) => destruct x
      end
    | exact I ].

Ltac nocf := repeat nocf_step.

Lemma hardViolations_nocf (orig : ProblemInstance.t) (sol : Solution.t) :
  noCapacityFault (hardViolations orig sol).
Proof. unfold hardViolations, H3, H5, surgeryTimes. nocf. Qed.

Lemma uniqueNurses_nocf (sol : Solution.t) (shift_types : list string)
    (room_id : string) (stay : list Z) :
  noCapacityFault (uniqueNurses sol shift_types room_id stay).
Proof. unfold uniqueNurses. nocf. Qed.

Lemma roomWorkload_nocf (sol : Solution.t) (day shiftIndex totalWorkload : Z)
    (roomId : string) :
  noCapacityFault (roomWorkload sol day shiftIndex totalWorkload roomId).
Proof. unfold roomWorkload. nocf. Qed.

Lemma S2_nocf (prob : ProblemInstance.t) (sol : Solution.t) :
  noCapacityFault (S2 prob sol).
Proof. unfold S2. nocf. Qed.

Lemma S3_nocf (prob : ProblemInstance.t) (sol : Solution.t) :
  noCapacityFault (S3 prob sol).
Proof. unfold S3. nocf; apply uniqueNurses_nocf. Qed.

Lemma S4_nocf (prob : ProblemInstance.t) (sol : Solution.t) :
  noCapacityFault (S4 prob sol).
Proof.
  unfold S4.
  repeat first [ apply roomWorkload_nocf | nocf_step ].
Qed.

Lemma softConstraints_nocf (prob : ProblemInstance.t) (sol : Solution.t) :
  noCapacityFault (softConstraints prob sol).
Proof.
  unfold softConstraints, S7, S8.
  repeat first [ apply S2_nocf | apply S3_nocf | apply S4_nocf | nocf_step ].
Qed.

Lemma shiftAssignments_nocf (working_shifts : list WorkingShift.t)
    (encoded_nurses : list (list string)) (index : Z) :
  noCapacityFault (shiftAssignments working_shifts encoded_nurses index).
Proof.
  revert index. induction working_shifts as [|ws rest IH]; intros index; simpl;
    [done|].
  repeat first [ apply IH | nocf_step ].
Qed.

Lemma nurseAssignments_nocf (nurses : list Nurse.t)
    (encoded_nurses : list (list string)) (index : Z) :
  noCapacityFault (nurseAssignments nurses encoded_nurses index).
Proof.
  revert index. induction nurses as [|nurse rest IH]; intros index; simpl; [done|].
  repeat first [ apply IH | apply shiftAssignments_nocf | nocf_step ].
Qed.

(** X10.  [solve] never ends with the capacity fault: the exceptions that
    [assignOperatingTheater] and [assignRoom] throw when nothing is free do
    not escape [solve], whatever the encoding and the state it is called in. *)
Theorem solve_no_capacity_fault (encodedSolution : EncodedSolution.t) (s : Solver) :
  noCapacityFault (solve encodedSolution s).
Proof.
  unfold solve. apply M_bind_nocf; [apply solvePatients_nocf|]. intros sp s1 _.
  apply M_bind_nocf.
  { unfold solveNurses. apply res_bind_nocf; [apply nurseAssignments_nocf|done]. }
  intros u s2 _. apply M_bind_nocf.
  { unfold calculateHardConstraintViolations.
    apply res_bind_nocf; [apply hardViolations_nocf|done]. }
  intros h s3 _. apply M_bind_nocf; [|done].
  unfold calculateSoftConstraints.
  apply res_bind_nocf; [apply softConstraints_nocf|done].
Qed.

(** ** An invariant rule for the processing loops of solve *)

Lemma repairAttempts_touch (n : nat) (patient : Patient.t)
    (enc enc' : EncodedPatientSolution.t) (b : bool) (s s' : Solver) :
  repairAttempts n patient enc s = Ok ((b, enc'), s') → touchEquiv s s'.
Proof.
  revert enc s. induction n as [|n IH]; intros enc s; simpl.
  - intros [_ <-]%M_ret_Ok. apply touchEquiv_refl.
  - intros ([b1 enc1] & s1 & Hr & Hk)%M_bind_Ok.
    apply tryDays_touch in Hr as [Hs _]. simpl in Hk. destruct b1.
    + by apply M_ret_Ok in Hk as [_ <-].
    + eapply touchEquiv_trans; [done|]. by eapply IH.
Qed.

Section Invariant.
Context (I : Solver → Prop).

Hypothesis I_touch : ∀ s s', touchEquiv s s' → I s → I s'.

Hypothesis I_commit :
  ∀ patient day room_id i s0 s1 s2,
    I s1
    → findPatient (ProblemInstance.patients (problem s1)) (Patient.id patient)
      = Some (i, patient)
    → checkPlacement patient day room_id s0 = Ok (true, s1)
    → commitPlacement patient day room_id s1 = Ok (tt, s2)
    → I s2.

Hypothesis I_push :
  ∀ patient_id s,
    I s
    → I (set_solution
           (Solution.set_patients
              (Solution.patients (solution s)
               ++ [PatientAssignment.unplaced patient_id])
              (solution s)) s).

Lemma invariant_placePatient
    (repair : Patient.t → EncodedPatientSolution.t
              → M (bool * EncodedPatientSolution.t))
    (enc : EncodedPatientSolution.t) :
  (∀ p e s b e' s', repair p e s = Ok ((b, e'), s') → touchEquiv s s')
  → (∀ p e e' s0 s', repair p e s0 = Ok ((true, e'), s')
       → ∃ s1, checkPlacement p (EncodedPatientSolution.admission_day e')
                 (EncodedPatientSolution.room_id e') s1 = Ok (true, s'))
  → maintains I (placePatient repair enc).
Proof.
  intros Htouch Htrue s enc' s' HI. unfold placePatient.
  unfold mbind at 1, M_bind at 1. simpl.
  destruct (findPatient _ _) as [[i patient]|] eqn:Hfind; [|done].
  assert (findPatient (ProblemInstance.patients (problem s)) (Patient.id patient)
          = Some (i, patient)) as Hfind'.
  { unfold findPatient in *.
    by apply list_find_Some in Hfind as Hid; destruct Hid as (_ & -> & _). }
  intros ([|] & s1 & Hcheck & Hk)%M_bind_Ok.
  - apply M_bind_Ok in Hk as ([] & s2 & Hcommit & [_ <-]%M_ret_Ok).
    apply checkPlacement_touch in Hcheck as Ht.
    eapply I_commit; [|rewrite (touchEquiv_problem _ _ Ht); exact Hfind'
                      |exact Hcheck|exact Hcommit].
    by eapply I_touch.
  - apply M_bind_Ok in Hk as ([b e'] & s2 & Hrepair & Hk).
    assert (touchEquiv s s2) as Ht.
    { eapply touchEquiv_trans; [by eapply checkPlacement_touch | by eapply Htouch]. }
    assert (I s2) as HI2 by (by eapply I_touch).
    simpl in Hk. destruct b.
    + apply M_bind_Ok in Hk as ([] & s3 & Hcommit & [_ <-]%M_ret_Ok).
      destruct (Htrue _ _ _ _ _ Hrepair) as [s0 Hcheck'].
      eapply I_commit; [exact HI2|rewrite (touchEquiv_problem _ _ Ht); exact Hfind'
                        |exact Hcheck'|exact Hcommit].
    + apply M_bind_Ok in Hk as ([] & s3 & Hpush & [_ <-]%M_ret_Ok).
      injection Hpush as <-. by apply I_push.
Qed.

Lemma invariant_solvePatients (encodedSolution : EncodedSolution.t)
    (locals : list EncodedPatientSolution.t * list EncodedPatientSolution.t)
    (s s' : Solver) :
  (∀ u s1, initializeDynamicStates s = Ok (u, s1) → I s1)
  → solvePatients encodedSolution s = Ok (locals, s')
  → I s'.
Proof.
  intros Hinit. unfold solvePatients.
  intros (u & s1 & Hi & H)%M_bind_Ok.
  apply Hinit in Hi. revert H. generalize Hi. generalize s1 locals s'.
  clear s s' s1 locals Hinit Hi u.
  change (maintains I
            (s ← get;
             split ← lift (splitEncoded (ProblemInstance.patients (problem s))
                             (EncodedSolution.encoded_patients encodedSolution));
             mandatoryEnc ← forM (placePatient repairMandatoryPatient) split.1;
             optionalEnc ← forM (placePatient repairOptionalPatient) split.2;
             mret (mandatoryEnc, optionalEnc))).
  apply maintains_bind; [by intros s a s' HI [= _ <-]|]. intros s0.
  apply maintains_bind.
  { intros s a s' HI. unfold lift.
    destruct (splitEncoded _ _); [by intros [= _ <-] | done]. }
  intros split. apply maintains_bind.
  { apply maintains_forM. intros enc. apply invariant_placePatient.
    - intros p e s b e' s' H. by apply tryDays_touch in H as [? _].
    - intros p e e' s1 s' H. by eapply tryDays_true. }
  intros m. apply maintains_bind; [|intros o; apply maintains_ret].
  apply maintains_forM. intros enc. apply invariant_placePatient.
  - intros p e s b e' s' H. by eapply repairAttempts_touch.
  - intros p e e' s1 s' H. by eapply repairAttempts_true.
Qed.

End Invariant.

(** The evaluation and nurse phases of [solve] leave the dynamic states, the
    decoded patients and both problem copies as the processing loops left
    them. *)
Lemma solve_after_patients (encodedSolution : EncodedSolution.t)
    (r : (Z * Z) * EncodedSolution.t) (s s' : Solver) :
  solve encodedSolution s = Ok (r, s')
  → ∃ locals s1,
      solvePatients encodedSolution s = Ok (locals, s1)
      ∧ Solution.roomStates (solution s') = Solution.roomStates (solution s1)
      ∧ Solution.theaterStates (solution s') = Solution.theaterStates (solution s1)
      ∧ Solution.patients (solution s') = Solution.patients (solution s1)
      ∧ problem s' = problem s1
      ∧ originalProblem s' = originalProblem s1.
Proof.
  unfold solve.
  intros (locals & s1 & Hp & ([] & s2 & Hn & (h & s3 & Hh & (f & s4 & Hf & Hr)%M_bind_Ok)%M_bind_Ok)%M_bind_Ok)%M_bind_Ok.
  exists locals, s1. split; [done|].
  apply M_ret_Ok in Hr as [_ <-].
  unfold solveNurses in Hn. destruct (nurseAssignments _ _ _) as [l|]; [|done].
  injection Hn as <-.
  unfold calculateHardConstraintViolations in Hh.
  destruct (hardViolations _ _) as [v|]; [|done]. injection Hh as _ <-.
  unfold calculateSoftConstraints in Hf.
  destruct (softConstraints _ _) as [sc|]; [|done]. by injection Hf as _ <-.
Qed.

(** ** solve keeps every room within capacity and of one gender *)

Lemma commitPlacement_rooms (patient : Patient.t) (day : Z) (room_id : string)
    (s0 s1 s2 : Solver) :
  checkPlacement patient day room_id s0 = Ok (true, s1)
  → commitPlacement patient day room_id s1 = Ok (tt, s2)
  → ∃ i rs rs',
      Solution.roomStates (solution s1) !! i = Some rs
      ∧ (∀ d, d ∈ stayDays (ProblemInstance.days (problem s1)) day
                    (Patient.length_of_stay patient)
              → roomDayOk rs patient d = true)
      ∧ occupied (ProblemInstance.days (problem s1)) patient day rs rs'
      ∧ Solution.roomStates (solution s2)
        = <[i := rs']> (Solution.roomStates (solution s1)).
Proof.
  intros Hcheck Hcommit.
  apply checkPlacement_true in Hcheck as (_ & _ & Hr).
  unfold commitPlacement in Hcommit.
  apply M_bind_Ok in Hcommit
    as (u1 & sa & H1 & (theater_id & sb & H2 & (u3 & sc & H3 & H4)%M_bind_Ok)%M_bind_Ok).
  set (proj := λ s : Solver, (Solution.roomStates (solution s),
                              ProblemInstance.days (problem s))).
  apply (keeps_assignSurgeon proj) in H1 as Ha; [|done].
  apply (keeps_assignOperatingTheater proj) in H2 as Hb; [|done].
  assert (proj sb = proj s1) as [= Hrooms Hdays] by congruence.
  pose proof (assignRoom_cases patient day room_id sb) as Hroom.
  unfold checkRoomAvailability in Hr.
  destruct (roomAvailable _ _ patient day room_id) as [[|]|] eqn:Hra; [|done|done].
  rewrite Hrooms, Hdays in Hroom. simpl in Hroom.
  destruct (findRoomState _ room_id) as [[i rs]|] eqn:Hfind.
  2:{ unfold roomAvailable in Hra. by rewrite Hfind in Hra. }
  destruct Hroom as [Hroom _].
  destruct Hroom as (rs' & Hassign & Hocc).
  { by eapply roomAvailable_hasCapacity. }
  exists i, rs, rs'. split_and!; [| |done|].
  - unfold findRoomState in Hfind. by apply list_find_Some in Hfind as (? & _).
  - unfold roomAvailable in Hra. rewrite Hfind in Hra. injection Hra as Hall.
    rewrite forallb_elem_of in Hall. exact Hall.
  - rewrite Hassign in H3. injection H3 as H3. subst sc.
    by injection H4 as <-.
Qed.

Lemma occupied_safe (days : Z) (patient : Patient.t) (day : Z)
    (rs rs' : RoomState.t) :
  (∀ d, d ∈ stayDays days day (Patient.length_of_stay patient)
        → roomDayOk rs patient d = true)
  → occupied days patient day rs rs'
  → roomAccounted rs ∧ roomSafe rs
  → roomAccounted rs' ∧ roomSafe rs'.
Proof.
  intros Hok (Hinfo & Hocc & Hdays) [Hacc Hsafe].
  assert (∀ d, occupantsOn rs' d = occupantsOn rs d) as Hon.
  { intros d. unfold occupantsOn. by rewrite Hocc. }
  split.
  - intros d c Hc Hpos. specialize (Hdays d). rewrite Hinfo, Hon.
    destruct (decide (d ∈ stayDays _ _ _)) as [Hin|Hnin].
    + destruct Hdays as [Hcap Hpat]. rewrite Hc in Hcap.
      destruct (RoomState.capacity_per_day rs !! d) as [c0|] eqn:Hc0; [|done].
      injection Hcap as ->.
      specialize (Hacc d c0 Hc0 ltac:(lia)).
      unfold patientsOn at 1. rewrite Hpat. simpl.
      rewrite length_app. simpl. lia.
    + destruct Hdays as [Hcap Hpat]. rewrite Hcap in Hc.
      specialize (Hacc d c Hc Hpos).
      unfold patientsOn at 1. rewrite Hpat. exact Hacc.
  - intros d l Hl. specialize (Hdays d). rewrite Hinfo, Hon.
    destruct (decide (d ∈ stayDays _ _ _)) as [Hin|Hnin].
    + destruct Hdays as [Hcap Hpat]. rewrite Hl in Hpat. injection Hpat as ->.
      apply Hok, roomDayOk_spec in Hin as ((c & Hc & Hpos) & Hp & Ho).
      specialize (Hacc d c Hc Hpos). split.
      * rewrite length_app. simpl. lia.
      * exists (Patient.gender patient). split; [|done].
        intros p [Hin'|Hin']%elem_of_app; [by apply Hp|].
        apply list_elem_of_singleton in Hin'. by subst p.
    + destruct Hdays as [_ Hpat]. rewrite Hpat in Hl. by apply Hsafe.
Qed.

Lemma seededRoom_safe (days : Z) (occupants : list Occupant.t) (room : Room.t)
    (rs : RoomState.t) :
  seededRoom days occupants room rs → roomAccounted rs ∧ roomSafe rs.
Proof.
  intros (Hinfo & Hpat & Hday). split.
  - intros d c Hc Hpos. destruct (Hday d) as [Hocc Hcap].
    rewrite Hc in Hcap. unfold patientsOn. rewrite Hpat, lookup_empty, Hocc, Hinfo.
    simpl. destruct (decide (0 ≤ d < days)); [|done]. injection Hcap as ->. lia.
  - intros d l. by rewrite Hpat, lookup_empty.
Qed.

Lemma solvePatients_rooms_safe (encodedSolution : EncodedSolution.t)
    (locals : list EncodedPatientSolution.t * list EncodedPatientSolution.t)
    (s s' : Solver) :
  solvePatients encodedSolution s = Ok (locals, s')
  → Forall (λ rs, roomAccounted rs ∧ roomSafe rs)
           (Solution.roomStates (solution s')).
Proof.
  apply (invariant_solvePatients
           (λ s, Forall (λ rs, roomAccounted rs ∧ roomSafe rs)
                        (Solution.roomStates (solution s)))).
  - intros s0 s1 (ts & _ & ->). done.
  - intros patient day room_id k s0 s1 s2 HI _ Hcheck Hcommit.
    destruct (commitPlacement_rooms _ _ _ _ _ _ Hcheck Hcommit)
      as (i & rs & rs' & Hi & Hok & Hocc & ->).
    apply Forall_insert; [done|].
    eapply occupied_safe; [exact Hok | exact Hocc |].
    rewrite Forall_lookup in HI. by eapply HI.
  - done.
  - intros u s1 Hinit. apply initializeDynamicStates_seeds in Hinit.
    induction Hinit as [|room rs rooms rss Hseed _ IH]; constructor; [|done].
    by eapply seededRoom_safe.
Qed.

Lemma accumulate_zeros (l : list Z) : Forall (λ x, x = 0) l → accumulate l = 0.
Proof.
  unfold accumulate. induction 1 as [|x l -> _ IH]; [done|]. simpl. exact IH.
Qed.

Lemma count_none {A} (f : A → bool) (l : list A) :
  (∀ x, x ∈ l → f x = false) → count f l = 0.
Proof.
  intros Hf. unfold count. induction l as [|x l IH]; [done|]. simpl.
  rewrite Hf by left. apply IH. intros y Hy. apply Hf. by right.
Qed.

(** X11.  In the state a successful [solve] leaves, every room is within its
    capacity and of a single gender on each day on which it holds an
    assigned patient, occupants included; in particular the room-capacity
    count H7 of the hard-constraint evaluator is zero. *)
Theorem solve_rooms_safe (encodedSolution : EncodedSolution.t)
    (r : (Z * Z) * EncodedSolution.t) (s s' : Solver) :
  solve encodedSolution s = Ok (r, s')
  → Forall roomSafe (Solution.roomStates (solution s'))
    ∧ H7 (solution s') = 0.
Proof.
  intros (locals & s1 & Hp & Hrooms & _)%solve_after_patients.
  apply solvePatients_rooms_safe in Hp. rewrite <- Hrooms in Hp.
  assert (Forall roomSafe (Solution.roomStates (solution s'))) as Hsafe.
  { eapply Forall_impl; [exact Hp|]. by intros rs [_ ?]. }
  split; [done|].
  assert (H7 (solution s')
          = accumulate
              ((λ roomState,
                  count (λ entry : Z * list Patient.t,
                           bool_decide
                             (Room.capacity (RoomState.room_info roomState)
                              < Z.of_nat (length entry.2)
                                + Z.of_nat (length (occupantsOn roomState entry.1))))
                        (map_to_list (RoomState.patients_per_day roomState)))
               <$> Solution.roomStates (solution s'))) as -> by done.
  apply accumulate_zeros, Forall_fmap.
  eapply Forall_impl; [exact Hsafe|]. intros rs Hrs. simpl.
  apply count_none. intros [d l] Hin%elem_of_map_to_list. simpl.
  destruct (Hrs d l Hin) as [Hle _]. apply bool_decide_eq_false. lia.
Qed.

(** ** solve adds no gender violation *)

Lemma solvePatients_rooms_from (encodedSolution : EncodedSolution.t)
    (locals : list EncodedPatientSolution.t * list EncodedPatientSolution.t)
    (u : unit) (s s1 s' : Solver) :
  initializeDynamicStates s = Ok (u, s1)
  → solvePatients encodedSolution s = Ok (locals, s')
  → Forall2 (λ rs0 rs,
               RoomState.patients_per_day rs0 = ∅
               ∧ RoomState.occupants_per_day rs = RoomState.occupants_per_day rs0
               ∧ roomAccounted rs ∧ roomSafe rs)
            (Solution.roomStates (solution s1))
            (Solution.roomStates (solution s')).
Proof.
  intros Hinit.
  apply (invariant_solvePatients
           (λ s', Forall2 (λ rs0 rs,
                     RoomState.patients_per_day rs0 = ∅
                     ∧ RoomState.occupants_per_day rs = RoomState.occupants_per_day rs0
                     ∧ roomAccounted rs ∧ roomSafe rs)
                    (Solution.roomStates (solution s1))
                    (Solution.roomStates (solution s')))).
  - intros s0 s2 (ts & _ & ->). done.
  - intros patient day room_id k s0 s2 s3 HI _ Hcheck Hcommit.
    destruct (commitPlacement_rooms _ _ _ _ _ _ Hcheck Hcommit)
      as (i & rs & rs' & Hi & Hok & Hocc & ->).
    destruct (Forall2_lookup_r _ _ _ _ _ HI Hi) as (rs0 & Hi0 & Hp0 & Ho & Hsafe).
    rewrite <- (list_insert_id _ _ _ Hi0).
    apply Forall2_insert; [done|].
    split; [done|]. split.
    + destruct Hocc as (_ & -> & _). done.
    + by eapply occupied_safe.
  - done.
  - intros u' s1' Hinit'. rewrite Hinit in Hinit'. injection Hinit' as _ <-.
    apply initializeDynamicStates_seeds in Hinit.
    apply Forall_Forall2_diag, Forall_forall. intros rs Hrs.
    apply list_elem_of_lookup in Hrs as [i Hi].
    destruct (Forall2_lookup_r _ _ _ _ _ Hinit Hi) as (room & _ & Hseed).
    split; [by destruct Hseed as (_ & ? & _)|]. split; [done|].
    by eapply seededRoom_safe.
Qed.

Lemma count_elements_ext (f g : Z → bool) (X Y : gset Z) :
  (∀ d, d ∈ X ∧ f d = true ↔ d ∈ Y ∧ g d = true)
  → count f (elements X) = count g (elements Y).
Proof.
  intros Hfg. unfold count. f_equal. apply Permutation_length.
  apply NoDup_Permutation.
  - apply NoDup_ListNoDup, List.NoDup_filter, NoDup_ListNoDup, NoDup_elements.
  - apply NoDup_ListNoDup, List.NoDup_filter, NoDup_ListNoDup, NoDup_elements.
  - intros d. rewrite !list_elem_of_In, !List.filter_In, <- !list_elem_of_In,
      !elem_of_elements. apply Hfg.
Qed.

Lemma one_gender_size (g : string) (l : list string) :
  (∀ x, x ∈ l → x = g) → ¬ (1 < size (list_to_set l : gset string))%nat.
Proof.
  intros Hl.
  assert ((list_to_set l : gset string) ⊆ {[g]}) as Hsub.
  { intros x Hx%elem_of_list_to_set. apply elem_of_singleton. by apply Hl. }
  apply subseteq_size in Hsub. rewrite size_singleton in Hsub. lia.
Qed.

(** X12.  Decoding adds no gender violation: the gender count H1 of the
    state a successful [solve] leaves equals the count of the freshly
    initialised state, which only sees the pre-existing occupants. *)
Theorem solve_adds_no_gender_violation (encodedSolution : EncodedSolution.t)
    (r : (Z * Z) * EncodedSolution.t) (u : unit) (s s1 s' : Solver) :
  initializeDynamicStates s = Ok (u, s1)
  → solve encodedSolution s = Ok (r, s')
  → H1 (solution s') = H1 (solution s1).
Proof.
  intros Hinit (locals & s2 & Hp & Hrooms & _)%solve_after_patients.
  pose proof (solvePatients_rooms_from _ _ _ _ _ _ Hinit Hp) as HF.
  unfold H1. rewrite Hrooms. f_equal. clear Hrooms Hinit Hp. revert HF.
  generalize (Solution.roomStates (solution s1))
             (Solution.roomStates (solution s2)).
  intros l0 l HF.
  induction HF as [|rs0 rs rss0 rss (Hp0 & Ho & _ & Hsafe) _ IH]; [done|].
  rewrite !fmap_cons. f_equal; [|exact IH].
  assert (∀ d, occupantsOn rs d = occupantsOn rs0 d) as Hon.
  { intros d. unfold occupantsOn. by rewrite Ho. }
  assert (∀ d, patientsOn rs0 d = []) as Hnone.
  { intros d. unfold patientsOn. by rewrite Hp0, lookup_empty. }
  unfold occupiedDays. apply count_elements_ext. intros d.
  rewrite !bool_decide_eq_true, Hon, Hnone, Ho, Hp0, dom_empty_L. simpl.
  rewrite !elem_of_union, !elem_of_dom.
  unfold patientsOn.
  destruct (RoomState.patients_per_day rs !! d) as [l|] eqn:Hl; simpl.
  - destruct (Hsafe d l Hl) as (_ & g & Hg & Hog). rewrite Hon in Hog.
    split.
    + intros [_ Hmix]. exfalso. revert Hmix. apply (one_gender_size g).
      intros x [Hx|Hx]%elem_of_app.
      * apply list_elem_of_fmap in Hx as (p & -> & Hin). by apply Hg.
      * apply list_elem_of_fmap in Hx as (o & -> & Hin). by apply Hog.
    + intros [_ Hmix]. exfalso. revert Hmix. apply (one_gender_size g).
      intros x Hx.
      apply list_elem_of_fmap in Hx as (o & -> & Hin). by apply Hog.
  - split.
    + intros [[[? [=]]|Hd] Hmix]. split; [by right | done].
    + intros [[Hd|Hd] Hmix]; [by apply elem_of_empty in Hd|].
      split; [by right | done].
Qed.

(** ** The nurse-only re-evaluation is exact *)

Lemma solvePatients_no_nurses (encodedSolution : EncodedSolution.t)
    (locals : list EncodedPatientSolution.t * list EncodedPatientSolution.t)
    (s s' : Solver) :
  solvePatients encodedSolution s = Ok (locals, s')
  → Solution.nurses (solution s') = [].
Proof.
  apply (invariant_solvePatients (λ s, Solution.nurses (solution s) = [])).
  - intros s0 s1 (ts & _ & ->). done.
  - intros patient day room_id k s0 s1 s2 HI _ _ Hcommit.
    unfold commitPlacement in Hcommit.
    apply M_bind_Ok in Hcommit
      as (u1 & sa & H1 & (theater_id & sb & H2 & (u3 & sc & H3 & H4)%M_bind_Ok)%M_bind_Ok).
    set (proj := λ s : Solver, Solution.nurses (solution s)).
    apply (keeps_assignSurgeon proj) in H1; [|done].
    apply (keeps_assignOperatingTheater proj) in H2; [|done].
    apply (keeps_assignRoom proj) in H3; [|done].
    injection H4 as <-. unfold proj in *. simpl. congruence.
  - done.
  - intros u s1. unfold initializeDynamicStates.
    destruct (mapM _ _) as [ts|]; [|done]. simpl. by intros [= _ <-].
Qed.

Lemma solvePatients_patients_only (enc enc' : EncodedSolution.t) (s : Solver) :
  EncodedSolution.encoded_patients enc' = EncodedSolution.encoded_patients enc
  → solvePatients enc' s = solvePatients enc s.
Proof. intros Henc. unfold solvePatients. by rewrite Henc. Qed.

(** A probe from the state a [solve] left against a full [solve]. *)
Lemma evaluateSwap_solve (enc enc' : EncodedSolution.t)
    (r : (Z * Z) * EncodedSolution.t) (s s0 : Solver) :
  solve enc s = Ok (r, s0)
  → EncodedSolution.encoded_patients enc' = EncodedSolution.encoded_patients enc
  → evaluateSwap enc' s0 = ((x ← solve enc'; mret x.1) : M (Z * Z)) s.
Proof.
  intros Hsolve Henc.
  unfold solve in Hsolve.
  apply M_bind_Ok in Hsolve
    as (locals & sp & Hp & ([] & sn & Hn & (h & sh & Hh & (f & sf & Hf & Hr)%M_bind_Ok)%M_bind_Ok)%M_bind_Ok).
  apply M_ret_Ok in Hr as [_ <-].
  pose proof (solvePatients_no_nurses _ _ _ _ Hp) as Hnone.
  rewrite evaluateSwap_unfold.
  unfold solve. unfold mbind at 1 2 3 4 5, M_bind.
  rewrite (solvePatients_patients_only enc enc') by done. rewrite Hp.
  unfold solveNurses in *.
  destruct (nurseAssignments _ (EncodedSolution.encoded_nurses enc) 0)
    as [l|] eqn:Hl; [|done].
  injection Hn as <-.
  unfold calculateHardConstraintViolations in Hh. simpl in Hh.
  destruct (hardViolations _ _) as [h0|] eqn:Hh0; [|done].
  injection Hh as -> <-.
  unfold calculateSoftConstraints in Hf. simpl in Hf.
  destruct (softConstraints _ _) as [sc|] eqn:Hsc; [|done].
  injection Hf as _ <-. simpl.
  destruct sp as [p o [rs t pa n sc0 tot0]]. simpl in *. subst n. simpl in *.
  destruct (nurseAssignments _ (EncodedSolution.encoded_nurses enc') 0)
    as [l'|]; [|done]. simpl.
  rewrite computeNurseOnlyCosts_unfold.
  unfold calculateHardConstraintViolations, calculateSoftConstraints. simpl.
  unfold hardViolations, softConstraints in *.
  unfold Solution.set_nurses, Solution.set_soft in *. simpl in *.
  assert (∀ n sc tot, H3 o (Solution.mk rs t pa n sc tot)
                      = H3 o (Solution.mk rs t pa [] [] 0)) as E3 by reflexivity.
  assert (∀ n sc tot, H5 o (Solution.mk rs t pa n sc tot)
                      = H5 o (Solution.mk rs t pa [] [] 0)) as E5 by reflexivity.
  assert (∀ n sc tot, S7 p (Solution.mk rs t pa n sc tot)
                      = S7 p (Solution.mk rs t pa [] [] 0)) as E7 by reflexivity.
  assert (∀ n sc tot, S8 p (Solution.mk rs t pa n sc tot)
                      = S8 p (Solution.mk rs t pa [] [] 0)) as E8 by reflexivity.
  assert (∀ n sc tot, S2 p (Solution.mk rs t pa n sc tot)
                      = S2 p (Solution.mk rs t pa n [] 0)) as E2 by reflexivity.
  assert (∀ n sc tot, S3 p (Solution.mk rs t pa n sc tot)
                      = S3 p (Solution.mk rs t pa n [] 0)) as E3' by reflexivity.
  assert (∀ n sc tot, S4 p (Solution.mk rs t pa n sc tot)
                      = S4 p (Solution.mk rs t pa n [] 0)) as E4 by reflexivity.
  rewrite (E3 l), (E5 l) in Hh0. rewrite (E7 l), (E8 l) in Hsc.
  rewrite ?(E2 l'), ?(E3' l'), ?(E4 l'), ?(E3 l'), ?(E5 l').
  destruct (H3 o _) as [h3|] eqn:HH3; [|by simpl in Hh0]. simpl in Hh0.
  destruct (H5 o _) as [h5|] eqn:HH5; [|by simpl in Hh0]. clear Hh0.
  destruct (S2 p (Solution.mk rs t pa l _ _)) as [s2|]; [|by simpl in Hsc].
  simpl in Hsc.
  destruct (S3 p (Solution.mk rs t pa l _ _)) as [s3|]; [|by simpl in Hsc].
  simpl in Hsc.
  destruct (S4 p (Solution.mk rs t pa l _ _)) as [s4|]; [|by simpl in Hsc].
  simpl in Hsc.
  destruct (S7 p _) as [s7|] eqn:HS7; [|by simpl in Hsc]. simpl in Hsc.
  destruct (S8 p _) as [s8|] eqn:HS8; [|by simpl in Hsc]. simpl in Hsc.
  injection Hsc as <-. simpl.
  rewrite ?(E2 l'), ?(E3' l'), ?(E4 l'), ?(E7 l'), ?(E8 l').
  destruct (S2 p _) as [s2'|]; [|done]. simpl.
  rewrite ?(E2 l'), ?(E3' l'), ?(E4 l'), ?(E7 l'), ?(E8 l').
  destruct (S3 p _) as [s3'|]; [|done]. simpl.
  rewrite ?(E2 l'), ?(E3' l'), ?(E4 l'), ?(E7 l'), ?(E8 l').
  destruct (S4 p _) as [s4'|]; [|done]. simpl.
  rewrite ?(E3 l'), ?(E5 l'), ?(E7 l'), ?(E8 l'), ?HH3. simpl.
  rewrite ?(E3 l'), ?(E5 l'), ?(E7 l'), ?(E8 l'), ?HH5. simpl.
  rewrite ?(E3 l'), ?(E5 l'), ?(E7 l'), ?(E8 l'), ?HS7. simpl.
  rewrite ?(E3 l'), ?(E5 l'), ?(E7 l'), ?(E8 l'), ?HS8. simpl.
  reflexivity.
Qed.

(** X13.  After a successful [solve], re-applying the nurse blocks of any
    encoding with the same patient entries and re-scoring with
    [computeNurseOnlyCosts] gives exactly what a full [solve] of that
    encoding gives from the original state: the same score or the same
    fault, and the same final solver state. *)
Theorem evaluateSwap_exact (enc enc' : EncodedSolution.t)
    (r : (Z * Z) * EncodedSolution.t) (s s0 : Solver) :
  solve enc s = Ok (r, s0)
  → EncodedSolution.encoded_patients enc' = EncodedSolution.encoded_patients enc
  → evaluateSwap enc' s0 = ((x ← solve enc'; mret x.1) : M (Z * Z)) s.
Proof. exact (evaluateSwap_solve enc enc' r s s0). Qed.

Lemma swapBlocks_patients (i j : nat) (enc : EncodedSolution.t) :
  EncodedSolution.encoded_patients (swapBlocks i j enc)
  = EncodedSolution.encoded_patients enc.
Proof.
  unfold swapBlocks.
  by destruct (EncodedSolution.encoded_nurses enc !! i),
              (EncodedSolution.encoded_nurses enc !! j).
Qed.

(** X14.  The score [localSearchNurses] returns is the true score of the
    encoding it returns: a full [solve] of that encoding from the original
    state gives the same pair of hard violations and soft total. *)
Theorem localSearchNurses_score_exact (enc enc' : EncodedSolution.t)
    (score : Z * Z) (s : Solver) :
  outcome (localSearchNurses enc s) = Ok (score, enc')
  → outcome (solve enc' s) = Ok (score, enc').
Proof.
  unfold localSearchNurses. unfold mbind at 1, M_bind at 1.
  destruct (solve enc s) as [[[score0 e0] s0]|] eqn:Hsolve; [|done].
  apply solve_Ok in Hsolve as Henc. destruct Henc as [-> _].
  unfold mbind at 1, M_bind at 1. simpl.
  unfold mbind at 1, M_bind at 1. unfold lift.
  destruct (blockMeta _ _) as [meta|]; [|done].
  rewrite (searchSwaps_firstImprovement s0) by done.
  intros [(-> & -> & _)|(_ & i & j & _ & _ & Hs & -> & _)]%firstImprovement_spec.
  - by rewrite Hsolve.
  - unfold swapScore in Hs.
    rewrite (evaluateSwap_solve enc (swapBlocks i j enc) _ s s0 Hsolve) in Hs
      by apply swapBlocks_patients.
    unfold mbind, M_bind in Hs.
    destruct (solve (swapBlocks i j enc) s) as [[[sc e] s1]|] eqn:Hsolve'; [|done].
    apply solve_Ok in Hsolve' as [-> _]. simpl in *. by injection Hs as ->.
Qed.

(** ** The local search returns the first improvement *)

(** The search is set against the exchanges themselves: the candidate
    pairs come in the order of the two loops, and a probe returns what a
    full [solve] of the exchanged encoding returns. *)
















(** ** What the search leaves in the solver when no swap is better *)

Lemma isBetterFitness_irrefl (a : Z * Z) : isBetterFitness a a = false.
Proof.
  destruct (isBetterFitness a a) eqn:H; [|done].
  apply isBetterFitness_spec in H. lia.
Qed.

Lemma searchSwaps_last_probe (s0 : Solver) (score0 : Z * Z)
    (before : list (nat * nat)) (i j : nat) (enc : EncodedSolution.t)
    (s1 s' : Solver) :
  probeBase s1 = probeBase s0
  → searchSwaps score0 (before ++ [(i, j)]) enc s1 = Ok ((score0, enc), s')
  → ∃ sc, evaluateSwap (swapBlocks i j enc) s0 = Ok (sc, s').
Proof.
  revert s1. induction before as [|[i' j'] before IH]; intros s1 Hbase.
  - rewrite app_nil_l, searchSwaps_cons.
    rewrite (evaluateSwap_base _ s1), Hbase, <- evaluateSwap_base.
    destruct (evaluateSwap _ s0) as [[scoreNew s2]|]; [|done].
    destruct (isBetterFitness scoreNew score0) eqn:Hb.
    + intros [= -> _ _]. by rewrite isBetterFitness_irrefl in Hb.
    + simpl. intros [= <-]. by exists scoreNew.
  - rewrite <- app_comm_cons, searchSwaps_cons.
    destruct (evaluateSwap _ s1) as [[scoreNew s2]|] eqn:Heval; [|done].
    destruct (isBetterFitness scoreNew score0) eqn:Hb.
    + intros [= -> _ _]. by rewrite isBetterFitness_irrefl in Hb.
    + apply IH. apply evaluateSwap_base_out in Heval. congruence.
Qed.

(** X15.  When [localSearchNurses] probes at least one pair and returns the
    initial score with the encoding unchanged (no swap was better), the
    solver is left in the state of the last swap it probed and rejected:
    the state a full [solve] of the encoding with that last pair of blocks
    swapped produces, not the state of the encoding it returns. *)
Theorem localSearchNurses_leaves_last_probe (enc : EncodedSolution.t)
    (score0 : Z * Z) (meta : list (Z * string)) (before : list (nat * nat))
    (i j : nat) (s s0 s' : Solver) :
  solve enc s = Ok ((score0, enc), s0)
  → blockMeta (ProblemInstance.nurses (problem s0))
      (length (EncodedSolution.encoded_nurses enc)) = Ok meta
  → swapCandidates meta = before ++ [(i, j)]
  → localSearchNurses enc s = Ok ((score0, enc), s')
  → ∃ score, solve (swapBlocks i j enc) s = Ok ((score, swapBlocks i j enc), s').
Proof.
  intros Hsolve Hmeta Hcands.
  unfold localSearchNurses. unfold mbind at 1, M_bind at 1. rewrite Hsolve.
  unfold mbind at 1, M_bind at 1. simpl.
  unfold mbind at 1, M_bind at 1. unfold lift. rewrite Hmeta, Hcands.
  intros [sc Hprobe]%(searchSwaps_last_probe s0); [|done].
  rewrite (evaluateSwap_solve enc (swapBlocks i j enc) _ s s0 Hsolve) in Hprobe
    by apply swapBlocks_patients.
  unfold mbind, M_bind in Hprobe.
  destruct (solve (swapBlocks i j enc) s) as [[[sc' e] s1]|] eqn:Hsolve'; [|done].
  apply solve_Ok in Hsolve' as [-> _]. injection Hprobe as _ <-.
  by exists sc'.
Qed.

(** ** Repair is first-fit over days, then rooms *)

Lemma firstFit_app (patient : Patient.t) (s : Solver)
    (c1 c2 : list (Z * string)) (enc e1 : EncodedPatientSolution.t)
    (r : bool * EncodedPatientSolution.t) :
  firstFit patient s c1 enc (false, e1)
  → firstFit patient s c2 e1 r
  → firstFit patient s (c1 ++ c2) enc r.
Proof.
  unfold firstFit. simpl. intros [-> H1]. destruct r as [[|] e2]; simpl.
  - intros (before & after & -> & Hb & Hok & Hid).
    exists (c1 ++ before), after. rewrite <- app_assoc.
    split_and!; [done | by apply Forall_app | done | done].
  - intros [-> H2]. split; [done | by apply Forall_app].
Qed.

Lemma firstFit_here (patient : Patient.t) (s : Solver)
    (c1 c2 : list (Z * string)) (enc : EncodedPatientSolution.t)
    (r : bool * EncodedPatientSolution.t) :
  r.1 = true
  → firstFit patient s c1 enc r
  → firstFit patient s (c1 ++ c2) enc r.
Proof.
  unfold firstFit. intros ->. intros (before & after & -> & Hb & Hok & Hid).
  exists before, (after ++ c2). by rewrite <- app_assoc.
Qed.

Lemma tryRooms_first_fit (patient : Patient.t) (newDay : Z) (rooms : list Room.t)
    (enc : EncodedPatientSolution.t) (r : bool * EncodedPatientSolution.t)
    (s0 s s' : Solver) :
  touchEquiv s0 s
  → tryRooms patient newDay rooms enc s = Ok (r, s')
  → firstFit patient s0 (repairCandidates patient [newDay] rooms) enc r.
Proof.
  unfold repairCandidates. rewrite bind_cons. simpl. rewrite app_nil_r.
  revert enc s. induction rooms as [|room rooms IH]; intros enc s Hs; simpl.
  - intros [<- _]%M_ret_Ok. by split.
  - case_bool_decide as Hinc.
    + rewrite filter_cons_False by (by intros ?). by apply IH.
    + rewrite filter_cons_True by done. rewrite fmap_cons.
      intros (ok & s1 & Hc & Hk)%M_bind_Ok.
      pose proof (resEquiv_outcome _ _
                    (checkPlacement_equiv patient newDay (Room.id room) _ _ Hs))
        as Hout.
      rewrite Hc in Hout. simpl in Hout.
      apply checkPlacement_touch in Hc as Hs1.
      destruct ok.
      * apply M_ret_Ok in Hk as [<- _]. unfold firstFit. simpl.
        exists [], ((λ room0, (newDay, Room.id room0))
                      <$> filter (λ room0, Room.id room0
                                           ∉ Patient.incompatible_room_ids patient)
                                 rooms).
        by split_and!.
      * apply IH in Hk; [|by eapply touchEquiv_trans].
        apply (firstFit_app patient s0 [(newDay, Room.id room)] _ enc
                 (EncodedPatientSolution.mk (EncodedPatientSolution.patient_id enc)
                    (EncodedPatientSolution.admission_day enc)
                    (EncodedPatientSolution.room_id enc))); [|done].
        unfold firstFit. simpl. split; [by destruct enc|].
        by constructor.
Qed.

Lemma repairCandidates_cons (patient : Patient.t) (d : Z) (newDays : list Z)
    (rooms : list Room.t) :
  repairCandidates patient (d :: newDays) rooms
  = repairCandidates patient [d] rooms ++ repairCandidates patient newDays rooms.
Proof.
  unfold repairCandidates. rewrite !bind_cons. simpl. by rewrite app_nil_r.
Qed.

Lemma tryDays_first_fit (patient : Patient.t) (newDays : list Z)
    (rooms : list Room.t) (enc : EncodedPatientSolution.t)
    (r : bool * EncodedPatientSolution.t) (s0 s s' : Solver) :
  touchEquiv s0 s
  → tryDays patient newDays rooms enc s = Ok (r, s')
  → firstFit patient s0 (repairCandidates patient newDays rooms) enc r.
Proof.
  revert enc s. induction newDays as [|d newDays IH]; intros enc s Hs.
  - intros [<- _]%M_ret_Ok. by split.
  - rewrite repairCandidates_cons. intros H. simpl in H.
    apply M_bind_Ok in H as ([b1 enc1] & s1 & Hr & Hk).
    apply tryRooms_touch in Hr as Ht. destruct Ht as [Hs1 _].
    apply (tryRooms_first_fit _ _ _ _ _ s0) in Hr; [|done].
    simpl in Hk. destruct b1.
    + apply M_ret_Ok in Hk as [<- _]. by apply firstFit_here.
    + apply IH in Hk; [|by eapply touchEquiv_trans].
      by eapply firstFit_app.
Qed.

(** X16.  [repairMandatoryPatient] is first-fit: it tries the days of the
    window [[release, min(due, days - 1)]] in increasing order and, for each
    day, the compatible rooms in declaration order; it stops at the first
    pair that passes the three checks and stores it in the entry, and
    reports failure, with the entry as it was, only when every pair is
    rejected. *)
Theorem repairMandatoryPatient_first_fit (patient : Patient.t)
    (enc : EncodedPatientSolution.t) (r : bool * EncodedPatientSolution.t)
    (s s' : Solver) :
  repairMandatoryPatient patient enc s = Ok (r, s')
  → firstFit patient s
      (repairCandidates patient
         (mandatoryDays (ProblemInstance.days (problem s)) patient)
         (ProblemInstance.rooms (problem s)))
      enc r.
Proof.
  unfold repairMandatoryPatient. apply tryDays_first_fit, touchEquiv_refl.
Qed.

(** X17.  [repairOptionalPatient] is first-fit over the days from the
    release day to the end of the horizon and, for each day, the compatible
    rooms in declaration order: it stores the first pair that passes the
    three checks, and reports failure, with the entry as it was, only when
    every pair is rejected; the repeated attempts add nothing. *)
Theorem repairOptionalPatient_first_fit (patient : Patient.t)
    (enc : EncodedPatientSolution.t) (r : bool * EncodedPatientSolution.t)
    (s s' : Solver) :
  repairOptionalPatient patient enc s = Ok (r, s')
  → firstFit patient s
      (repairCandidates patient
         (optionalDays (ProblemInstance.days (problem s)) patient)
         (ProblemInstance.rooms (problem s)))
      enc r.
Proof.
  intros Hrepair.
  pose proof (repairAttempts_pass 4 patient enc s s (touchEquiv_refl s)) as Hpass.
  change (repairAttempts 5 patient enc s) with (repairOptionalPatient patient enc s)
    in Hpass.
  rewrite Hrepair in Hpass. unfold exhaustivePass in Hpass.
  destruct (tryDays _ _ _ _ s) as [[r1 s1]|] eqn:Htry; [|done].
  destruct Hpass as [-> _].
  eapply tryDays_first_fit; [apply touchEquiv_refl | exact Htry].
Qed.

Lemma elem_of_repairCandidates (patient : Patient.t) (newDays : list Z)
    (rooms : list Room.t) (d : Z) (room_id : string) :
  (d, room_id) ∈ repairCandidates patient newDays rooms
  ↔ d ∈ newDays
    ∧ (room_id ∉ Patient.incompatible_room_ids patient)
    ∧ room_id ∈ Room.id <$> rooms.
Proof.
  unfold repairCandidates. rewrite list_elem_of_bind. split.
  - intros (d' & Hin & Hd).
    apply list_elem_of_fmap in Hin as (room & [= -> ->] & Hroom).
    apply list_elem_of_filter in Hroom as [Hinc Hroom].
    split_and!; [done | done | by apply list_elem_of_fmap_2].
  - intros (Hd & Hinc & Hroom).
    apply list_elem_of_fmap in Hroom as (room & -> & Hroom).
    exists d. split; [|done].
    apply list_elem_of_fmap. exists room. split; [done|].
    by apply list_elem_of_filter.
Qed.

Lemma firstFit_candidate (patient : Patient.t) (s : Solver)
    (candidates : list (Z * string)) (enc enc' : EncodedPatientSolution.t) :
  firstFit patient s candidates enc (true, enc')
  → (EncodedPatientSolution.admission_day enc',
     EncodedPatientSolution.room_id enc') ∈ candidates.
Proof.
  intros (before & after & -> & _). simpl.
  apply elem_of_app. right. by left.
Qed.

(** X18.  A placement found by [repairMandatoryPatient] is admissible: its
    day lies in the patient's surgery window and inside the horizon, and
    its room is a room of the problem that is not in the patient's list of
    incompatible rooms. *)
Theorem repairMandatoryPatient_admissible (patient : Patient.t)
    (enc enc' : EncodedPatientSolution.t) (s s' : Solver) :
  repairMandatoryPatient patient enc s = Ok ((true, enc'), s')
  → Patient.surgery_release_day patient
    ≤ EncodedPatientSolution.admission_day enc'
    ≤ Patient.surgery_due_day patient
    ∧ EncodedPatientSolution.admission_day enc' < ProblemInstance.days (problem s)
    ∧ (EncodedPatientSolution.room_id enc'
       ∉ Patient.incompatible_room_ids patient)
    ∧ EncodedPatientSolution.room_id enc'
      ∈ Room.id <$> ProblemInstance.rooms (problem s).
Proof.
  unfold repairMandatoryPatient. intros H.
  apply (tryDays_first_fit _ _ _ _ _ s), firstFit_candidate,
    elem_of_repairCandidates in H as (Hd & Hinc & Hroom);
    [|apply touchEquiv_refl].
  unfold mandatoryDays in Hd. apply elem_of_seqZ in Hd.
  split_and!; [lia | lia | lia | done | done].
Qed.

(** X19.  A placement found by [repairOptionalPatient] is admissible: its
    day is not before the patient's release day and inside the horizon, and
    its room is a room of the problem that is not in the patient's list of
    incompatible rooms. *)
Theorem repairOptionalPatient_admissible (patient : Patient.t)
    (enc enc' : EncodedPatientSolution.t) (s s' : Solver) :
  repairOptionalPatient patient enc s = Ok ((true, enc'), s')
  → Patient.surgery_release_day patient
    ≤ EncodedPatientSolution.admission_day enc'
    < ProblemInstance.days (problem s)
    ∧ (EncodedPatientSolution.room_id enc'
       ∉ Patient.incompatible_room_ids patient)
    ∧ EncodedPatientSolution.room_id enc'
      ∈ Room.id <$> ProblemInstance.rooms (problem s).
Proof.
  intros Hrepair.
  pose proof (repairAttempts_pass 4 patient enc s s (touchEquiv_refl s)) as Hpass.
  change (repairAttempts 5 patient enc s) with (repairOptionalPatient patient enc s)
    in Hpass.
  rewrite Hrepair in Hpass. unfold exhaustivePass in Hpass.
  destruct (tryDays _ _ _ _ s) as [[r1 s1]|] eqn:Htry; [|done].
  destruct Hpass as [-> _].
  apply (tryDays_first_fit _ _ _ _ _ s), firstFit_candidate,
    elem_of_repairCandidates in Htry as (Hd & Hinc & Hroom);
    [|apply touchEquiv_refl].
  unfold optionalDays in Hd. apply elem_of_seqZ in Hd.
  split_and!; [lia | lia | done | done].
Qed.

(** ** The nurse applier pairs working shifts with blocks in order *)

Lemma shiftAssignments_spec (working_shifts : list WorkingShift.t)
    (encoded_nurses : list (list string)) (k : nat) :
  shiftAssignments working_shifts encoded_nurses (Z.of_nat k)
  = if decide (length working_shifts ≤ length (drop k encoded_nurses))%nat
    then Ok (zip_with shiftOf working_shifts (drop k encoded_nurses),
             Z.of_nat (k + length working_shifts))
    else Err Undefined.
Proof.
  revert k. induction working_shifts as [|ws rest IH]; intros k.
  - rewrite decide_True by (simpl; lia). simpl. by rewrite Nat.add_0_r.
  - simpl. unfold vec_at. rewrite bool_decide_true by lia. rewrite Nat2Z.id.
    destruct (encoded_nurses !! k) as [rooms|] eqn:Hk.
    + rewrite (drop_S _ _ _ Hk). simpl.
      replace (Z.of_nat k + 1) with (Z.of_nat (S k)) by lia. rewrite IH.
      destruct (decide (length rest ≤ length (drop (S k) encoded_nurses))%nat).
      * rewrite decide_True by lia. simpl. do 2 f_equal. lia.
      * by rewrite decide_False by lia.
    + apply lookup_ge_None in Hk. by rewrite drop_ge by done.
Qed.

Lemma zip_with_app_drop {A B C} (f : A → B → C) (a b : list A) (ks : list B) :
  (length a ≤ length ks)%nat
  → zip_with f (a ++ b) ks
    = zip_with f a ks ++ zip_with f b (drop (length a) ks).
Proof.
  revert ks. induction a as [|x a IH]; intros ks Hlen; [done|].
  destruct ks as [|y ks]; simpl in *; [lia|].
  f_equal. apply IH. lia.
Qed.

Lemma nurseAssignments_spec (nurses : list Nurse.t)
    (encoded_nurses : list (list string)) (k : nat) :
  if decide (length (allShifts nurses) ≤ length (drop k encoded_nurses))%nat
  then ∃ l, nurseAssignments nurses encoded_nurses (Z.of_nat k) = Ok l
            ∧ Forall2 (λ nurse na,
                         NurseAssignment.id na = Nurse.id nurse
                         ∧ length (NurseAssignment.assignments na)
                           = length (Nurse.working_shifts nurse))
                      nurses l
            ∧ concat (NurseAssignment.assignments <$> l)
              = zip_with shiftOf (allShifts nurses) (drop k encoded_nurses)
  else nurseAssignments nurses encoded_nurses (Z.of_nat k) = Err Undefined.
Proof.
  revert k. induction nurses as [|nurse rest IH]; intros k.
  - rewrite decide_True by (simpl; lia). exists []. by split_and!.
  - unfold allShifts. rewrite fmap_cons, concat_cons, length_app.
    fold (allShifts rest). simpl. rewrite shiftAssignments_spec.
    set (n := length (Nurse.working_shifts nurse)).
    destruct (decide (n ≤ length (drop k encoded_nurses))%nat) as [Hn|Hn].
    2:{ by rewrite decide_False by lia. }
    simpl. specialize (IH (k + n)%nat).
    rewrite <- drop_drop in IH. rewrite length_drop in IH.
    destruct (decide (length (allShifts rest)
                      ≤ length (drop k encoded_nurses) - n)%nat) as [Hr|Hr].
    + destruct IH as (l & Hl & HF & Hcat). rewrite decide_True by lia.
      rewrite Hl. simpl.
      eexists. split; [done|]. split.
      * constructor; [|done]. simpl. split; [done|].
        rewrite length_zip_with. lia.
      * rewrite fmap_cons, concat_cons, Hcat. simpl.
        by rewrite zip_with_app_drop.
    + rewrite decide_False by lia. by rewrite IH.
Qed.

(** X20.  [applyNurses] pairs the working shifts of the nurses, nurse after
    nurse, with the blocks of the encoding in order, starting at block 0.
    It succeeds exactly when there are at least as many blocks as working
    shifts (surplus blocks are ignored) and is undefined otherwise.  On
    success the nurse assignments of the solution are replaced: one
    assignment per nurse, in order, with the nurse's id and one shift
    assignment per working shift, carrying the day and shift of that
    working shift and the rooms of its block; nothing else changes. *)
Theorem applyNurses_spec (enc : EncodedSolution.t) (s : Solver) :
  let nurses := ProblemInstance.nurses (problem s) in
  let blocks := EncodedSolution.encoded_nurses enc in
  if decide (length (allShifts nurses) ≤ length blocks)%nat
  then ∃ l, applyNurses enc s
            = Ok (tt, set_solution (Solution.set_nurses l (solution s)) s)
            ∧ Forall2 (λ nurse na,
                         NurseAssignment.id na = Nurse.id nurse
                         ∧ length (NurseAssignment.assignments na)
                           = length (Nurse.working_shifts nurse))
                      nurses l
            ∧ concat (NurseAssignment.assignments <$> l)
              = zip_with shiftOf (allShifts nurses) blocks
  else applyNurses enc s = Err Undefined.
Proof.
  intros nurses blocks. unfold applyNurses. fold nurses blocks.
  pose proof (nurseAssignments_spec nurses blocks 0) as H.
  rewrite drop_0 in H. change (Z.of_nat 0) with 0 in H.
  destruct (decide _) as [Hle|Hgt].
  - destruct H as (l & -> & HF & Hcat). by exists l.
  - by rewrite H.
Qed.

(** ** solve never overbooks a surgeon *)

Lemma surgeryLoad_snoc (patients : list Patient.t)
    (records : list PatientAssignment.t) (pa : PatientAssignment.t)
    (surgeon_id : string) (day : Z) :
  surgeryLoad patients (records ++ [pa]) surgeon_id day
  = surgeryLoad patients records surgeon_id day
    + surgeryCharge patients surgeon_id day pa.
Proof.
  unfold surgeryLoad. induction records as [|x records IH]; simpl; [lia|].
  rewrite IH. lia.
Qed.

Lemma findSurgeon_NoDup (surgeons : list Surgeon.t) (sg0 : Surgeon.t) :
  NoDup (Surgeon.id <$> surgeons)
  → sg0 ∈ surgeons
  → ∃ i, findSurgeon surgeons (Surgeon.id sg0) = Some (i, sg0).
Proof.
  intros Hnd Hin. unfold findSurgeon.
  destruct (list_find_elem_of (λ sg, Surgeon.id sg = Surgeon.id sg0) surgeons sg0)
    as [[i x] Hfind]; [done..|].
  exists i. rewrite Hfind. do 2 f_equal.
  apply list_find_Some in Hfind as (Hi & Hid & _).
  apply list_elem_of_lookup in Hin as [j Hj].
  assert (i = j) as ->; [|congruence].
  eapply NoDup_lookup; [exact Hnd| |].
  - rewrite list_lookup_fmap, Hi. simpl. by rewrite Hid.
  - by rewrite list_lookup_fmap, Hj.
Qed.

Lemma commitPlacement_surgeons (patient : Patient.t) (day : Z) (room_id : string)
    (s0 s1 s2 : Solver) :
  checkPlacement patient day room_id s0 = Ok (true, s1)
  → commitPlacement patient day room_id s1 = Ok (tt, s2)
  → ∃ budget theater_id,
      surgeonBudget (ProblemInstance.surgeons (problem s1))
        (Patient.surgeon_id patient) day = Ok budget
      ∧ Patient.surgery_duration patient ≤ budget
      ∧ (∀ surgeon_id d,
           surgeonBudget (ProblemInstance.surgeons (problem s2)) surgeon_id d
           = if decide (surgeon_id = Patient.surgeon_id patient ∧ d = day)
             then Ok (budget - Patient.surgery_duration patient)
             else surgeonBudget (ProblemInstance.surgeons (problem s1))
                    surgeon_id d)
      ∧ ProblemInstance.patients (problem s2)
        = ProblemInstance.patients (problem s1)
      ∧ originalProblem s2 = originalProblem s1
      ∧ Solution.patients (solution s2)
        = Solution.patients (solution s1)
          ++ [PatientAssignment.mk (Patient.id patient) (Some day) room_id
                theater_id].
Proof.
  intros Hcheck Hcommit.
  apply checkPlacement_true in Hcheck as (Hs & _ & _).
  unfold commitPlacement in Hcommit.
  apply M_bind_Ok in Hcommit
    as (u1 & sa & H1 & (theater_id & sb & H2 & (u3 & sc & H3 & H4)%M_bind_Ok)%M_bind_Ok).
  pose proof (assignSurgeon_cases patient day s1) as Hcases.
  unfold checkSurgeonAvailability, surgeonAvailable in Hs.
  unfold surgeonBudget in Hcases |- *.
  destruct (findSurgeon _ _) as [[i sg]|]; [|done].
  destruct (vec_at _ day) as [budget|]; [|done]. simpl in Hs.
  destruct Hcases as (surgeons' & Hassign & Hreads).
  exists budget, theater_id.
  split; [done|]. split.
  { injection Hs as Hs. by apply bool_decide_eq_true in Hs. }
  rewrite Hassign in H1. injection H1 as H1. subst sa.
  set (proj := λ s : Solver, (problem s, originalProblem s,
                              Solution.patients (solution s))).
  apply (keeps_assignOperatingTheater proj) in H2; [|done].
  apply (keeps_assignRoom proj) in H3; [|done].
  assert (proj sc = proj
            (set_problem (ProblemInstance.set_surgeons surgeons' (problem s1)) s1))
    as [= Hp Ho Hpa] by congruence.
  injection H4 as <-. simpl. rewrite Hp, Ho, Hpa. simpl.
  split_and!; [|done..]. exact Hreads.
Qed.

Lemma solvePatients_budgets (encodedSolution : EncodedSolution.t)
    (locals : list EncodedPatientSolution.t * list EncodedPatientSolution.t)
    (s s' : Solver) :
  ProblemInstance.patients (problem s)
  = ProblemInstance.patients (originalProblem s)
  → NoDup (Surgeon.id <$> ProblemInstance.surgeons (originalProblem s))
  → Forall (λ sg, Forall (λ b, 0 ≤ b) (Surgeon.max_surgery_time sg))
           (ProblemInstance.surgeons (originalProblem s))
  → solvePatients encodedSolution s = Ok (locals, s')
  → originalProblem s' = originalProblem s
    ∧ budgetsAccounted (originalProblem s) s'.
Proof.
  intros Hpat Hnd Hpos Hsolve.
  set (orig := originalProblem s) in *.
  apply (invariant_solvePatients
           (λ s', (originalProblem s' = orig
                   ∧ ProblemInstance.patients (problem s')
                     = ProblemInstance.patients orig)
                  ∧ budgetsAccounted orig s')) in Hsolve.
  - by destruct Hsolve as [[? _] ?].
  - intros s0 s1 (ts & _ & ->). done.
  - intros patient day room_id k s0 s1 s2 [[Ho Hp] Hacc] Hfind Hcheck Hcommit.
    destruct (commitPlacement_surgeons _ _ _ _ _ _ Hcheck Hcommit)
      as (budget & theater_id & Hb & Hle & Hreads & Hp2 & Ho2 & Hrec).
    split; [split; congruence|].
    intros sg0 d b0 Hin Hb0.
    destruct (Hacc sg0 d b0 Hin Hb0) as (t & Ht & Htpos & Heq).
    rewrite Hreads, Hrec, surgeryLoad_snoc.
    unfold surgeryCharge. simpl. rewrite Hp in Hfind. rewrite Hfind.
    destruct (decide (Surgeon.id sg0 = Patient.surgeon_id patient ∧ d = day))
      as [[Hid ->]|Hne].
    + rewrite Hid in Ht. rewrite Hb in Ht. injection Ht as <-.
      rewrite (decide_True (P := Patient.surgeon_id patient = Surgeon.id sg0
                                 ∧ day = day)) by done.
      eexists. split; [done|]. split; [lia|]. lia.
    + rewrite (decide_False (P := Patient.surgeon_id patient = Surgeon.id sg0
                                  ∧ day = d))
        by (intros [? ?]; by apply Hne).
      exists t. split; [done|]. split; [done|]. lia.
  - intros patient_id s0 [[Ho Hp] Hacc]. split; [done|].
    intros sg0 d b0 Hin Hb0.
    destruct (Hacc sg0 d b0 Hin Hb0) as (t & Ht & Htpos & Heq).
    exists t. simpl. rewrite surgeryLoad_snoc. unfold surgeryCharge. simpl.
    split; [done|]. split; [done|]. lia.
  - intros u s1. unfold initializeDynamicStates.
    destruct (mapM _ _) as [ts|]; [|done]. simpl. intros [= _ <-]. simpl.
    split; [by split|].
    intros sg0 d b0 Hin Hb0. simpl. fold orig.
    destruct (findSurgeon_NoDup _ _ Hnd Hin) as [i Hi].
    exists b0. unfold surgeonBudget. fold orig. rewrite Hi.
    split; [done|]. split; [|unfold surgeryLoad; simpl; lia].
    rewrite Forall_forall in Hpos. specialize (Hpos sg0 Hin).
    rewrite Forall_forall in Hpos. apply Hpos.
    apply vec_at_Ok in Hb0 as [_ Hb0]. by eapply list_elem_of_lookup_2.
Qed.

Lemma surgeryTimes_spec (orig : ProblemInstance.t) (sol : Solution.t)
    (surgeon : Surgeon.t) (v : list Z) :
  surgeryTimes orig sol surgeon = Ok v
  → ∀ d, 0 ≤ d < ProblemInstance.days orig
         → vec_at v d
           = Ok (surgeryLoad (ProblemInstance.patients orig) (Solution.patients sol)
                   (Surgeon.id surgeon) d).
Proof.
  unfold surgeryTimes. case_bool_decide as Hdays; [done|].
  set (f := λ (surgeryTime : list Z) (patientAssignment : PatientAssignment.t), _).
  assert (∀ records v0,
            res_foldl f v0 records = Ok v
            → ∀ d : nat,
                v !! d
                = (λ x, x + surgeryLoad (ProblemInstance.patients orig) records
                              (Surgeon.id surgeon) (Z.of_nat d)) <$> v0 !! d)
    as Hgen.
  { induction records as [|pa records IH]; intros v0.
    - intros [= <-] d. unfold surgeryLoad. simpl.
      destruct (v0 !! d) as [x|]; simpl; [f_equal; lia | done].
    - rewrite res_foldl_cons. intros (v1 & Hstep & Hrest)%res_bind_Ok d.
      rewrite (IH _ Hrest).
      assert (v1 !! d
              = (λ x, x + surgeryCharge (ProblemInstance.patients orig)
                            (Surgeon.id surgeon) (Z.of_nat d) pa) <$> v0 !! d)
        as ->.
      { revert Hstep. unfold f, surgeryCharge.
        destruct (PatientAssignment.admission_day pa) as [ad|].
        2:{ intros [= <-]. destruct (v0 !! d); simpl; [f_equal; lia | done]. }
        destruct (findPatient _ _) as [[i p]|].
        2:{ intros [= <-]. destruct (v0 !! d); simpl; [f_equal; lia | done]. }
        case_bool_decide as Hsg.
        2:{ intros [= <-]. rewrite decide_False by (by intros [? _]).
            destruct (v0 !! d); simpl; [f_equal; lia | done]. }
        intros (old & Hold & Hset)%res_bind_Ok.
        apply vec_at_Ok in Hold as [Had Hold].
        unfold vec_set in Hset. rewrite bool_decide_true in Hset by done.
        case_bool_decide as Hlen; [|done]. injection Hset as <-.
        destruct (decide (ad = Z.of_nat d)) as [->|Hne].
        - rewrite decide_True by done. rewrite Nat2Z.id in *.
          rewrite list_lookup_insert_eq by done. by rewrite Hold.
        - rewrite decide_False by (by intros [_ ?]).
          rewrite list_lookup_insert_ne by lia.
          destruct (v0 !! d); simpl; [f_equal; lia | done]. }
      unfold surgeryLoad. simpl.
      destruct (v0 !! d) as [x|]; simpl; [f_equal; lia | done]. }
  intros Hfold d Hd. apply vec_at_Ok. split; [lia|].
  rewrite (Hgen _ _ Hfold).
  rewrite lookup_replicate_2 by lia. simpl. f_equal.
  rewrite Z2Nat.id by lia. lia.
Qed.

Lemma H3_zero (orig : ProblemInstance.t) (sol : Solution.t) (h : Z) :
  (∀ sg0 d b0,
     sg0 ∈ ProblemInstance.surgeons orig
     → vec_at (Surgeon.max_surgery_time sg0) d = Ok b0
     → surgeryLoad (ProblemInstance.patients orig) (Solution.patients sol)
         (Surgeon.id sg0) d ≤ b0)
  → H3 orig sol = Ok h
  → h = 0.
Proof.
  intros Hload. unfold H3.
  set (F := λ (violations : Z) (surgeon : Surgeon.t), _).
  assert (∀ surgeons v,
            (∀ sg0, sg0 ∈ surgeons → sg0 ∈ ProblemInstance.surgeons orig)
            → res_foldl F v surgeons = Ok h → h = v) as Hall.
  2:{ by apply Hall. }
  intros surgeons. induction surgeons as [|sg surgeons IH]; intros v Hsub.
  - by intros [= <-].
  - rewrite res_foldl_cons. intros (v1 & Hstep & Hrest)%res_bind_Ok.
    apply IH in Hrest; [|intros; apply Hsub; by right]. subst h.
    unfold F in Hstep.
    apply res_bind_Ok in Hstep as (st & Hst & Hdays).
    pose proof (surgeryTimes_spec _ _ _ _ Hst) as Hused.
    assert (∀ ds w, (∀ d, d ∈ ds → 0 ≤ d < ProblemInstance.days orig)
                    → res_foldl
                        (λ violations day,
                           used ← vec_at st day;
                           budget ← vec_at (Surgeon.max_surgery_time sg) day;
                           Ok (if bool_decide (budget < used)
                               then violations + 1 else violations))
                        w ds = Ok v1
                    → v1 = w) as Hgen.
    { induction ds as [|d ds IHd]; intros w Hds.
      - by intros [= <-].
      - rewrite res_foldl_cons. intros (w1 & Hw & Hk)%res_bind_Ok.
        apply IHd in Hk; [|intros; apply Hds; by right]. subst w1.
        rewrite Hused in Hw by (apply Hds; by left). simpl in Hw.
        destruct (vec_at (Surgeon.max_surgery_time sg) d) as [b0|] eqn:Hb0;
          [|done].
        simpl in Hw. rewrite bool_decide_false in Hw; [by injection Hw|].
        pose proof (Hload sg d b0 ltac:(apply Hsub; by left) Hb0). lia. }
    apply (Hgen _ _ (λ d Hd, proj1 (elem_of_seqZ _ _ _) Hd)) in Hdays.
    done.
Qed.

Lemma solve_H3_Ok (encodedSolution : EncodedSolution.t)
    (r : (Z * Z) * EncodedSolution.t) (s s' : Solver) :
  solve encodedSolution s = Ok (r, s')
  → ∃ h3, H3 (originalProblem s') (solution s') = Ok h3.
Proof.
  unfold solve.
  intros (locals & s1 & Hp & ([] & s2 & Hn & (h & s3 & Hh & (f & s4 & Hf & Hr)%M_bind_Ok)%M_bind_Ok)%M_bind_Ok)%M_bind_Ok.
  apply M_ret_Ok in Hr as [_ <-].
  unfold calculateHardConstraintViolations in Hh.
  destruct (hardViolations _ _) as [v|] eqn:Hv; [|done]. injection Hh as _ <-.
  unfold calculateSoftConstraints in Hf.
  destruct (softConstraints _ _) as [sc|]; [|done]. injection Hf as _ <-.
  unfold hardViolations in Hv.
  apply res_bind_Ok in Hv as (h3 & Hh3 & _). by exists h3.
Qed.

(** X21.  [solve] never overbooks a surgeon.  When the working problem
    lists the patients of the pristine problem, surgeon ids are distinct and
    no declared budget is negative, the surgeon-overtime count H3 of the
    state a successful [solve] leaves is zero: for every surgeon and day,
    the surgery time of the admitted patients is within the declared
    budget. *)
Theorem solve_respects_surgeon_budgets (encodedSolution : EncodedSolution.t)
    (r : (Z * Z) * EncodedSolution.t) (s s' : Solver) :
  ProblemInstance.patients (problem s)
  = ProblemInstance.patients (originalProblem s)
  → NoDup (Surgeon.id <$> ProblemInstance.surgeons (originalProblem s))
  → Forall (λ sg, Forall (λ b, 0 ≤ b) (Surgeon.max_surgery_time sg))
           (ProblemInstance.surgeons (originalProblem s))
  → solve encodedSolution s = Ok (r, s')
  → H3 (originalProblem s') (solution s') = Ok 0.
Proof.
  intros Hpat Hnd Hpos Hsolve.
  destruct (solve_H3_Ok _ _ _ _ Hsolve) as [h3 Hh3].
  rewrite Hh3. f_equal. eapply H3_zero; [|exact Hh3].
  apply solve_after_patients in Hsolve
    as (locals & s1 & Hp & _ & _ & Hrec & _ & Ho).
  destruct (solvePatients_budgets _ _ _ _ Hpat Hnd Hpos Hp) as [Ho1 Hacc].
  rewrite Ho, Ho1, Hrec.
  intros sg0 d b0 Hin Hb0.
  destruct (Hacc sg0 d b0 Hin Hb0) as (t & _ & Htpos & ->). lia.
Qed.

(** ** solve never overbooks a theater *)

Lemma mapM_res_Forall2 {A B} (f : A → res B) (l : list A) (k : list B) :
  mapM f l = Ok k → Forall2 (λ x y, f x = Ok y) l k.
Proof.
  revert k. induction l as [|x l IH]; intros k; simpl.
  - by intros [= <-].
  - intros (y & Hy & (k' & Hk' & [= <-])%res_bind_Ok)%res_bind_Ok.
    constructor; [done | by apply IH].
Qed.

Lemma initTheaterStates_seeded (u : unit) (s s1 : Solver) :
  initializeDynamicStates s = Ok (u, s1)
  → Forall2 (seededTheater (ProblemInstance.days (problem s)))
            (ProblemInstance.theaters (problem s))
            (Solution.theaterStates (solution s1)).
Proof.
  unfold initializeDynamicStates.
  destruct (mapM _ _) as [ts|] eqn:Hts; [|done]. simpl. intros [= _ <-]. simpl.
  apply mapM_res_Forall2 in Hts.
  eapply Forall2_impl; [exact Hts|]. intros theater t Ht. simpl in Ht.
  destruct (initTheaterState_spec (ProblemInstance.days (problem s)) theater)
    as [Hok Herr].
  destruct (decide (ProblemInstance.days (problem s)
                    ≤ Z.of_nat (length (OperatingTheater.availability theater))))
    as [Hle|Hgt].
  - destruct (Hok Hle) as (t' & Ht' & Hseed). congruence.
  - rewrite Herr in Ht by lia. done.
Qed.

Lemma seededTheater_booked (days : Z) (theater : OperatingTheater.t)
    (t : OperatingTheaterState.t) :
  seededTheater days theater t → theaterBooked days theater t.
Proof.
  intros (Hinfo & Hpat & Hav). split; [done|]. intros d.
  rewrite Hpat, lookup_empty. simpl. split; [|by intros [? [=]]].
  unfold theaterAvailability, map_read, theaterBase, theaterTime.
  rewrite Hav. simpl. lia.
Qed.

Lemma theaterEquiv_booked (days : Z) (theater : OperatingTheater.t)
    (t t' : OperatingTheaterState.t) :
  theaterEquiv t t' → theaterBooked days theater t → theaterBooked days theater t'.
Proof.
  intros (Hinfo & Hpat & Hread) [Hth Hd]. split; [congruence|].
  intros d. rewrite <- Hpat, <- Hread. apply Hd.
Qed.

Lemma theaterTime_snoc (l : list Patient.t) (p : Patient.t) :
  theaterTime (l ++ [p]) = theaterTime l + Patient.surgery_duration p.
Proof. unfold theaterTime. by rewrite foldl_app. Qed.

Lemma bookTheater_booked (days : Z) (theater : OperatingTheater.t)
    (patient : Patient.t) (day : Z) (t : OperatingTheaterState.t) :
  Patient.surgery_duration patient ≤ theaterAvailability t day
  → theaterBooked days theater t
  → theaterBooked days theater (bookTheater patient day t).
Proof.
  intros Hfit [Hth Hd]. split; [done|]. intros d.
  unfold bookTheater, theaterAvailability, map_read, map_push. simpl.
  destruct (decide (day = d)) as [->|Hne].
  - rewrite !lookup_insert_eq. simpl. rewrite theaterTime_snoc.
    destruct (Hd d) as [Heq _].
    unfold theaterAvailability, map_read in Heq, Hfit.
    split; [lia | intros _; lia].
  - rewrite !lookup_insert_ne by done. apply Hd.
Qed.

Lemma selectTheater_fits (patient : Patient.t) (day : Z)
    (ts : list OperatingTheaterState.t) (i : nat) (t : OperatingTheaterState.t) :
  selectTheater patient day ts = Some (i, t)
  → ts !! i = Some t ∧ theaterFits patient day t = true.
Proof.
  unfold selectTheater.
  destruct (openTheaters patient day ts) as [|first rest] eqn:Hopen.
  - destruct (closedTheaters patient day ts) as [|firstc restc] eqn:Hclosed; [done|].
    intros [= Hbest].
    pose proof (pickClosed_spec day firstc (firstc :: restc)) as (Hin & _).
    simpl in Hin. rewrite Hbest in Hin.
    assert ((i, t) ∈ closedTheaters patient day ts) as Hin'.
    { rewrite Hclosed. destruct Hin as [->|?]; [by left | done]. }
    unfold closedTheaters in Hin'.
    apply elem_of_indexed_filter in Hin' as [? Hf]. simpl in Hf.
    by apply andb_true_iff in Hf as [? _].
  - intros [= Hbest].
    pose proof (pickOpen_spec patient day first (first :: rest)) as (Hin & _).
    simpl in Hin. rewrite Hbest in Hin.
    assert ((i, t) ∈ openTheaters patient day ts) as Hin'.
    { rewrite Hopen. destruct Hin as [->|?]; [by left | done]. }
    unfold openTheaters in Hin'.
    apply elem_of_indexed_filter in Hin' as [? Hf]. simpl in Hf.
    by apply andb_true_iff in Hf as [? _].
Qed.

Lemma commitPlacement_theaters (patient : Patient.t) (day : Z) (room_id : string)
    (s1 s2 : Solver) :
  commitPlacement patient day room_id s1 = Ok (tt, s2)
  → ∃ i t,
      Solution.theaterStates (solution s1) !! i = Some t
      ∧ Patient.surgery_duration patient ≤ theaterAvailability t day
      ∧ Solution.theaterStates (solution s2)
        = <[i := bookTheater patient day (touchTheater day t)]>
            (touchTheater day <$> Solution.theaterStates (solution s1))
      ∧ problemDefinition s2 = problemDefinition s1.
Proof.
  intros Hcommit.
  pose proof (keeps_commitPlacement _ _ _ _ _ _ Hcommit) as Hdef.
  unfold commitPlacement in Hcommit.
  apply M_bind_Ok in Hcommit
    as (u1 & sa & H1 & (theater_id & sb & H2 & (u3 & sc & H3 & H4)%M_bind_Ok)%M_bind_Ok).
  set (proj := λ s : Solver, Solution.theaterStates (solution s)).
  apply (keeps_assignSurgeon proj) in H1; [|done].
  apply (keeps_assignRoom proj) in H3; [|done].
  unfold assignOperatingTheater in H2.
  destruct (selectTheater _ _ _) as [[i best]|] eqn:Hsel; [|done].
  injection H2 as _ <-. injection H4 as <-.
  apply selectTheater_fits in Hsel as [Hi Hfit].
  rewrite list_lookup_fmap in Hi. unfold proj in *.
  destruct (Solution.theaterStates (solution sa) !! i) as [t|] eqn:Ht; [|done].
  injection Hi as <-.
  exists i, t. rewrite <- H1. split; [done|]. split.
  { unfold theaterFits in Hfit. apply bool_decide_eq_true in Hfit.
    by rewrite theaterAvailability_touch in Hfit. }
  split; [|done]. simpl. rewrite H3. done.
Qed.

Lemma findTheater_NoDup (theaters : list OperatingTheater.t)
    (theater : OperatingTheater.t) :
  NoDup (OperatingTheater.id <$> theaters)
  → theater ∈ theaters
  → ∃ i, findTheater theaters (OperatingTheater.id theater) = Some (i, theater).
Proof.
  intros Hnd Hin. unfold findTheater.
  destruct (list_find_elem_of
              (λ t, OperatingTheater.id t = OperatingTheater.id theater)
              theaters theater) as [[i x] Hfind]; [done..|].
  exists i. rewrite Hfind. do 2 f_equal.
  apply list_find_Some in Hfind as (Hi & Hid & _).
  apply list_elem_of_lookup in Hin as [j Hj].
  assert (i = j) as ->; [|congruence].
  eapply NoDup_lookup; [exact Hnd| |].
  - rewrite list_lookup_fmap, Hi. simpl. by rewrite Hid.
  - by rewrite list_lookup_fmap, Hj.
Qed.

Lemma solvePatients_theaters (encodedSolution : EncodedSolution.t)
    (locals : list EncodedPatientSolution.t * list EncodedPatientSolution.t)
    (s s' : Solver) :
  solvePatients encodedSolution s = Ok (locals, s')
  → Forall2 (theaterBooked (ProblemInstance.days (problem s)))
            (ProblemInstance.theaters (problem s))
            (Solution.theaterStates (solution s')).
Proof.
  apply (invariant_solvePatients
           (λ s', Forall2 (theaterBooked (ProblemInstance.days (problem s)))
                          (ProblemInstance.theaters (problem s))
                          (Solution.theaterStates (solution s')))).
  - intros s0 s1 (ts & Hts & ->) HI. simpl.
    revert HI Hts. generalize (Solution.theaterStates (solution s0)).
    generalize (ProblemInstance.theaters (problem s)).
    intros ths l HI. revert ts.
    induction HI as [|th t ths l Ht _ IH]; intros ts Hts.
    + by apply Forall2_nil_inv_l in Hts as ->.
    + apply Forall2_cons_inv_l in Hts as (t' & ts' & Heq & Hts' & ->).
      constructor; [by eapply theaterEquiv_booked | by apply IH].
  - intros patient day room_id k s0 s1 s2 HI _ _ Hcommit.
    destruct (commitPlacement_theaters _ _ _ _ _ Hcommit)
      as (i & t & Hi & Hfit & -> & _).
    destruct (Forall2_lookup_r _ _ _ _ _ HI Hi) as (th & Hth & Hbooked).
    rewrite <- (list_insert_id _ _ _ Hth).
    apply Forall2_insert.
    + apply Forall2_fmap_r. eapply Forall2_impl; [exact HI|].
      intros th' t' Hb. eapply theaterEquiv_booked; [|exact Hb].
      apply theaterEquiv_touch_r.
    + apply bookTheater_booked.
      * by rewrite theaterAvailability_touch.
      * eapply theaterEquiv_booked; [|exact Hbooked]. apply theaterEquiv_touch_r.
  - done.
  - intros u s1 Hinit. apply initTheaterStates_seeded in Hinit.
    eapply Forall2_impl; [exact Hinit|]. apply seededTheater_booked.
Qed.

(** X22.  [solve] never overbooks a theater.  When the working problem
    lists the theaters of the pristine problem, theater ids are distinct and
    no declared availability is negative, the theater-overtime count H4 of
    the state a successful [solve] leaves is zero: on every day the surgery
    time booked in a theater is within its declared availability. *)
Theorem solve_respects_theater_availability (encodedSolution : EncodedSolution.t)
    (r : (Z * Z) * EncodedSolution.t) (s s' : Solver) :
  ProblemInstance.theaters (problem s)
  = ProblemInstance.theaters (originalProblem s)
  → NoDup (OperatingTheater.id <$> ProblemInstance.theaters (originalProblem s))
  → Forall (λ theater, Forall (λ a, 0 ≤ a) (OperatingTheater.availability theater))
           (ProblemInstance.theaters (originalProblem s))
  → solve encodedSolution s = Ok (r, s')
  → H4 (originalProblem s') (solution s') = 0.
Proof.
  intros Hth Hnd Hpos Hsolve.
  pose proof (keeps_solve _ _ _ _ Hsolve) as Hdef.
  apply (f_equal fst) in Hdef. simpl in Hdef.
  apply solve_after_patients in Hsolve as (locals & s1 & Hp & _ & Hts & _).
  apply solvePatients_theaters in Hp. rewrite <- Hts, Hth in Hp.
  rewrite Hdef. unfold H4.
  apply accumulate_zeros, Forall_fmap, Forall_forall. intros t Ht.
  apply list_elem_of_lookup in Ht as [i Hi].
  destruct (Forall2_lookup_r _ _ _ _ _ Hp Hi) as (th & Hthi & Hinfo & Hbooked).
  apply count_none. intros [d l] Hin%elem_of_map_to_list. simpl.
  destruct (findTheater_NoDup _ th Hnd) as [j Hj];
    [by eapply list_elem_of_lookup_2|].
  rewrite Hinfo, Hj.
  destruct (vec_at (OperatingTheater.availability th) d) as [a|] eqn:Ha; [|done].
  apply bool_decide_eq_false.
  destruct (Hbooked d) as [Heq Hpos']. rewrite Hin in Heq, Hpos'. simpl in Heq.
  specialize (Hpos' ltac:(by eexists)).
  assert (theaterBase (ProblemInstance.days (problem s)) th d ≤ a) as Hbase.
  { unfold theaterBase. apply vec_at_Ok in Ha as [Hd Ha].
    destruct (decide _); simpl; [by rewrite Ha|].
    rewrite Forall_forall in Hpos.
    specialize (Hpos th ltac:(by eapply list_elem_of_lookup_2)).
    rewrite Forall_forall in Hpos. apply Hpos.
    by eapply list_elem_of_lookup_2. }
  fold (theaterTime l). lia.
Qed.

(** ** An encoding must name every mandatory patient *)

Lemma splitEncoded_elem_inv (patients : list Patient.t)
    (l : list EncodedPatientSolution.t)
    (acc split : list EncodedPatientSolution.t * list EncodedPatientSolution.t)
    (e : EncodedPatientSolution.t) :
  res_foldl
    (λ '(mandatoryEnc, optionalEnc) enc,
       match findPatient patients (EncodedPatientSolution.patient_id enc) with
       | None => Err DataFault
       | Some (_, patient) =>
           if Patient.mandatory patient
           then Ok (mandatoryEnc ++ [enc], optionalEnc)
           else Ok (mandatoryEnc, optionalEnc ++ [enc])
       end) acc l = Ok split
  → e ∈ split.1 ∨ e ∈ split.2
  → e ∈ acc.1 ∨ e ∈ acc.2 ∨ e ∈ l.
Proof.
  revert acc. induction l as [|x l IH]; intros [m o]; simpl.
  - intros [= <-] [?|?]; tauto.
  - destruct (findPatient patients _) as [[i p]|]; [|done].
    rewrite elem_of_cons.
    destruct (Patient.mandatory p); simpl; intros H He;
      apply (IH _ H) in He; simpl in He;
      rewrite ?elem_of_app, ?list_elem_of_singleton in He; tauto.
Qed.

Lemma H5_missing (orig : ProblemInstance.t) (sol : Solution.t) (p : Patient.t) :
  p ∈ ProblemInstance.patients orig
  → Patient.mandatory p = true
  → findAssignment (Solution.patients sol) (Patient.id p) = None
  → H5 orig sol = Err Undefined.
Proof.
  unfold H5. generalize 0. generalize (ProblemInstance.patients orig).
  intros l. induction l as [|x l IH]; intros v Hin Hm Hnone.
  - by apply elem_of_nil in Hin.
  - rewrite res_foldl_cons.
    apply elem_of_cons in Hin as [<-|Hin].
    + by rewrite Hm, Hnone.
    + destruct (Patient.mandatory x); [|by apply IH].
      destruct (findAssignment _ (Patient.id x)) as [[i pa]|]; [|done].
      by apply IH.
Qed.

(** X24.  [solve] returns no score for an encoding that omits a mandatory
    patient of the pristine problem: no record is decoded for that patient,
    and the loop of H5 dereferences the end iterator it gets when it looks
    the record up.  The call ends in a fault, which is this undefined
    dereference whenever decoding and the loop of H3 complete. *)
Theorem solve_needs_every_mandatory_patient (encodedSolution : EncodedSolution.t)
    (p : Patient.t) (s : Solver) :
  p ∈ ProblemInstance.patients (originalProblem s)
  → Patient.mandatory p = true
  → Patient.id p ∉ EncodedPatientSolution.patient_id
                     <$> EncodedSolution.encoded_patients encodedSolution
  → ∃ e, solve encodedSolution s = Err e
         ∧ ∀ locals s1 s2 h3,
             solvePatients encodedSolution s = Ok (locals, s1)
             → solveNurses encodedSolution s1 = Ok (tt, s2)
             → H3 (originalProblem s2) (solution s2) = Ok h3
             → e = Undefined.
Proof.
  intros Hin Hm Hnotin.
  assert (∀ locals s1 s2,
            solvePatients encodedSolution s = Ok (locals, s1)
            → solveNurses encodedSolution s1 = Ok (tt, s2)
            → H5 (originalProblem s2) (solution s2) = Err Undefined) as HH5.
  { intros [m o] s1 s2 Hp Hn.
    pose proof (keeps_solvePatients _ _ _ _ Hp) as Hd1.
    pose proof (keeps_solveNurses _ _ _ _ Hn) as Hd2.
    assert (originalProblem s2 = originalProblem s) as ->.
    { apply (f_equal fst) in Hd1, Hd2. simpl in *. congruence. }
    apply (H5_missing _ _ p); [done..|].
    assert (decodedPatients s2 = decodedPatients s1) as Hsame.
    { unfold solveNurses in Hn.
      destruct (nurseAssignments _ _ _); [by injection Hn as <-|done]. }
    apply solvePatients_records in Hp as (split & Hsplit & Hidm & Hido & Hrec).
    apply recorded_ids in Hrec. rewrite <- Hsame in Hrec.
    unfold findAssignment. apply list_find_None, Forall_forall.
    intros pa Hpa Hid. apply Hnotin.
    assert (Patient.id p ∈ PatientAssignment.id <$> decodedPatients s2) as Hmem.
    { rewrite <- Hid. by apply list_elem_of_fmap_2. }
    rewrite Hrec, fmap_app, Hidm, Hido, <- fmap_app in Hmem.
    apply list_elem_of_fmap in Hmem as (e & -> & He).
    apply list_elem_of_fmap_2.
    apply elem_of_app in He.
    apply (splitEncoded_elem_inv _ _ ([], []) _ _ Hsplit) in He
      as [He|[He|He]]; [by apply elem_of_nil in He..|done]. }
  unfold solve. unfold mbind at 1, M_bind at 1.
  destruct (solvePatients encodedSolution s) as [[locals s1]|e] eqn:Hp.
  2:{ exists e. split; [done|]. by intros. }
  unfold mbind at 1, M_bind at 1.
  destruct (solveNurses encodedSolution s1) as [[[] s2]|e] eqn:Hn.
  2:{ exists e. split; [done|]. intros ? ? ? ? [= _ <-]. by rewrite Hn. }
  unfold mbind at 1, M_bind at 1.
  unfold calculateHardConstraintViolations, hardViolations.
  rewrite (HH5 _ _ _ eq_refl Hn).
  destruct (H3 _ _) as [h3|e] eqn:HH3; simpl.
  - exists Undefined. split; [done|]. by intros.
  - exists e. split; [done|]. intros ? ? ? ? [= _ <-] Hn'.
    rewrite Hn in Hn'. injection Hn' as <-. by rewrite HH3.
Qed.

(** ** Unknown patients and missing scores *)

Lemma splitEncoded_unknown (patients : list Patient.t)
    (l : list EncodedPatientSolution.t) (e : EncodedPatientSolution.t) :
  e ∈ l
  → findPatient patients (EncodedPatientSolution.patient_id e) = None
  → splitEncoded patients l = Err DataFault.
Proof.
  unfold splitEncoded. generalize (@nil EncodedPatientSolution.t, @nil EncodedPatientSolution.t).
  induction l as [|x l IH]; intros [m o] Hin Hnone.
  - by apply elem_of_nil in Hin.
  - rewrite res_foldl_cons.
    apply elem_of_cons in Hin as [<-|Hin]; [by rewrite Hnone|].
    destruct (findPatient patients (EncodedPatientSolution.patient_id x))
      as [[i p]|]; [|done].
    destruct (Patient.mandatory p); simpl; by apply IH.
Qed.

(** X25.  [solve] rejects an encoding that names a patient the working
    problem does not list: once initialisation has completed, the first loop
    throws the patient-not-found error, before any patient is placed. *)
Theorem solve_rejects_unknown_patient (encodedSolution : EncodedSolution.t)
    (e : EncodedPatientSolution.t) (u : unit) (s s1 : Solver) :
  initializeDynamicStates s = Ok (u, s1)
  → e ∈ EncodedSolution.encoded_patients encodedSolution
  → findPatient (ProblemInstance.patients (problem s))
      (EncodedPatientSolution.patient_id e) = None
  → solve encodedSolution s = Err DataFault.
Proof.
  intros Hinit Hin Hnone.
  pose proof (keeps_initializeDynamicStates _ _ _ Hinit) as Hdef.
  apply (f_equal snd) in Hdef. simpl in Hdef.
  apply (f_equal ProblemInstance.patients) in Hdef. simpl in Hdef.
  unfold solve, solvePatients. unfold mbind, M_bind. rewrite Hinit. simpl.
  unfold lift. rewrite Hdef.
  by rewrite (splitEncoded_unknown _ _ e Hin Hnone).
Qed.

(** X26.  [computeNurseOnlyCosts] overwrites entries 1 to 3 of the soft
    vector that [calculateSoftConstraints] built.  On a solver whose soft
    vector has fewer than four entries (as after initialisation, before any
    [solve]) it returns no score: it ends in a fault, which is the
    out-of-range write whenever the three nurse penalties can be computed. *)
Theorem computeNurseOnlyCosts_needs_soft_vector (s : Solver) :
  (length (Solution.soft_constraints (solution s)) ≤ 3)%nat
  → ∃ e, computeNurseOnlyCosts s = Err e
         ∧ ∀ s2 s3 s4,
             S2 (problem s) (solution s) = Ok s2
             → S3 (problem s) (solution s) = Ok s3
             → S4 (problem s) (solution s) = Ok s4
             → e = Undefined.
Proof.
  intros Hlen. rewrite computeNurseOnlyCosts_unfold.
  destruct (S2 _ _) as [s2|e]; simpl; [|exists e; split; [done | by intros]].
  destruct (S3 _ _) as [s3|e]; simpl; [|exists e; split; [done | by intros]].
  destruct (S4 _ _) as [s4|e]; simpl; [|exists e; split; [done | by intros]].
  rewrite bool_decide_false by lia.
  exists Undefined. split; [done | by intros].
Qed.

(** ** Mandatory patients are decoded first *)

Lemma splitEncoded_partition (patients : list Patient.t)
    (l : list EncodedPatientSolution.t)
    (split : list EncodedPatientSolution.t * list EncodedPatientSolution.t) :
  splitEncoded patients l = Ok split
  → split.1 = List.filter (encodedMandatory patients) l
    ∧ split.2 = List.filter (λ e, negb (encodedMandatory patients e)) l.
Proof.
  unfold splitEncoded.
  assert (∀ acc : list EncodedPatientSolution.t * list EncodedPatientSolution.t,
            res_foldl
              (λ '(mandatoryEnc, optionalEnc) enc,
                 match findPatient patients (EncodedPatientSolution.patient_id enc) with
                 | None => Err DataFault
                 | Some (_, patient) =>
                     if Patient.mandatory patient
                     then Ok (mandatoryEnc ++ [enc], optionalEnc)
                     else Ok (mandatoryEnc, optionalEnc ++ [enc])
                 end) acc l = Ok split
            → split.1 = acc.1 ++ List.filter (encodedMandatory patients) l
              ∧ split.2
                = acc.2 ++ List.filter (λ e, negb (encodedMandatory patients e)) l)
    as Hgen; [|apply Hgen].
  induction l as [|x l IH]; intros [m o].
  - intros [= <-]. simpl. by rewrite !app_nil_r.
  - rewrite res_foldl_cons. simpl.
    destruct (findPatient patients (EncodedPatientSolution.patient_id x))
      as [[i p]|] eqn:Hfind; [|done].
    assert (encodedMandatory patients x = Patient.mandatory p) as ->.
    { unfold encodedMandatory. by rewrite Hfind. }
    destruct (Patient.mandatory p); simpl; intros [H1 H2]%IH; simpl in *.
    + rewrite H1, H2. by rewrite <- app_assoc.
    + rewrite H1, H2. by rewrite <- app_assoc.
Qed.

(** X27.  Whatever the order of the encoding, [solve] decodes the mandatory
    patients first: the decoded records carry the patient ids of the
    encoded entries of mandatory patients, in encoding order, followed by
    those of the optional patients, in encoding order (one record per
    entry, placed or not). *)
Theorem solve_decodes_mandatory_first (encodedSolution : EncodedSolution.t)
    (r : (Z * Z) * EncodedSolution.t) (s s' : Solver) :
  solve encodedSolution s = Ok (r, s')
  → let patients := ProblemInstance.patients (problem s) in
    let encoded := EncodedSolution.encoded_patients encodedSolution in
    PatientAssignment.id <$> decodedPatients s'
    = EncodedPatientSolution.patient_id
        <$> (List.filter (encodedMandatory patients) encoded
             ++ List.filter (λ e, negb (encodedMandatory patients e)) encoded).
Proof.
  intros (locals & s1 & Hp & _ & _ & Hrec & _)%solve_after_patients.
  intros patients encoded.
  unfold decodedPatients. rewrite Hrec. destruct locals as [m o].
  apply solvePatients_records in Hp as (split & Hsplit & Hidm & Hido & Hrecs).
  apply recorded_ids in Hrecs. unfold decodedPatients in Hrecs.
  apply splitEncoded_partition in Hsplit as [H1 H2].
  fold patients encoded in H1, H2.
  by rewrite Hrecs, !fmap_app, Hidm, Hido, H1, H2.
Qed.

(** ** What solve and the search leave of the problem *)

Lemma keeps_searchSwaps (score0 : Z * Z) (pairs : list (nat * nat))
    (enc : EncodedSolution.t) :
  keeps (λ s, (problem s, originalProblem s)) (searchSwaps score0 pairs enc).
Proof.
  revert enc. induction pairs as [|[i j] rest IH]; intros enc s r s'.
  - by intros [_ <-]%M_ret_Ok.
  - rewrite searchSwaps_cons, evaluateSwap_unfold.
    destruct (nurseAssignments _ _ _) as [l|]; [|done].
    rewrite computeNurseOnlyCosts_unfold. simpl.
    destruct (S2 _ _) as [s2|]; [|done]. simpl.
    destruct (S3 _ _) as [s3|]; [|done]. simpl.
    destruct (S4 _ _) as [s4|]; [|done]. simpl.
    case_bool_decide; [|done].
    destruct (hardViolations _ _) as [h|]; [|done]. simpl.
    destruct (isBetterFitness _ _); [by intros [= _ <-]|].
    intros Hrest. by apply IH in Hrest.
Qed.

(** X28.  Neither [solve] nor [localSearchNurses] changes the problem they
    work on: when they return, the pristine copy is as it was and the
    working copy differs from what it was at most in the surgeon budgets;
    [localSearchNurses] moreover leaves the working copy exactly as its
    initial [solve] left it. *)
Theorem solve_preserves_problem (encodedSolution : EncodedSolution.t)
    (s : Solver) :
  (∀ r s', solve encodedSolution s = Ok (r, s')
           → originalProblem s' = originalProblem s
             ∧ ProblemInstance.set_surgeons [] (problem s')
               = ProblemInstance.set_surgeons [] (problem s))
  ∧ (∀ r s', localSearchNurses encodedSolution s = Ok (r, s')
             → originalProblem s' = originalProblem s
               ∧ ProblemInstance.set_surgeons [] (problem s')
                 = ProblemInstance.set_surgeons [] (problem s)
               ∧ ∃ r0 s0, solve encodedSolution s = Ok (r0, s0)
                          ∧ problem s' = problem s0).
Proof.
  split.
  - intros r s' Hsolve. apply keeps_solve in Hsolve.
    split; [exact (f_equal fst Hsolve) | exact (f_equal snd Hsolve)].
  - intros r s'. unfold localSearchNurses.
    intros (r0 & s0 & Hsolve & H)%M_bind_Ok.
    unfold mbind at 1, M_bind at 1 in H. simpl in H.
    apply M_bind_Ok in H as (meta & s1 & Hmeta & Hsearch).
    unfold lift in Hmeta. destruct (blockMeta _ _); [|done].
    injection Hmeta as _ <-.
    apply keeps_searchSwaps in Hsearch.
    pose proof (f_equal fst Hsearch) as Hp.
    pose proof (f_equal snd Hsearch) as Ho. simpl in Hp, Ho.
    apply keeps_solve in Hsolve as Hdef.
    rewrite Hp, Ho.
    split; [exact (f_equal fst Hdef)|]. split; [exact (f_equal snd Hdef)|].
    by exists r0, s0.
Qed.

(** ** What the checks read of a patient *)

Lemma theaterAvailable_reads (ts : list OperatingTheaterState.t)
    (patient patient' : Patient.t) (day : Z) :
  Patient.surgery_duration patient' = Patient.surgery_duration patient
  → theaterAvailable ts patient' day = theaterAvailable ts patient day.
Proof.
  intros Hdur. induction ts as [|t ts IH]; simpl; [done|].
  by rewrite Hdur, IH.
Qed.

(** X29.  The three feasibility checks read only the id (for the text of
    an exception), the gender, the surgeon, the surgery duration and the
    length of stay of the patient: two patients that agree on these get the
    same verdict and the same effect for every day, room and solver state.
    In particular the verdict does not depend on the patient's incompatible
    rooms, release day, due day or mandatory flag. *)
Theorem checkPlacement_reads (patient patient' : Patient.t) (day : Z)
    (room_id : string) (s : Solver) :
  Patient.id patient' = Patient.id patient
  → Patient.gender patient' = Patient.gender patient
  → Patient.surgeon_id patient' = Patient.surgeon_id patient
  → Patient.surgery_duration patient' = Patient.surgery_duration patient
  → Patient.length_of_stay patient' = Patient.length_of_stay patient
  → checkPlacement patient' day room_id s = checkPlacement patient day room_id s.
Proof.
  intros _ Hg Hs Hd Hl. rewrite !checkPlacement_unfold.
  unfold surgeonAvailable, roomAvailable, roomDayOk.
  by rewrite Hg, Hs, Hd, Hl, (theaterAvailable_reads _ patient patient' day Hd).
Qed.

(** ** The further properties on the small instance *)

(** X1 on the small instance. *)
Lemma initializeDynamicStates_resets_witness :
  initializeDynamicStates demoSolver = Ok (tt, demoInitial)
  ∧ solve demoEnc demoSolver = Ok (((2, 5), demoEnc), demoSolved)
  ∧ initializeDynamicStates demoInitial = Ok (tt, demoInitial)
  ∧ initializeDynamicStates demoSolved = Ok (tt, demoInitial).
Proof.
  assert (initializeDynamicStates demoSolver = Ok (tt, demoInitial)) as Hinit
    by (vm_compute; reflexivity).
  assert (solve demoEnc demoSolver = Ok (((2, 5), demoEnc), demoSolved)) as H
    by (vm_compute; reflexivity).
  split; [exact Hinit|]. split; [exact H|].
  exact (initializeDynamicStates_resets _ _ _ _ _ _ Hinit H).
Defined.

(** X2 on three scores. *)
Lemma isBetterFitness_strict_order_witness :
  isBetterFitness (1, 2) (1, 3) = true
  ∧ isBetterFitness (1, 3) (2, 0) = true
  ∧ isBetterFitness (1, 2) (2, 0) = true
  ∧ isBetterFitness (1, 3) (1, 2) = false.
Proof.
  assert (isBetterFitness (1, 2) (1, 3) = true) as H1 by reflexivity.
  assert (isBetterFitness (1, 3) (2, 0) = true) as H2 by reflexivity.
  destruct (isBetterFitness_strict_order (1, 2) (1, 3) (2, 0))
    as (_ & Htrans & Hasym & _).
  split; [exact H1|]. split; [exact H2|]. split; [exact (Htrans H1 H2)|].
  exact (Hasym H1).
Defined.

(** X5 on the small instance. *)
Lemma initializeDynamicStates_rooms_witness :
  initializeDynamicStates demoSolver = Ok (tt, demoInitial)
  ∧ Forall2 (seededRoom 3 []) [Room.mk "r1" 1; Room.mk "r2" 2]
            (Solution.roomStates (solution demoInitial)).
Proof.
  assert (initializeDynamicStates demoSolver = Ok (tt, demoInitial)) as Hinit
    by (vm_compute; reflexivity).
  split; [exact Hinit|].
  exact (initializeDynamicStates_rooms _ _ _ Hinit).
Defined.

(** X9 on the small instance: the mandatory patient on day 1 in room r1. *)
Lemma commit_after_check_witness :
  checkPlacement demoMandatory 1 "r1" demoInitial = Ok (true, demoInitial)
  ∧ ∃ theater_id s2,
      commitPlacement demoMandatory 1 "r1" demoInitial = Ok (tt, s2)
      ∧ decodedPatients s2
        = decodedPatients demoInitial
          ++ [PatientAssignment.mk "p1" (Some 1) "r1" theater_id].
Proof.
  assert (checkPlacement demoMandatory 1 "r1" demoInitial = Ok (true, demoInitial))
    as H by (vm_compute; reflexivity).
  split; [exact H|].
  exact (commit_after_check _ _ _ _ _ H).
Defined.

(** X11 on the small instance. *)
Lemma solve_rooms_safe_witness :
  solve demoEnc demoSolver = Ok (((2, 5), demoEnc), demoSolved)
  ∧ Forall roomSafe (Solution.roomStates (solution demoSolved))
  ∧ H7 (solution demoSolved) = 0.
Proof.
  assert (solve demoEnc demoSolver = Ok (((2, 5), demoEnc), demoSolved)) as H
    by (vm_compute; reflexivity).
  split; [exact H|].
  exact (solve_rooms_safe _ _ _ _ H).
Defined.

(** X12 on the small instance. *)
Lemma solve_adds_no_gender_violation_witness :
  initializeDynamicStates demoSolver = Ok (tt, demoInitial)
  ∧ solve demoEnc demoSolver = Ok (((2, 5), demoEnc), demoSolved)
  ∧ H1 (solution demoSolved) = H1 (solution demoInitial).
Proof.
  assert (initializeDynamicStates demoSolver = Ok (tt, demoInitial)) as Hinit
    by (vm_compute; reflexivity).
  assert (solve demoEnc demoSolver = Ok (((2, 5), demoEnc), demoSolved)) as H
    by (vm_compute; reflexivity).
  split; [exact Hinit|]. split; [exact H|].
  exact (solve_adds_no_gender_violation _ _ _ _ _ _ Hinit H).
Defined.

(** X13 on the small instance: re-scoring with the last two blocks swapped. *)
Lemma evaluateSwap_exact_witness :
  solve demoEnc demoSolver = Ok (((2, 5), demoEnc), demoSolved)
  ∧ EncodedSolution.encoded_patients demoSwappedEnc
    = EncodedSolution.encoded_patients demoEnc
  ∧ evaluateSwap demoSwappedEnc demoSolved
    = ((x ← solve demoSwappedEnc; mret x.1) : M (Z * Z)) demoSolver.
Proof.
  assert (solve demoEnc demoSolver = Ok (((2, 5), demoEnc), demoSolved)) as H
    by (vm_compute; reflexivity).
  assert (EncodedSolution.encoded_patients demoSwappedEnc
          = EncodedSolution.encoded_patients demoEnc) as He by reflexivity.
  split; [exact H|]. split; [exact He|].
  exact (evaluateSwap_exact _ _ _ _ _ H He).
Defined.

(** X14 on the small instance: the search swaps the last two blocks and
    returns the score (2, 4), which is what [solve] gives on the swapped
    encoding. *)
Lemma localSearchNurses_score_exact_witness :
  outcome (localSearchNurses demoEnc demoSolver) = Ok ((2, 4), demoSwappedEnc)
  ∧ outcome (solve demoSwappedEnc demoSolver) = Ok ((2, 4), demoSwappedEnc).
Proof.
  assert (outcome (localSearchNurses demoEnc demoSolver)
          = Ok ((2, 4), demoSwappedEnc)) as H by (vm_compute; reflexivity).
  split; [exact H|].
  exact (localSearchNurses_score_exact _ _ _ _ H).
Defined.

(** X15 on the small instance: started from the swapped encoding, the
    search probes the one candidate pair (1, 2), rejects it and returns the
    swapped encoding with its score; the solver is left in the state of the
    rejected encoding. *)
Lemma localSearchNurses_leaves_last_probe_witness :
  solve demoSwappedEnc demoSolver = Ok (((2, 4), demoSwappedEnc), demoSwapped)
  ∧ blockMeta (ProblemInstance.nurses (problem demoSwapped))
      (length (EncodedSolution.encoded_nurses demoSwappedEnc))
    = Ok [(0, "early"); (1, "early"); (1, "early")]
  ∧ swapCandidates [(0, "early"); (1, "early"); (1, "early")]
    = [] ++ [(1%nat, 2%nat)]
  ∧ localSearchNurses demoSwappedEnc demoSolver
    = Ok (((2, 4), demoSwappedEnc), demoSolved)
  ∧ swapBlocks 1 2 demoSwappedEnc = demoEnc
  ∧ ∃ score,
      solve (swapBlocks 1 2 demoSwappedEnc) demoSolver
      = Ok ((score, swapBlocks 1 2 demoSwappedEnc), demoSolved).
Proof.
  assert (solve demoSwappedEnc demoSolver
          = Ok (((2, 4), demoSwappedEnc), demoSwapped)) as H
    by (vm_compute; reflexivity).
  assert (blockMeta (ProblemInstance.nurses (problem demoSwapped))
            (length (EncodedSolution.encoded_nurses demoSwappedEnc))
          = Ok [(0, "early"); (1, "early"); (1, "early")]) as Hm
    by (vm_compute; reflexivity).
  assert (swapCandidates [(0, "early"); (1, "early"); (1, "early")]
          = [] ++ [(1%nat, 2%nat)]) as Hc by (vm_compute; reflexivity).
  assert (localSearchNurses demoSwappedEnc demoSolver
          = Ok (((2, 4), demoSwappedEnc), demoSolved)) as Hl
    by (vm_compute; reflexivity).
  split; [exact H|]. split; [exact Hm|]. split; [exact Hc|]. split; [exact Hl|].
  split; [reflexivity|].
  exact (localSearchNurses_leaves_last_probe _ _ _ _ _ _ _ _ _ H Hm Hc Hl).
Defined.

(** X16 on the small instance: the mandatory patient, encoded on day 0 in
    room r2, is moved to the first admissible pair, day 1 in room r1. *)
Lemma repairMandatoryPatient_first_fit_witness :
  repairMandatoryPatient demoMandatory (EncodedPatientSolution.mk "p1" 0 "r2")
    demoInitial
  = Ok ((true, EncodedPatientSolution.mk "p1" 1 "r1"), demoInitial)
  ∧ firstFit demoMandatory demoInitial
      (repairCandidates demoMandatory
         (mandatoryDays (ProblemInstance.days (problem demoInitial)) demoMandatory)
         (ProblemInstance.rooms (problem demoInitial)))
      (EncodedPatientSolution.mk "p1" 0 "r2")
      (true, EncodedPatientSolution.mk "p1" 1 "r1").
Proof.
  assert (repairMandatoryPatient demoMandatory
            (EncodedPatientSolution.mk "p1" 0 "r2") demoInitial
          = Ok ((true, EncodedPatientSolution.mk "p1" 1 "r1"), demoInitial)) as H
    by (vm_compute; reflexivity).
  split; [exact H|].
  exact (repairMandatoryPatient_first_fit _ _ _ _ _ H).
Defined.

(** X17 on the small instance: once both patients are placed, the surgeon
    has no budget left on day 1; a repair of the optional patient finds
    day 2 in room r1. *)
Lemma repairOptionalPatient_first_fit_witness :
  repairOptionalPatient demoOptional (EncodedPatientSolution.mk "p2" 1 "r1")
    demoDecoded
  = Ok ((true, EncodedPatientSolution.mk "p2" 2 "r1"), demoDecoded)
  ∧ firstFit demoOptional demoDecoded
      (repairCandidates demoOptional
         (optionalDays (ProblemInstance.days (problem demoDecoded)) demoOptional)
         (ProblemInstance.rooms (problem demoDecoded)))
      (EncodedPatientSolution.mk "p2" 1 "r1")
      (true, EncodedPatientSolution.mk "p2" 2 "r1").
Proof.
  assert (repairOptionalPatient demoOptional
            (EncodedPatientSolution.mk "p2" 1 "r1") demoDecoded
          = Ok ((true, EncodedPatientSolution.mk "p2" 2 "r1"), demoDecoded)) as H
    by (vm_compute; reflexivity).
  split; [exact H|].
  exact (repairOptionalPatient_first_fit _ _ _ _ _ H).
Defined.

(** X18 on the small instance. *)
Lemma repairMandatoryPatient_admissible_witness :
  repairMandatoryPatient demoMandatory (EncodedPatientSolution.mk "p1" 0 "r2")
    demoInitial
  = Ok ((true, EncodedPatientSolution.mk "p1" 1 "r1"), demoInitial)
  ∧ (0 ≤ 1 ≤ 2)
  ∧ 1 < 3
  ∧ ("r1" ∉ Patient.incompatible_room_ids demoMandatory)
  ∧ "r1" ∈ Room.id <$> ProblemInstance.rooms (problem demoInitial).
Proof.
  assert (repairMandatoryPatient demoMandatory
            (EncodedPatientSolution.mk "p1" 0 "r2") demoInitial
          = Ok ((true, EncodedPatientSolution.mk "p1" 1 "r1"), demoInitial)) as H
    by (vm_compute; reflexivity).
  split; [exact H|].
  exact (repairMandatoryPatient_admissible _ _ _ _ _ H).
Defined.

(** X19 on the small instance. *)
Lemma repairOptionalPatient_admissible_witness :
  repairOptionalPatient demoOptional (EncodedPatientSolution.mk "p2" 1 "r1")
    demoDecoded
  = Ok ((true, EncodedPatientSolution.mk "p2" 2 "r1"), demoDecoded)
  ∧ (1 ≤ 2 < 3)
  ∧ ("r1" ∉ Patient.incompatible_room_ids demoOptional)
  ∧ "r1" ∈ Room.id <$> ProblemInstance.rooms (problem demoDecoded).
Proof.
  assert (repairOptionalPatient demoOptional
            (EncodedPatientSolution.mk "p2" 1 "r1") demoDecoded
          = Ok ((true, EncodedPatientSolution.mk "p2" 2 "r1"), demoDecoded)) as H
    by (vm_compute; reflexivity).
  split; [exact H|].
  exact (repairOptionalPatient_admissible _ _ _ _ _ H).
Defined.

(** X21 on the small instance. *)
Lemma solve_respects_surgeon_budgets_witness :
  ProblemInstance.patients (problem demoSolver)
  = ProblemInstance.patients (originalProblem demoSolver)
  ∧ NoDup (Surgeon.id <$> ProblemInstance.surgeons (originalProblem demoSolver))
  ∧ Forall (λ sg, Forall (λ b, 0 ≤ b) (Surgeon.max_surgery_time sg))
           (ProblemInstance.surgeons (originalProblem demoSolver))
  ∧ solve demoEnc demoSolver = Ok (((2, 5), demoEnc), demoSolved)
  ∧ H3 (originalProblem demoSolved) (solution demoSolved) = Ok 0.
Proof.
  assert (NoDup (Surgeon.id <$> ProblemInstance.surgeons (originalProblem demoSolver)))
    as Hnd.
  { apply (bool_decide_unpack _). vm_compute. exact I. }
  assert (Forall (λ sg, Forall (λ b, 0 ≤ b) (Surgeon.max_surgery_time sg))
                 (ProblemInstance.surgeons (originalProblem demoSolver))) as Hpos.
  { apply (bool_decide_unpack _). vm_compute. exact I. }
  assert (solve demoEnc demoSolver = Ok (((2, 5), demoEnc), demoSolved)) as H
    by (vm_compute; reflexivity).
  split; [reflexivity|]. split; [exact Hnd|]. split; [exact Hpos|].
  split; [exact H|].
  exact (solve_respects_surgeon_budgets demoEnc _ demoSolver demoSolved
           eq_refl Hnd Hpos H).
Defined.

(** X22 on the small instance. *)
Lemma solve_respects_theater_availability_witness :
  ProblemInstance.theaters (problem demoSolver)
  = ProblemInstance.theaters (originalProblem demoSolver)
  ∧ NoDup (OperatingTheater.id
             <$> ProblemInstance.theaters (originalProblem demoSolver))
  ∧ Forall (λ theater, Forall (λ a, 0 ≤ a) (OperatingTheater.availability theater))
           (ProblemInstance.theaters (originalProblem demoSolver))
  ∧ solve demoEnc demoSolver = Ok (((2, 5), demoEnc), demoSolved)
  ∧ H4 (originalProblem demoSolved) (solution demoSolved) = 0.
Proof.
  assert (NoDup (OperatingTheater.id
                   <$> ProblemInstance.theaters (originalProblem demoSolver)))
    as Hnd.
  { apply (bool_decide_unpack _). vm_compute. exact I. }
  assert (Forall (λ theater, Forall (λ a, 0 ≤ a)
                               (OperatingTheater.availability theater))
                 (ProblemInstance.theaters (originalProblem demoSolver))) as Hpos.
  { apply (bool_decide_unpack _). vm_compute. exact I. }
  assert (solve demoEnc demoSolver = Ok (((2, 5), demoEnc), demoSolved)) as H
    by (vm_compute; reflexivity).
  split; [reflexivity|]. split; [exact Hnd|]. split; [exact Hpos|].
  split; [exact H|].
  exact (solve_respects_theater_availability demoEnc _ demoSolver demoSolved
           eq_refl Hnd Hpos H).
Defined.

(** X24 on the small instance: the encoding without the mandatory patient
    p1 makes [solve] undefined. *)
Lemma solve_needs_every_mandatory_patient_witness :
  demoMandatory ∈ ProblemInstance.patients (originalProblem demoSolver)
  ∧ Patient.mandatory demoMandatory = true
  ∧ (Patient.id demoMandatory
     ∉ EncodedPatientSolution.patient_id
         <$> EncodedSolution.encoded_patients demoOmittedEnc)
  ∧ solve demoOmittedEnc demoSolver = Err Undefined
  ∧ ∃ e, solve demoOmittedEnc demoSolver = Err e
         ∧ ∀ locals s1 s2 h3,
             solvePatients demoOmittedEnc demoSolver = Ok (locals, s1)
             → solveNurses demoOmittedEnc s1 = Ok (tt, s2)
             → H3 (originalProblem s2) (solution s2) = Ok h3
             → e = Undefined.
Proof.
  assert (demoMandatory ∈ ProblemInstance.patients (originalProblem demoSolver))
    as Hin by (vm_compute; left).
  assert (Patient.id demoMandatory
          ∉ EncodedPatientSolution.patient_id
              <$> EncodedSolution.encoded_patients demoOmittedEnc) as Hnotin.
  { apply (bool_decide_unpack _). vm_compute. exact I. }
  split; [exact Hin|]. split; [reflexivity|]. split; [exact Hnotin|].
  split; [vm_compute; reflexivity|].
  exact (solve_needs_every_mandatory_patient demoOmittedEnc demoMandatory
           demoSolver Hin eq_refl Hnotin).
Defined.

(** X25 on the small instance: patient p9 is unknown. *)
Lemma solve_rejects_unknown_patient_witness :
  initializeDynamicStates demoSolver = Ok (tt, demoInitial)
  ∧ EncodedPatientSolution.mk "p9" 1 "r2"
    ∈ EncodedSolution.encoded_patients demoUnknownEnc
  ∧ findPatient (ProblemInstance.patients (problem demoSolver)) "p9" = None
  ∧ solve demoUnknownEnc demoSolver = Err DataFault.
Proof.
  assert (initializeDynamicStates demoSolver = Ok (tt, demoInitial)) as Hinit
    by (vm_compute; reflexivity).
  assert (EncodedPatientSolution.mk "p9" 1 "r2"
          ∈ EncodedSolution.encoded_patients demoUnknownEnc) as Hin
    by (vm_compute; right; left).
  assert (findPatient (ProblemInstance.patients (problem demoSolver)) "p9" = None)
    as Hnone by (vm_compute; reflexivity).
  split; [exact Hinit|]. split; [exact Hin|]. split; [exact Hnone|].
  exact (solve_rejects_unknown_patient _ _ _ _ _ Hinit Hin Hnone).
Defined.

(** X26 on the small instance: right after initialisation the soft vector
    is empty. *)
Lemma computeNurseOnlyCosts_needs_soft_vector_witness :
  (length (Solution.soft_constraints (solution demoInitial)) ≤ 3)%nat
  ∧ computeNurseOnlyCosts demoInitial = Err Undefined
  ∧ ∃ e, computeNurseOnlyCosts demoInitial = Err e
         ∧ ∀ s2 s3 s4,
             S2 (problem demoInitial) (solution demoInitial) = Ok s2
             → S3 (problem demoInitial) (solution demoInitial) = Ok s3
             → S4 (problem demoInitial) (solution demoInitial) = Ok s4
             → e = Undefined.
Proof.
  assert (length (Solution.soft_constraints (solution demoInitial)) ≤ 3)%nat
    as Hlen by (vm_compute; lia).
  split; [exact Hlen|]. split; [vm_compute; reflexivity|].
  exact (computeNurseOnlyCosts_needs_soft_vector _ Hlen).
Defined.

(** X27 on the small instance. *)
Lemma solve_decodes_mandatory_first_witness :
  solve demoEnc demoSolver = Ok (((2, 5), demoEnc), demoSolved)
  ∧ PatientAssignment.id <$> decodedPatients demoSolved = ["p1"; "p2"]
  ∧ PatientAssignment.id <$> decodedPatients demoSolved
    = EncodedPatientSolution.patient_id
        <$> (List.filter
               (encodedMandatory (ProblemInstance.patients (problem demoSolver)))
               (EncodedSolution.encoded_patients demoEnc)
             ++ List.filter
                  (λ e, negb (encodedMandatory
                                (ProblemInstance.patients (problem demoSolver)) e))
                  (EncodedSolution.encoded_patients demoEnc)).
Proof.
  assert (solve demoEnc demoSolver = Ok (((2, 5), demoEnc), demoSolved)) as H
    by (vm_compute; reflexivity).
  split; [exact H|]. split; [vm_compute; reflexivity|].
  exact (solve_decodes_mandatory_first _ _ _ _ H).
Defined.

(** X28 on the small instance. *)
Lemma solve_preserves_problem_witness :
  solve demoEnc demoSolver = Ok (((2, 5), demoEnc), demoSolved)
  ∧ localSearchNurses demoEnc demoSolver
    = Ok (((2, 4), demoSwappedEnc), demoSwapped)
  ∧ originalProblem demoSolved = originalProblem demoSolver
  ∧ originalProblem demoSwapped = originalProblem demoSolver
  ∧ ProblemInstance.set_surgeons [] (problem demoSwapped)
    = ProblemInstance.set_surgeons [] (problem demoSolver).
Proof.
  assert (solve demoEnc demoSolver = Ok (((2, 5), demoEnc), demoSolved)) as H
    by (vm_compute; reflexivity).
  assert (localSearchNurses demoEnc demoSolver
          = Ok (((2, 4), demoSwappedEnc), demoSwapped)) as Hl
    by (vm_compute; reflexivity).
  destruct (solve_preserves_problem demoEnc demoSolver) as [Hsolve Hsearch].
  destruct (Hsolve _ _ H) as [Ho _].
  destruct (Hsearch _ _ Hl) as (Ho' & Hp' & _).
  split; [exact H|]. split; [exact Hl|]. split; [exact Ho|].
  split; [exact Ho' | exact Hp'].
Defined.

(** X6 on the small instance: the one theater declares three days. *)
Lemma initializeDynamicStates_theaters_witness :
  Forall (λ theater,
            ProblemInstance.days (problem demoSolver)
            ≤ Z.of_nat (length (OperatingTheater.availability theater)))
         (ProblemInstance.theaters (problem demoSolver))
  ∧ ∃ s1, initializeDynamicStates demoSolver = Ok (tt, s1)
          ∧ Forall2 (seededTheater (ProblemInstance.days (problem demoSolver)))
                    (ProblemInstance.theaters (problem demoSolver))
                    (Solution.theaterStates (solution s1))
          ∧ ProblemInstance.surgeons (problem s1)
            = ProblemInstance.surgeons (originalProblem demoSolver)
          ∧ Solution.patients (solution s1) = []
          ∧ Solution.nurses (solution s1) = []
          ∧ Solution.soft_constraints (solution s1) = [].
Proof.
  assert (Forall (λ theater,
                    ProblemInstance.days (problem demoSolver)
                    ≤ Z.of_nat (length (OperatingTheater.availability theater)))
                 (ProblemInstance.theaters (problem demoSolver))) as Hcov.
  { apply (bool_decide_unpack _). vm_compute. exact I. }
  split; [exact Hcov|].
  exact (proj1 (initializeDynamicStates_theaters demoSolver)
               (proj1 (Forall_forall _ _) Hcov)).
Defined.

(** X7 on the small instance: the mandatory patient enters room r1 on
    day 1. *)
Lemma assignRoom_effect_witness :
  ∃ i rs,
    findRoomState (Solution.roomStates (solution demoInitial)) "r1" = Some (i, rs)
    ∧ hasCapacity (ProblemInstance.days (problem demoInitial)) rs demoMandatory 1
    ∧ ∃ rs',
        assignRoom demoMandatory 1 "r1" demoInitial
        = Ok (tt, set_solution
                    (Solution.set_roomStates
                       (<[i := rs']> (Solution.roomStates (solution demoInitial)))
                       (solution demoInitial)) demoInitial)
        ∧ occupied (ProblemInstance.days (problem demoInitial)) demoMandatory 1
            rs rs'.
Proof.
  pose proof (assignRoom_effect demoMandatory 1 "r1" demoInitial) as H.
  cbv zeta in H.
  destruct (findRoomState (Solution.roomStates (solution demoInitial)) "r1")
    as [[i rs]|] eqn:Hfind; [|vm_compute in Hfind; discriminate].
  exists i, rs. split; [reflexivity|].
  assert (hasCapacity (ProblemInstance.days (problem demoInitial)) rs
            demoMandatory 1) as Hcap.
  { vm_compute in Hfind. injection Hfind as <- <-. intros d Hd.
    assert (stayDays (ProblemInstance.days (problem demoInitial)) 1
              (Patient.length_of_stay demoMandatory) = [1]) as Hs by reflexivity.
    rewrite Hs in Hd. apply list_elem_of_singleton in Hd as ->.
    exists 1. split; [vm_compute; reflexivity | lia]. }
  split; [exact Hcap|]. exact (proj1 H Hcap).
Defined.

(** X29 on the small instance: the mandatory patient with room r1 declared
    incompatible and a surgery window that excludes day 1 still passes the
    checks for day 1 in room r1. *)
Lemma checkPlacement_reads_witness :
  checkPlacement
    (Patient.mk "p1" "A" "adult" true "s1" 30 2 2 1 ["r1"] [1; 1] [2; 2; 2])
    1 "r1" demoInitial
  = checkPlacement demoMandatory 1 "r1" demoInitial
  ∧ checkPlacement demoMandatory 1 "r1" demoInitial = Ok (true, demoInitial).
Proof.
  split; [|vm_compute; reflexivity].
  exact (checkPlacement_reads demoMandatory
           (Patient.mk "p1" "A" "adult" true "s1" 30 2 2 1 ["r1"] [1; 1] [2; 2; 2])
           1 "r1" demoInitial eq_refl eq_refl eq_refl eq_refl eq_refl).
Defined.
